(** * MicroVisionAI: orchestration core, embedded and verified

    A shallow embedding of the orchestration layer of the MicroVisionAI
    FastAPI application:

    - [app/services/atlas_service.py]: the section parser that re-segments
      a streamed completion ([generate_macro_from_prompt] and helpers);
    - [app/routes/chat_routes.py]: the server-push transport [macro_stream]
      and [stream_improved_prompt];
    - [app/services/file_service.py]: [parse_saved_files], [create_zip_file],
      [wait_for_file], [cleanup_temp_files];
    - [app/services/imagej_service.py]: the batch loop [execute_image_macro],
      the start of the engine with its retries, and its shutdown;
    - [app/services/image_service.py]: the readiness wait [_wait_for_file],
      the wait for the log of the preview macro and its parser, and
      [process_image] with [run_preview_macro];
    - [app/config.py]: the dotted lookup [Config.get] and the check of the
      required keys;
    - [app/routes/image_routes.py]: the handlers of the upload, the
      deletion and the preview of an image.

    Python [str] values are Rocq strings, one character per code point
    (code points below 256).  Exceptions are values of [exn]; a call that may
    raise returns a [result].  The disk is a finite map from canonical path
    strings to nodes, together with the canonical form of every path string
    and the errors the kernel gives for the paths it cannot examine; every
    file and directory on it can be read, listed and removed.  The external
    engine and the completion backend are arguments of the functions that
    call them.

    The file has two parts: the embedding (definitions only), then the
    properties proved about it. *)

From Stdlib Require Import Ascii List Bool Arith ZArith Lia.
From Stdlib Require String.
From Stdlib Require SpecFloat.
From stdpp Require Import base option list strings gmap pretty.
Import ListNotations.

#[local] Set Warnings "-clear-no-such-hyp".

(** * Part I: the embedding *)

(** ** Python string primitives *)

Module Py.

Definition LF : ascii := "010"%char.
Definition SLASH : ascii := "/"%char.

(** [c.isspace()] for a code point below 256. *)
Definition isspace (c : ascii) : bool :=
  match c with
  | "009" | "010" | "011" | "012" | "013"
  | "028" | "029" | "030" | "031" | " " | "133" | "160" => true
  | _ => false
  end%char.

(** [s.startswith(p)] *)
Fixpoint startswith (p s : string) : bool :=
  match p, s with
  | EmptyString, _ => true
  | String a p', String b s' => Ascii.eqb a b && startswith p' s'
  | String _ _, EmptyString => false
  end.

(** [sub in s] *)
Fixpoint contains (sub s : string) : bool :=
  startswith sub s ||
  match s with
  | EmptyString => false
  | String _ s' => contains sub s'
  end.

(** [s.lstrip(chars)], with the set of characters as a predicate. *)
Fixpoint lstrip_by (f : ascii -> bool) (s : string) : string :=
  match s with
  | EmptyString => EmptyString
  | String c s' => if f c then lstrip_by f s' else s
  end.

(** [s.rstrip(chars)] *)
Fixpoint rstrip_by (f : ascii -> bool) (s : string) : string :=
  match s with
  | EmptyString => EmptyString
  | String c s' =>
      match rstrip_by f s' with
      | EmptyString => if f c then EmptyString else String c EmptyString
      | r => String c r
      end
  end.

(** [s.strip(chars)] *)
Definition strip_by (f : ascii -> bool) (s : string) : string :=
  rstrip_by f (lstrip_by f s).

(** [s.strip()] *)
Definition strip (s : string) : string := strip_by isspace s.

(** [s.endswith(p)] *)
Definition endswith (p s : string) : bool :=
  startswith (String.rev p) (String.rev s).

(** [s[n:]] *)
Fixpoint drop (n : nat) (s : string) : string :=
  match n, s with
  | S k, String _ s' => drop k s'
  | _, _ => s
  end.

(** [s[:n]] *)
Fixpoint take (n : nat) (s : string) : string :=
  match n, s with
  | S k, String c s' => String c (take k s')
  | _, _ => EmptyString
  end.

(** [s.rfind(c)] for a character, counted from [i]. *)
Fixpoint rfind_from (i : nat) (c : ascii) (s : string) : option nat :=
  match s with
  | EmptyString => None
  | String d s' =>
      match rfind_from (S i) c s' with
      | Some j => Some j
      | None => if Ascii.eqb d c then Some i else None
      end
  end.
Definition rfind (c : ascii) (s : string) : option nat := rfind_from 0 c s.

(** [s.split()]: the maximal runs of characters that are not white space.
    [cur] is the run being read, reversed. *)
Fixpoint split_whitespace_go (cur : option string) (s : string) : list string :=
  match s with
  | EmptyString => match cur with Some w => [String.rev w] | None => [] end
  | String c s' =>
      if isspace c then
        match cur with
        | Some w => String.rev w :: split_whitespace_go None s'
        | None => split_whitespace_go None s'
        end
      else
        split_whitespace_go
          (Some (String c (match cur with Some w => w | None => EmptyString end))) s'
  end.
Definition split_whitespace (s : string) : list string := split_whitespace_go None s.

(** The characters of [s] that satisfy [f]. *)
Fixpoint filter_chars (f : ascii -> bool) (s : string) : string :=
  match s with
  | EmptyString => EmptyString
  | String c s' => if f c then String c (filter_chars f s') else filter_chars f s'
  end.

(** [s.replace(a, b)] for single characters. *)
Fixpoint replace_char (a b : ascii) (s : string) : string :=
  match s with
  | EmptyString => EmptyString
  | String c s' => String (if Ascii.eqb c a then b else c) (replace_char a b s')
  end.

(** [s.replace(old, new)]: leftmost, non-overlapping occurrences.  The
    counter [skip] is the number of characters of the occurrence just
    matched that are still to be dropped. *)
Fixpoint replace_from (skip : nat) (old new s : string) : string :=
  match s with
  | EmptyString => EmptyString
  | String c s' =>
      match skip with
      | S k => replace_from k old new s'
      | O =>
          if startswith old s
          then new +:+ replace_from (String.length old - 1) old new s'
          else String c (replace_from 0 old new s')
      end
  end.

Fixpoint intersperse (new s : string) : string :=
  match s with
  | EmptyString => EmptyString
  | String c s' => String c (new +:+ intersperse new s')
  end.

Definition replace (old new s : string) : string :=
  match old with
  | EmptyString => new +:+ intersperse new s
  | _ => replace_from 0 old new s
  end.

(** [s.split(sep)] for a one-character separator. *)
Fixpoint split (sep : ascii) (s : string) : list string :=
  match s with
  | EmptyString => [EmptyString]
  | String c s' =>
      if Ascii.eqb c sep then EmptyString :: split sep s'
      else match split sep s' with
           | l :: ls => String c l :: ls
           | [] => [String c EmptyString]
           end
  end.

(** [sep.join(parts)] *)
Fixpoint join (sep : string) (parts : list string) : string :=
  match parts with
  | [] => EmptyString
  | [p] => p
  | p :: rest => p +:+ sep +:+ join sep rest
  end.

(** Truthiness of a string: [if s:]. *)
Definition truthy (s : string) : bool :=
  match s with EmptyString => false | _ => true end.

End Py.

Definition NL : string := String Py.LF EmptyString.
Definition FENCE : string := "```".

(** ** Exceptions, results and generators *)

(** A Python exception: its class name and its [str()], with FastAPI's
    [HTTPException] kept apart because the transport catches it as any other
    exception and renders it with [str()]. *)
Inductive exn : Type :=
| PyError (cls : string) (msg : string)
| HTTPException (status_code : nat) (detail : string).

(** [str(e)]; an [HTTPException] prints as its status code, a colon and its
    detail. *)
Definition str_exn (e : exn) : string :=
  match e with
  | PyError _ msg => msg
  | HTTPException status_code detail => pretty status_code +:+ ": " +:+ detail
  end.

(** The outcome of a call that may raise. *)
Inductive result (A : Type) : Type :=
| Ok (a : A)
| Raise (e : exn).
Arguments Ok {A} a.
Arguments Raise {A} e.

(** A (finite) run of a Python generator: the values it yields, in order,
    closed by a normal return or by an exception.  The consumer decides how
    far the run is taken. *)
Inductive gen (A : Type) : Type :=
| Return
| Throw (e : exn)
| Yield (a : A) (k : gen A).
Arguments Return {A}.
Arguments Throw {A} e.
Arguments Yield {A} a k.

(** [try: body  except Exception as e: handler(e)] around a generator body. *)
Fixpoint try_except {A : Type} (body : gen A) (handler : exn -> gen A) : gen A :=
  match body with
  | Return => Return
  | Throw e => handler e
  | Yield a k => Yield a (try_except k handler)
  end.

(** Everything a consumer that never stops early receives. *)
Fixpoint yielded {A : Type} (g : gen A) : list A :=
  match g with
  | Return | Throw _ => []
  | Yield a k => a :: yielded k
  end.

(** How the run ends: [None] for a normal return. *)
Fixpoint raised {A : Type} (g : gen A) : option exn :=
  match g with
  | Return => None
  | Throw e => Some e
  | Yield _ k => raised k
  end.

(** ** atlas_service.py *)

(** The event dictionaries [{event: ..., data: {...}}]; [data] keeps the
    keys in insertion order. *)
Record Event : Type := mkEvent { event : string; data : list (string * string) }.

Definition section_change (section content : string) : Event :=
  mkEvent "section_change" [("section", section); ("content", content)].
Definition message (content section : string) : Event :=
  mkEvent "message" [("content", content); ("section", section)].
Definition complete : Event :=
  mkEvent "complete" [("message", "Macro generation complete")].
Definition error (e : string) : Event :=
  mkEvent "error" [("error", e)].

(** The streaming completion backend.  [client.messages.stream(...)] either
    fails to open or gives a stream of events, of which only the
    content-block deltas carry text; the stream itself may raise at any
    point.  The two system prompts are opaque constants. *)
Inductive SystemPrompt : Type := PROMPT_IMPROVEMENT_SYSTEM | MACRO_GENERATION_PROMPT.

Inductive BackendEvent : Type :=
| ContentBlockDeltaEvent (text : string)
| OtherEvent.

Definition Client : Type := SystemPrompt -> string -> result (gen BackendEvent).

(** [PROMPT_IMPROVEMENT_USER.format(user_input=user_input)] *)
Definition PROMPT_IMPROVEMENT_USER (user_input : string) : string :=
  NL +:+ "Please improve the following prompt for ImageJ macro generation:" +:+ NL +:+ NL
  +:+ user_input +:+ NL +:+ NL
  +:+ "Enhance the prompt by making it more detailed and specific, focusing on the points mentioned in the system instructions. Ensure it outlines a clear, logical sequence of processing steps, efficiently handling multi-channel z-stack images, and adheres to headless compatibility guidelines. Do not alter the desired outcomes or processing steps." +:+ NL +:+ NL
  +:+ "Include considerations for:" +:+ NL +:+ NL
  +:+ "- Preserving intensity data by avoiding unnecessary conversions." +:+ NL
  +:+ "- The critical order of operations, especially regarding thresholding and particle analysis." +:+ NL
  +:+ "- When and why to duplicate images during processing." +:+ NL
  +:+ "- Proper memory management and logging practices." +:+ NL
  +:+ "- Descriptive naming conventions for files." +:+ NL +:+ NL
  +:+ "Return only the improved prompt without additional explanations." +:+ NL.

(** [stream.text_stream]: the text of each delta. *)
Fixpoint text_stream (stream : gen BackendEvent) : gen string :=
  match stream with
  | Return => Return
  | Throw e => Throw e
  | Yield (ContentBlockDeltaEvent text) k => Yield text (text_stream k)
  | Yield OtherEvent k => text_stream k
  end.

(** [generate_improved_prompt(user_input)] *)
Definition generate_improved_prompt (client : Client) (user_input : string) : gen string :=
  try_except
    (match client PROMPT_IMPROVEMENT_SYSTEM (PROMPT_IMPROVEMENT_USER user_input) with
     | Raise e => Throw e
     | Ok stream => text_stream stream
     end)
    (fun _ => Throw (HTTPException 500 "Failed to generate improved prompt")).

(** [handle_section_transition(content, current_section)] *)
Definition handle_section_transition (content current_section : string) : bool :=
  if Py.contains "[DESCRIPTION]" content then true
  else if Py.contains "```" content && String.eqb current_section "description" then true
  else if Py.contains "[EXPLANATION]" content then true
  else false.

(** [sections.index(current_section)]: raises [ValueError] when absent. *)
Fixpoint index_of (x : string) (l : list string) : option nat :=
  match l with
  | [] => None
  | y :: rest => if String.eqb y x then Some 0 else option_map S (index_of x rest)
  end.

(** [get_next_section(current_section)] *)
Definition get_next_section (current_section : string) : result string :=
  let sections := ["description"; "macro_script"; "explanation"] in
  match index_of current_section sections with
  | None => Raise (PyError "ValueError" (current_section +:+ " is not in list"))
  | Some current_index =>
      Ok (nth ((current_index + 1) mod length sections) sections EmptyString)
  end.

(** [clean_section_content(section, content)] *)
Definition clean_section_content (section content : string) : string :=
  let content :=
    Py.strip (Py.replace "[EXPLANATION]" "" (Py.replace "[DESCRIPTION]" "" content)) in
  if String.eqb section "macro_script" then
    let content := Py.replace "```" "" (Py.replace "```javascript" "" content) in
    let lines := Py.split Py.LF content in
    let cleaned_lines := List.filter (fun line => Py.truthy (Py.strip line)) lines in
    let cleaned_lines :=
      match cleaned_lines with
      | first :: _ =>
          if negb (Py.startswith "//" (Py.strip first))
          then "// Generated ImageJ Macro" :: cleaned_lines
          else cleaned_lines
      | [] => cleaned_lines
      end in
    Py.join NL cleaned_lines
  else Py.strip content.

(** [process_section_change(current_section, content)] *)
Definition process_section_change (current_section content : string) : list Event :=
  let cleaned_content := clean_section_content current_section content in
  [section_change current_section (Py.strip cleaned_content)].

(** [for x in xs: yield x], then [k]. *)
Fixpoint yield_from {A : Type} (xs : list A) (k : gen A) : gen A :=
  match xs with
  | [] => k
  | x :: rest => Yield x (yield_from rest k)
  end.

(** The body of [async for event in stream: ...] in
    [generate_macro_from_prompt], followed by the statements after the loop;
    the two local variables are the loop state. *)
Fixpoint consume_stream (stream : gen BackendEvent)
    (current_section section_content : string) : gen Event :=
  match stream with
  | Return =>
      let tail := Yield complete Return in
      if Py.truthy section_content
      then Yield (section_change current_section
                    (clean_section_content current_section (Py.strip section_content)))
                 tail
      else tail
  | Throw e => Throw e
  | Yield OtherEvent rest => consume_stream rest current_section section_content
  | Yield (ContentBlockDeltaEvent content_chunk) rest =>
      let section_content := section_content +:+ content_chunk in
      if handle_section_transition content_chunk current_section then
        yield_from (process_section_change current_section section_content)
          match get_next_section current_section with
          | Raise e => Throw e
          | Ok current_section => consume_stream rest current_section EmptyString
          end
      else
        Yield (message content_chunk current_section)
              (consume_stream rest current_section section_content)
  end.

(** The [user_prompt] of [generate_macro_from_prompt]. *)
Definition macro_user_prompt (prompt : string) : string :=
  "Generate an ImageJ macro script that accomplishes this task:" +:+ NL +:+ NL
  +:+ prompt +:+ NL +:+ NL
  +:+ "Ensure all sections (description, macro script, and explanation) "
  +:+ "are properly formatted.".

(** The [except Exception as e] clause of [generate_macro_from_prompt]. *)
Definition macro_except (e : exn) : gen Event :=
  Yield (error (str_exn e))
        (Throw (HTTPException 500 "Failed to generate macro script")).

(** [generate_macro_from_prompt(prompt)] *)
Definition generate_macro_from_prompt (client : Client) (prompt : string) : gen Event :=
  let user_prompt := macro_user_prompt prompt in
  try_except
    (let current_section := "description" in
     let section_content := EmptyString in
     match client MACRO_GENERATION_PROMPT user_prompt with
     | Raise e => Throw e
     | Ok stream =>
         Yield (section_change current_section section_content)
               (consume_stream stream current_section section_content)
     end)
    macro_except.

(** ** chat_routes.py *)

(** [format_event(event_type, data)]: the JSON envelope, kept structured. *)
Definition format_event (event_type : string) (data : list (string * string)) : Event :=
  mkEvent event_type data.

(** The request as the transport sees it: the answer of the k-th call of
    [request.is_disconnected()]. *)
Record Request : Type := { is_disconnected : nat -> bool }.

(** The first loop of [macro_stream]: forwards the improved-prompt chunks
    and remembers the last one in [improved_chunk]. *)
Fixpoint forward_improved (chunks : gen string) (improved_chunk : option string)
    (k : option string -> gen Event) : gen Event :=
  match chunks with
  | Return => k improved_chunk
  | Throw e => Throw e
  | Yield chunk rest =>
      Yield (format_event "improved_prompt_chunk" [("chunk", chunk)])
            (forward_improved rest (Some chunk) k)
  end.

(** The second loop of [macro_stream]: [checks] is the number of
    disconnection checks made so far. *)
Fixpoint forward_macro (request : Request) (checks : nat) (events : gen Event) : gen Event :=
  match events with
  | Return => Return
  | Throw e => Throw e
  | Yield ev rest =>
      if is_disconnected request checks then Return
      else Yield (format_event (event ev) (data ev)) (forward_macro request (S checks) rest)
  end.

(** [macro_stream(request, input, improve_prompt)] *)
Definition macro_stream (client : Client) (request : Request)
    (input : string) (improve_prompt : bool) : gen Event :=
  try_except
    (let generate prompt := forward_macro request 0 (generate_macro_from_prompt client prompt) in
     if improve_prompt then
       forward_improved (generate_improved_prompt client input) None
         (fun improved_chunk =>
            Yield (format_event "improved_prompt_complete"
                     [("message", "Prompt improvement complete")])
              match improved_chunk with
              | None =>
                  Throw (PyError "UnboundLocalError"
                           "cannot access local variable 'improved_chunk' where it is not associated with a value")
              | Some prompt => generate prompt
              end)
     else generate input)
    (fun e => Yield (format_event "error" [("error", str_exn e)]) Return).

(** ** Paths and the disk *)

(** [pathlib] and [os.path] on POSIX.  A [Path] object is kept as its
    string, [str(path)], which is the normal form computed by [Path.make]. *)
Module Path.

Definition SEP : string := "/".

(** The components of a path: empty components and single dots are dropped. *)
Definition parts (s : string) : list string :=
  List.filter (fun p => negb (String.eqb p EmptyString) && negb (String.eqb p "."))
    (Py.split Py.SLASH s).

(** The root: exactly two leading slashes are kept, any other number of
    leading slashes is one slash. *)
Definition root (s : string) : string :=
  if Py.startswith "//" s && negb (Py.startswith "///" s) then "//"
  else if Py.startswith "/" s then "/"
  else EmptyString.

(** [str(Path(root, *parts))] *)
Definition of_parts (r : string) (ps : list string) : string :=
  match r, ps with
  | EmptyString, [] => "."
  | _, _ => r +:+ Py.join SEP ps
  end.

(** [str(Path(s))] *)
Definition make (s : string) : string := of_parts (root s) (parts s).

(** [Path(base) / name] *)
Definition joinpath (base name : string) : string :=
  if Py.startswith "/" name then make name
  else of_parts (root base) (parts base ++ parts name).

(** [path.parent] *)
Definition parent (p : string) : string :=
  of_parts (root p) (removelast (parts p)).

(** [path.name] *)
Definition name (p : string) : string := List.last (parts p) EmptyString.

(** [l] without its prefix [pre], when [pre] is a prefix of [l]. *)
Fixpoint strip_prefix (pre l : list string) : option (list string) :=
  match pre, l with
  | [], _ => Some l
  | x :: pre', y :: l' => if String.eqb x y then strip_prefix pre' l' else None
  | _ :: _, [] => None
  end.

(** The components of [p] below [base], when [p] is [base] or lies under it. *)
Definition below (base p : string) : option (list string) :=
  if String.eqb (root p) (root base) then strip_prefix (parts base) (parts p)
  else None.

End Path.

(** [os.path.join(a, b)] *)
Definition os_path_join (a b : string) : string :=
  if Py.startswith "/" b then b
  else if negb (Py.truthy a) || Py.endswith "/" a then a +:+ b
  else a +:+ "/" +:+ b.

(** The loop of [os.path.normpath] over the components. *)
Fixpoint normpath_comps (initial_slashes : bool) (comps new_comps : list string)
  : list string :=
  match comps with
  | [] => new_comps
  | comp :: rest =>
      if String.eqb comp EmptyString || String.eqb comp "." then
        normpath_comps initial_slashes rest new_comps
      else if negb (String.eqb comp "..")
              || (negb initial_slashes && match new_comps with [] => true | _ => false end)
              || match last new_comps with
                 | Some l => String.eqb l ".."
                 | None => false
                 end
      then normpath_comps initial_slashes rest (new_comps ++ [comp])
      else normpath_comps initial_slashes rest (removelast new_comps)
  end.

(** [os.path.normpath(path)] *)
Definition os_path_normpath (path : string) : string :=
  if negb (Py.truthy path) then "."
  else
    let initial_slashes :=
      if Py.startswith "//" path && negb (Py.startswith "///" path) then "//"
      else if Py.startswith "/" path then "/"
      else EmptyString in
    let comps :=
      normpath_comps (Py.truthy initial_slashes) (Py.split Py.SLASH path) [] in
    let path := initial_slashes +:+ Py.join "/" comps in
    if Py.truthy path then path else ".".

Fixpoint all_dots (s : string) : bool :=
  match s with
  | EmptyString => true
  | String c s' => Ascii.eqb c "."%char && all_dots s'
  end.

(** [os.path.splitext(p)[0]]: [p] up to the last dot, when that dot lies in
    the last component and a character other than a dot comes before it
    there. *)
Definition os_path_splitext_0 (p : string) : string :=
  match Py.rfind "."%char p with
  | None => p
  | Some dotIndex =>
      let filenameIndex :=
        match Py.rfind Py.SLASH p with Some sepIndex => S sepIndex | None => 0 end in
      if Nat.leb filenameIndex dotIndex
         && negb (all_dots (Py.take (dotIndex - filenameIndex) (Py.drop filenameIndex p)))
      then Py.take dotIndex p
      else p
  end.

(** What is stored at a path: a directory (with the size its [stat]
    reports), a regular file with its content, or a ZIP archive with the
    names of its members in the order they were written. *)
Inductive node : Type :=
| Dir (st_size : nat)
| File (content : string)
| ZipArchive (members : list string).

(** The disk: the nodes by canonical path; the canonical form of every
    path string (what the kernel's lookup computes: symbolic links followed,
    the result absolute; the links form no loop); and, for a path string at
    which nothing is found, the error other than "no such file" that the
    kernel gives for it, if it gives one: a name too long, a directory on
    the way that may not be searched. *)
Record FileSystem : Type := {
  nodes : gmap string node;
  realpath : string -> string;
  stat_error : string -> option exn
}.

Definition fs_lookup (fs : FileSystem) (path : string) : option node :=
  nodes fs !! realpath fs path.

Definition fs_update (fs : FileSystem) (path : string) (n : node) : FileSystem :=
  {| nodes := <[realpath fs path := n]> (nodes fs); realpath := realpath fs;
     stat_error := stat_error fs |}.

(** What a call that needs something at the path raises when nothing is
    found there. *)
Definition not_found (fs : FileSystem) (path : string) : exn :=
  match stat_error fs path with
  | Some e => e
  | None => PyError "FileNotFoundError" ("No such file or directory: " +:+ path)
  end.

(** [os.path.exists(path)]: false whatever the reason nothing is found. *)
Definition path_exists (fs : FileSystem) (path : string) : bool :=
  match fs_lookup fs path with Some _ => true | None => false end.

(** [os.path.isfile(path)], and [path.is_file()] where it does not raise. *)
Definition is_file (fs : FileSystem) (path : string) : bool :=
  match fs_lookup fs path with
  | Some (File _) | Some (ZipArchive _) => true
  | _ => false
  end.

Definition is_dir (fs : FileSystem) (path : string) : bool :=
  match fs_lookup fs path with Some (Dir _) => true | _ => false end.

(** [path.exists()] of [pathlib]: an error of [stat] other than "no such
    file" is raised again. *)
Definition pathlib_exists (fs : FileSystem) (path : string) : result bool :=
  match fs_lookup fs path with
  | Some _ => Ok true
  | None =>
      match stat_error fs path with
      | Some e => Raise e
      | None => Ok false
      end
  end.

(** [path.is_file()] of [pathlib], which raises in the same way. *)
Definition pathlib_is_file (fs : FileSystem) (path : string) : result bool :=
  match fs_lookup fs path with
  | Some _ => Ok (is_file fs path)
  | None =>
      match stat_error fs path with
      | Some e => Raise e
      | None => Ok false
      end
  end.

(** The size of an archive on disk is not modelled beyond being positive:
    the end-of-central-directory record alone is 22 bytes. *)
Definition node_size (n : node) : nat :=
  match n with
  | Dir st_size => st_size
  | File content => String.length content
  | ZipArchive members => 22 + length members
  end.

(** [path.stat().st_size], [os.path.getsize(path)] *)
Definition st_size (fs : FileSystem) (path : string) : result nat :=
  match fs_lookup fs path with
  | Some n => Ok (node_size n)
  | None => Raise (not_found fs path)
  end.

(** [Path.resolve()] of a path string without a null character. *)
Definition resolve (fs : FileSystem) (path : string) : string :=
  Path.make (realpath fs path).

(** Opening a file for writing ([open(path, 'wb')], [ZipFile(path, 'w')]):
    the directory must exist and the path must not be a directory; a path
    the kernel gives an error for cannot be created. *)
Definition open_for_writing (fs : FileSystem) (path : string) (n : node) : result FileSystem :=
  if is_dir fs path then
    Raise (PyError "IsADirectoryError" ("Is a directory: " +:+ path))
  else if negb (is_dir fs (Path.parent path)) then
    Raise (PyError "FileNotFoundError" ("No such file or directory: " +:+ path))
  else
    match fs_lookup fs path, stat_error fs path with
    | None, Some e => Raise e
    | _, _ => Ok (fs_update fs path n)
    end.

(** Reading a text file, with universal newlines. *)
Fixpoint universal_newlines (s : string) : string :=
  match s with
  | EmptyString => EmptyString
  | String c s' =>
      if Ascii.eqb c "013"%char then
        match s' with
        | String d s'' =>
            if Ascii.eqb d Py.LF then universal_newlines s'
            else String Py.LF (universal_newlines s')
        | EmptyString => String Py.LF EmptyString
        end
      else String c (universal_newlines s')
  end.

Definition read_text (fs : FileSystem) (path : string) : result string :=
  match fs_lookup fs path with
  | Some (File content) => Ok (universal_newlines content)
  | Some (Dir _) => Raise (PyError "IsADirectoryError" ("Is a directory: " +:+ path))
  | Some (ZipArchive _) =>
      Raise (PyError "UnicodeDecodeError" "invalid start byte")
  | None => Raise (not_found fs path)
  end.

(** The lines a file iterator gives: each with its line feed, the last one
    possibly without. *)
Fixpoint keepends (parts : list string) : list string :=
  match parts with
  | [] => []
  | [last] => if Py.truthy last then [last] else []
  | p :: rest => (p +:+ NL) :: keepends rest
  end.

Definition file_lines (text : string) : list string := keepends (Py.split Py.LF text).

(** ** file_service.py *)

(** A double quote, for the texts that contain one. *)
Definition DQ : string := String "034"%char EmptyString.

(** [Path(file_path).relative_to(base)] *)
Definition relative_to (path base : string) : result string :=
  match Path.below base path with
  | Some rel => Ok (Path.of_parts EmptyString rel)
  | None =>
      Raise (PyError "ValueError" (path +:+ " is not in the subpath of " +:+ base))
  end.

(** [temp_path.rglob(stem + "*")]: every path below [temp_path], at any
    depth, whose last component begins with [stem], named as [temp_path]
    followed by its components below it.  The stem comes from
    [secure_filename], so the star is the only wildcard of the pattern.
    Every directory of the tree can be listed; and a [temp_path] that cannot
    be examined has stopped the collector before the scan, at the log file,
    which lies under it. *)
Definition rglob (fs : FileSystem) (temp_path stem : string) : list string :=
  if is_dir fs temp_path then
    omap (fun key =>
            match Path.below (resolve fs temp_path) key with
            | Some (c :: rel) =>
                if Py.startswith stem (List.last (c :: rel) EmptyString)
                then Some (Path.joinpath temp_path (Py.join Path.SEP (c :: rel)))
                else None
            | _ => None
            end)
         (map fst (map_to_list (nodes fs)))
  else [].

(** A null character, which no call of the kernel takes in a path. *)
Definition NUL : string := String "000"%char EmptyString.

(** What [Path.resolve()] raises for a path with a null character. *)
Definition EmbeddedNull : exn := PyError "ValueError" "embedded null byte".

(** The body of [async for line in f] in [parse_saved_files]. *)
Fixpoint collect_declared (fs : FileSystem) (lines : list string) (files : gset string)
  : result (gset string) :=
  match lines with
  | [] => Ok files
  | line :: rest =>
      if Py.startswith "OUTPUT_FILE:" line then
        let declared :=
          Path.make (Py.replace "//" "/"
                       (Py.strip (Py.drop (String.length "OUTPUT_FILE:") line))) in
        if Py.contains NUL declared then Raise EmbeddedNull
        else
          let file_path := resolve fs declared in
          match pathlib_exists fs file_path with
          | Raise e => Raise e
          | Ok true =>
              match st_size fs file_path with
              | Raise e => Raise e
              | Ok size =>
                  if Nat.ltb 0 size then collect_declared fs rest ({[file_path]} ∪ files)
                  else collect_declared fs rest files
              end
          | Ok false => collect_declared fs rest files
          end
      else collect_declared fs rest files
  end.

(** The body of [for path in temp_path.rglob(...)] in [parse_saved_files]. *)
Fixpoint collect_scanned (fs : FileSystem) (paths : list string) (files : gset string)
  : result (gset string) :=
  match paths with
  | [] => Ok files
  | path :: rest =>
      match pathlib_is_file fs path with
      | Raise e => Raise e
      | Ok true =>
          match st_size fs path with
          | Raise e => Raise e
          | Ok size =>
              if Nat.ltb 0 size then collect_scanned fs rest ({[path]} ∪ files)
              else collect_scanned fs rest files
          end
      | Ok false => collect_scanned fs rest files
      end
  end.

(** [parse_saved_files(output, temp_dir, original_filename)]; the order of
    [list(files)] is the one of the set. *)
Definition parse_saved_files (output temp_dir original_filename : string)
    (fs : FileSystem) : result (list string) :=
  let files : gset string := ∅ in
  let temp_path := Path.make temp_dir in
  let log_file := Path.joinpath temp_path "output_log.txt" in
  match
    (match pathlib_exists fs log_file with
     | Raise e => Raise e
     | Ok true =>
         match read_text fs log_file with
         | Raise e => Raise e
         | Ok text => collect_declared fs (file_lines text) files
         end
     | Ok false => Ok files
     end)
  with
  | Raise e => Raise e
  | Ok files =>
      match collect_scanned fs (rglob fs temp_path original_filename) files with
      | Raise e => Raise e
      | Ok files => Ok (elements files)
      end
  end.

(** The name [zipf.write(path, arcname)] stores the member under
    ([ZipInfo.from_file]): the normal form of [arcname], which is relative
    here, with a trailing slash for a directory. *)
Definition zip_member (arcname : string) (isdir : bool) : string :=
  let arcname := os_path_normpath arcname in
  let arcname := Py.lstrip_by (Ascii.eqb Py.SLASH) arcname in
  if isdir then arcname +:+ "/" else arcname.

(** The loop of [_create_zip]: the member names written so far, and the
    exception that stopped the loop, if any.  A name already in the archive
    is written again. *)
Fixpoint zip_write_all (fs : FileSystem) (zip_parent : string) (paths : list string)
    (seen_files : gset string) (members : list string) : list string * option exn :=
  match paths with
  | [] => (members, None)
  | file_path :: rest =>
      let path := Path.make file_path in
      match pathlib_exists fs path with
      | Raise e => (members, Some e)
      | Ok false => zip_write_all fs zip_parent rest seen_files members
      | Ok true =>
          if bool_decide (path ∈ seen_files) then
            zip_write_all fs zip_parent rest seen_files members
          else
            match relative_to path zip_parent with
            | Raise e => (members, Some e)
            | Ok arcname =>
                let member := zip_member arcname (is_dir fs path) in
                zip_write_all fs zip_parent rest ({[path]} ∪ seen_files)
                  (members ++ [member])
            end
      end
  end.

(** [_create_zip(paths, zip_path)]: the archive is on disk as soon as it is
    opened and keeps what was written when the loop raises.  The function
    runs in a pool thread; [others] is what other tasks and processes have
    done to the disk by the time the archive is closed and looked for. *)
Definition _create_zip (others : FileSystem -> FileSystem)
    (paths : list string) (zip_path : string) (fs : FileSystem)
  : result (option string) * FileSystem :=
  match open_for_writing fs zip_path (ZipArchive []) with
  | Raise e => (Raise e, fs)
  | Ok fs =>
      let '(members, failure) :=
        zip_write_all fs (Path.parent zip_path) paths ∅ [] in
      let fs := others (fs_update fs zip_path (ZipArchive members)) in
      match failure with
      | Some e => (Raise e, fs)
      | None =>
          match pathlib_exists fs zip_path with
          | Raise e => (Raise e, fs)
          | Ok true => (Ok (Some zip_path), fs)
          | Ok false => (Ok None, fs)
          end
      end
  end.

(** [create_zip_file(file_paths, zip_filename)] *)
Definition create_zip_file (others : FileSystem -> FileSystem)
    (file_paths : list string) (zip_filename : string)
    (fs : FileSystem) : option string * FileSystem :=
  match file_paths with
  | [] => (None, fs)
  | _ =>
      let zip_path := Path.make zip_filename in
      match _create_zip others file_paths zip_path fs with
      | (Ok r, fs) => (r, fs)
      | (Raise _, fs) => (None, fs)
      end
  end.

(** ** imagej_service.py *)

(** The state the batch runs in: the disk, the log window of the engine,
    the background tasks scheduled so far (the paths handed to
    [cleanup_temp_files]), the number of temporary directories made, and
    what the other tasks and processes do to the disk while the archive is
    written in the thread pool. *)
Record World : Type := {
  disk : FileSystem;
  ij_log : string;
  background_tasks : list string;
  temp_dirs_made : nat;
  others : FileSystem -> FileSystem
}.

Definition with_disk (w : World) (fs : FileSystem) : World :=
  {| disk := fs; ij_log := ij_log w;
     background_tasks := background_tasks w; temp_dirs_made := temp_dirs_made w;
     others := others w |}.

(** A computation that reads and writes the world and may raise. *)
Definition M (A : Type) : Type := World -> result A * World.

Definition ret {A : Type} (a : A) : M A := fun w => (Ok a, w).
Definition raise {A : Type} (e : exn) : M A := fun w => (Raise e, w).
Definition bind {A B : Type} (m : M A) (k : A -> M B) : M B :=
  fun w => match m w with
           | (Ok a, w') => k a w'
           | (Raise e, w') => (Raise e, w')
           end.
(** [try: body  except Exception as e: handler(e)] *)
Definition try_catch {A : Type} (body : M A) (handler : exn -> M A) : M A :=
  fun w => match body w with
           | (Ok a, w') => (Ok a, w')
           | (Raise e, w') => handler e w'
           end.
(** [try: body  finally: cleanup] *)
Definition try_finally {A : Type} (body : M A) (cleanup : M unit) : M A :=
  fun w => match body w with
           | (r, w') =>
               match cleanup w' with
               | (Ok _, w'') => (r, w'')
               | (Raise e, w'') => (Raise e, w'')
               end
           end.

Notation "x <- m ;; k" := (bind m (fun x => k))
  (at level 100, m at next level, right associativity).

(** Lifting a read of the disk and a write to the disk. *)
Definition on_disk {A : Type} (f : FileSystem -> result A) : M A :=
  fun w => (f (disk w), w).
Definition update_disk (f : FileSystem -> result FileSystem) : M unit :=
  fun w => match f (disk w) with
           | Ok fs => (Ok tt, with_disk w fs)
           | Raise e => (Raise e, w)
           end.

(** An uploaded file: its client-side name and its content. *)
Record UploadFile : Type := { filename : string; body : string }.

(** The service object: the configured path of the macro template, the
    engine handle [IJ] and werkzeug's [secure_filename].  The engine is
    opaque: running a script does what it wants to the disk and to its own
    log window, and returns a text or raises. *)
Record ImageJService : Type := {
  macro_template : string;
  IJ : string -> FileSystem -> string -> result string * (FileSystem * string);
  secure_filename : string -> string
}.

(** [self.IJ.runMacro(full_macro)] *)
Definition runMacro (self : ImageJService) (full_macro : string) : M string :=
  fun w =>
    let '(r, (fs, log)) := IJ self full_macro (disk w) (ij_log w) in
    (r, {| disk := fs; ij_log := log;
           background_tasks := background_tasks w;
           temp_dirs_made := temp_dirs_made w;
           others := others w |}).

(** [self.IJ.getLog()] *)
Definition getLog : M string := fun w => (Ok (ij_log w), w).

(** The size [stat] reports for a directory just made. *)
Definition NEW_DIR_SIZE : nat := 4096.

(** [tempfile.mkdtemp()]; the library picks a random name that is not in
    use, here the next name of a sequence. *)
Definition mkdtemp : M string :=
  fun w =>
    let temp_dir := "/tmp/tmp" +:+ pretty (temp_dirs_made w) in
    (Ok temp_dir,
     {| disk := fs_update (disk w) temp_dir (Dir NEW_DIR_SIZE);
        ij_log := ij_log w;
        background_tasks := background_tasks w;
        temp_dirs_made := S (temp_dirs_made w);
        others := others w |}).

(** [os.makedirs(path, exist_ok=True)] for a path whose parent exists. *)
Definition makedirs (path : string) : M unit :=
  update_disk (fun fs =>
    match fs_lookup fs path with
    | Some (Dir _) => Ok fs
    | Some _ => Raise (PyError "FileExistsError" ("File exists: " +:+ path))
    | None =>
        if is_dir fs (Path.parent (Path.make path))
        then match stat_error fs path with
             | Some e => Raise e
             | None => Ok (fs_update fs path (Dir NEW_DIR_SIZE))
             end
        else Raise (PyError "FileNotFoundError" ("No such file or directory: " +:+ path))
    end).

(** [background_tasks.add_task(self.file_service.cleanup_temp_files, temp_dir)] *)
Definition add_cleanup_task (temp_dir : string) : M unit :=
  fun w =>
    (Ok tt,
     {| disk := disk w; ij_log := ij_log w;
        background_tasks := background_tasks w ++ [temp_dir];
        temp_dirs_made := temp_dirs_made w;
        others := others w |}).

(** [_save_upload_file(file, destination)]: logs and re-raises. *)
Definition _save_upload_file (file : UploadFile) (destination : string) : M unit :=
  try_catch
    (update_disk (fun fs => open_for_writing fs (Path.make destination) (File (body file))))
    (fun e => raise e).

(** [macro_params.get(key, default)], rendered as the f-string renders it. *)
Definition param (macro_params : gmap string string) (key default : string) : string :=
  match macro_params !! key with Some v => v | None => default end.

(** [_prepare_macro_script(...)] *)
Definition _prepare_macro_script (self : ImageJService)
    (image_path temp_dir original_filename user_macro : string)
    (macro_params : gmap string string) : M string :=
  let indent := "        " in
  let var_definitions :=
    NL
    +:+ indent +:+ "var inputPath = " +:+ DQ +:+ image_path +:+ DQ +:+ ";" +:+ NL
    +:+ indent +:+ "var outputDir = " +:+ DQ +:+ temp_dir +:+ "/" +:+ DQ +:+ ";" +:+ NL
    +:+ indent +:+ "var originalFileName = " +:+ DQ +:+ original_filename +:+ DQ +:+ ";" +:+ NL
    +:+ indent +:+ "var minSize = " +:+ param macro_params "minSize" "10" +:+ ";" +:+ NL
    +:+ indent +:+ "var maxSize = " +:+ DQ +:+ param macro_params "maxSize" "Infinity" +:+ DQ +:+ ";" +:+ NL
    +:+ indent +:+ "var minCircularity = " +:+ param macro_params "minCircularity" "0.0" +:+ ";" +:+ NL
    +:+ indent +:+ "var maxCircularity = " +:+ param macro_params "maxCircularity" "1.0" +:+ ";" +:+ NL
    +:+ indent in
  macro_template_text <- on_disk (fun fs => read_text fs (macro_template self)) ;;
  let full_macro :=
    var_definitions +:+ Py.replace "{user_macro}" user_macro macro_template_text in
  ret full_macro.

(** The statements of the [try] block inside the loop of
    [execute_image_macro]: prepare the script, run it, collect the files. *)
Definition run_job (self : ImageJService)
    (image_path temp_dir original_filename macro_script : string)
    (macro_params : gmap string string) : M (list string) :=
  full_macro <- _prepare_macro_script self image_path temp_dir
                  original_filename macro_script macro_params ;;
  direct <- runMacro self full_macro ;;
  output <- (if Py.truthy direct then ret direct
             else log <- getLog ;;
                  ret (if Py.truthy log then log else EmptyString)) ;;
  on_disk (parse_saved_files output temp_dir original_filename).

(** The body of [for file in files] in [execute_image_macro], with the two
    lists it extends. *)
Fixpoint process_files (self : ImageJService) (temp_dir macro_script : string)
    (macro_params : gmap string string) (files : list UploadFile)
    (error_logs output_files : list string) : M (list string * list string) :=
  match files with
  | [] => ret (error_logs, output_files)
  | file :: rest =>
      let image_filename := secure_filename self (filename file) in
      let original_filename := os_path_splitext_0 image_filename in
      let image_path := os_path_join temp_dir image_filename in
      _ <- _save_upload_file file image_path ;;
      lists <-
        try_catch
          (saved_files <- run_job self image_path temp_dir original_filename
                            macro_script macro_params ;;
           ret (error_logs, output_files ++ saved_files))
          (fun e =>
             let error_message :=
               "Error processing " +:+ image_filename +:+ ": " +:+ str_exn e in
             ret (error_logs ++ [error_message], output_files)) ;;
      let '(error_logs, output_files) := lists in
      process_files self temp_dir macro_script macro_params rest error_logs output_files
  end.

Fixpoint for_each {A : Type} (xs : list A) (f : A -> M unit) : M unit :=
  match xs with
  | [] => ret tt
  | x :: rest => _ <- f x ;; for_each rest f
  end.

(** What follows the loop in [execute_image_macro]. *)
Definition build_archive (temp_dir : string) (error_logs output_files : list string)
  : M (string * list string) :=
  match output_files with
  | _ :: _ =>
      let zip_filename := os_path_join temp_dir "results.zip" in
      zip_path <- (fun w =>
                     let '(r, fs) :=
                       create_zip_file (others w) output_files zip_filename (disk w) in
                     (Ok r, with_disk w fs)) ;;
      present <- on_disk (fun fs =>
                   Ok (match zip_path with
                       | Some p => Py.truthy p && path_exists fs p
                       | None => false
                       end)) ;;
      match zip_path, present with
      | Some p, true => ret (p, error_logs)
      | _, _ => raise (HTTPException 500 "Failed to create zip file.")
      end
  | [] => raise (HTTPException 500 "No output files were generated.")
  end.

(** [execute_image_macro(files, macro_script, macro_params, background_tasks)];
    the service holds its file service from the moment the module is loaded,
    so the check that opens the function never raises. *)
Definition execute_image_macro (self : ImageJService) (files : list UploadFile)
    (macro_script : string) (macro_params : gmap string string)
  : M (string * list string) :=
  let error_logs := [] in
  let output_files := [] in
  temp_dir <- mkdtemp ;;
  try_finally
    (let subdirs := ["Images"; "Statistics"; "Metadata"] in
     _ <- for_each subdirs (fun subdir => makedirs (os_path_join temp_dir subdir)) ;;
     lists <- process_files self temp_dir macro_script macro_params files
                error_logs output_files ;;
     let '(error_logs, output_files) := lists in
     build_archive temp_dir error_logs output_files)
    (add_cleanup_task temp_dir).

(** ** image_service.py *)

(** The disk as the waiting task sees it: other processes write to it while
    the task sleeps, so the disk is given at every instant of the event
    loop's clock.  Instants are in milliseconds; [asyncio.sleep] is the only
    thing that takes time. *)
Definition Timeline : Type := Z -> FileSystem.

Definition TimeoutError (timeout : Z) (file_path : string) : exn :=
  PyError "TimeoutError"
    ("File not created within " +:+ pretty timeout +:+ " seconds: " +:+ file_path).

Definition EmptyFileError (file_path : string) : exn :=
  PyError "ValueError" ("File created but empty: " +:+ file_path).

(** The loop [while not os.path.exists(file_path)] of [_wait_for_file];
    [fuel] bounds the number of polls, [None] is a loop cut short by it.
    [timeout] is in seconds, [check_interval] in milliseconds. *)
Fixpoint await_exists (fuel : nat) (disk_at : Timeline) (file_path : string)
    (timeout check_interval start_time now : Z) : option (result unit * Z) :=
  match fuel with
  | O => None
  | S fuel =>
      if negb (path_exists (disk_at now) file_path) then
        if (timeout * 1000 <? now - start_time)%Z
        then Some (Raise (TimeoutError timeout file_path), now)
        else await_exists fuel disk_at file_path timeout check_interval
               start_time (now + check_interval)%Z
      else Some (Ok tt, now)
  end.

(** The loop [for _ in range(10)] of [_wait_for_file] and the test after it. *)
Fixpoint check_size_stability (rounds : nat) (disk_at : Timeline) (file_path : string)
    (file_size : nat) (now : Z) : result unit * Z :=
  match rounds with
  | O =>
      if Nat.eqb file_size 0 then (Raise (EmptyFileError file_path), now)
      else (Ok tt, now)
  | S rounds =>
      match st_size (disk_at now) file_path with
      | Raise e => (Raise e, now)
      | Ok current_size =>
          if Nat.ltb 0 current_size && Nat.eqb current_size file_size
          then (Ok tt, now)
          else check_size_stability rounds disk_at file_path current_size (now + 1000)%Z
      end
  end.

(** [_wait_for_file(file_path, timeout, check_interval)], started at the
    instant [now]; the result comes with the instant it is returned at. *)
Definition _wait_for_file (fuel : nat) (disk_at : Timeline) (file_path : string)
    (timeout check_interval now : Z) : option (result unit * Z) :=
  let start_time := now in
  match await_exists fuel disk_at file_path timeout check_interval start_time now with
  | None => None
  | Some (Raise e, now) => Some (Raise e, now)
  | Some (Ok _, now) =>
      let file_size := 0 in
      Some (check_size_stability 10 disk_at file_path file_size now)
  end.

(** ** chat_routes.py: the improvement transport *)

(** The loop of [stream_improved_prompt] and the statement after it. *)
Fixpoint forward_chunks (chunks : gen string) : gen Event :=
  match chunks with
  | Return =>
      Yield (format_event "improved_prompt_complete"
               [("message", "Prompt improvement complete")]) Return
  | Throw e => Throw e
  | Yield chunk rest =>
      Yield (format_event "improved_prompt_chunk" [("chunk", chunk)]) (forward_chunks rest)
  end.

(** [stream_improved_prompt(input)] *)
Definition stream_improved_prompt (client : Client) (input : string) : gen Event :=
  try_except
    (forward_chunks (generate_improved_prompt client input))
    (fun e => Yield (format_event "error" [("error", str_exn e)]) Return).

(** ** Exception classes *)

(** [isinstance(e, classes)] for the exception classes met here, none of
    which derives from another one of them. *)
Definition exn_class (e : exn) : string :=
  match e with
  | PyError cls _ => cls
  | HTTPException _ _ => "HTTPException"
  end.

Definition isinstance (e : exn) (classes : list string) : bool :=
  bool_decide (exn_class e ∈ classes).

(** [repr(s)] of a string of code points below 256: the quote is a double
    quote only when the string holds a single quote and no double quote. *)
Definition hex_digit (n : nat) : ascii :=
  match String.get n "0123456789abcdef" with Some c => c | None => "0"%char end.

Definition repr_char (quote c : ascii) : string :=
  let n := nat_of_ascii c in
  if Ascii.eqb c quote || Ascii.eqb c "\"%char then String "\"%char (String c EmptyString)
  else if Ascii.eqb c "009"%char then "\t"
  else if Ascii.eqb c "010"%char then "\n"
  else if Ascii.eqb c "013"%char then "\r"
  else if Nat.ltb n 32 || Nat.eqb n 127 || (Nat.leb 128 n && Nat.leb n 160) || Nat.eqb n 173
  then String "\"%char (String "x"%char
         (String (hex_digit (n / 16)) (String (hex_digit (n mod 16)) EmptyString)))
  else String c EmptyString.

Fixpoint repr_chars (quote : ascii) (s : string) : string :=
  match s with
  | EmptyString => EmptyString
  | String c s' => repr_char quote c +:+ repr_chars quote s'
  end.

Definition py_repr (s : string) : string :=
  let quote :=
    if Py.contains "'" s && negb (Py.contains DQ s) then "034"%char else "'"%char in
  String quote (repr_chars quote s) +:+ String quote EmptyString.

(** [KeyError(arg)]: its [str()] is the [repr()] of its argument. *)
Definition KeyError (arg : string) : exn := PyError "KeyError" (py_repr arg).

(** ** config.py *)

(** What [yaml.safe_load] returns: [None], scalars, lists, and dictionaries
    with their items in the order of the document ([YOther] stands for the
    remaining objects it can build: dates, binary data, sets, each with its
    truth value). *)
#[local] Set Warnings "-register-all".
Inductive yaml : Type :=
| YNull
| YBool (b : bool)
| YInt (n : Z)
| YFloat (f : SpecFloat.spec_float)
| YStr (s : string)
| YOther (type_name : string) (truth : bool)
| YList (items : list yaml)
| YDict (items : list (yaml * yaml)).
#[local] Set Warnings "register-all".

(** [bool(value)] *)
Definition yaml_truthy (value : yaml) : bool :=
  match value with
  | YNull => false
  | YBool b => b
  | YInt n => negb (Z.eqb n 0)
  | YFloat (SpecFloat.S754_zero _) => false
  | YFloat _ => true
  | YStr s => Py.truthy s
  | YOther _ truth => truth
  | YList items => match items with [] => false | _ => true end
  | YDict items => match items with [] => false | _ => true end
  end.

Module Config.

(** [d[k]] for a dictionary and a string: the item whose key is that
    string. *)
Fixpoint dict_getitem (items : list (yaml * yaml)) (k : string) : option yaml :=
  match items with
  | [] => None
  | (YStr s, v) :: rest => if String.eqb s k then Some v else dict_getitem rest k
  | _ :: rest => dict_getitem rest k
  end.

Definition not_subscriptable (type_name : string) : exn :=
  PyError "TypeError" ("'" +:+ type_name +:+ "' object is not subscriptable").

(** [value[k]] for a string [k]. *)
Definition getitem (value : yaml) (k : string) : result yaml :=
  match value with
  | YDict items =>
      match dict_getitem items k with
      | Some v => Ok v
      | None => Raise (KeyError k)
      end
  | YList _ => Raise (PyError "TypeError" "list indices must be integers or slices, not str")
  | YStr _ => Raise (PyError "TypeError" "string indices must be integers, not 'str'")
  | YNull => Raise (not_subscriptable "NoneType")
  | YBool _ => Raise (not_subscriptable "bool")
  | YInt _ => Raise (not_subscriptable "int")
  | YFloat _ => Raise (not_subscriptable "float")
  | YOther type_name _ => Raise (not_subscriptable type_name)
  end.

(** The loop [for k in keys: value = value[k]]. *)
Fixpoint descend (value : yaml) (keys : list string) : result yaml :=
  match keys with
  | [] => Ok value
  | k :: rest =>
      match getitem value k with
      | Ok value => descend value rest
      | Raise e => Raise e
      end
  end.

(** [Config.get(key, default)]; [YNull] is [None], also for [default]. *)
Definition get (config_data : yaml) (key : string) (default : yaml) : result yaml :=
  let keys := Py.split "."%char key in
  match descend config_data keys with
  | Ok value => Ok value
  | Raise e =>
      if isinstance e ["KeyError"; "TypeError"] then
        match default with
        | YNull => Raise (KeyError ("Configuration key not found: " +:+ key))
        | _ => Ok default
        end
      else Raise e
  end.

(** The loop of [validate_required_keys]. *)
Fixpoint collect_missing (config_data : yaml) (required_keys missing_keys : list string)
  : result (list string) :=
  match required_keys with
  | [] => Ok missing_keys
  | key :: rest =>
      match get config_data key YNull with
      | Ok _ => collect_missing config_data rest missing_keys
      | Raise e =>
          if isinstance e ["KeyError"]
          then collect_missing config_data rest (missing_keys ++ [key])
          else Raise e
      end
  end.

(** [Config.validate_required_keys(required_keys)] *)
Definition validate_required_keys (config_data : yaml) (required_keys : list string)
  : result unit :=
  match collect_missing config_data required_keys [] with
  | Raise e => Raise e
  | Ok [] => Ok tt
  | Ok missing_keys =>
      Raise (KeyError ("Missing required configuration keys: "
                       +:+ Py.join ", " missing_keys))
  end.

End Config.

(** ** image_service.py: the log of the preview macro *)

(** [s.split(sep, maxsplit)] for a one-character separator. *)
Fixpoint split_max (sep : ascii) (maxsplit : nat) (s : string) : list string :=
  match s with
  | EmptyString => [EmptyString]
  | String c s' =>
      match maxsplit with
      | O => [s]
      | S fewer =>
          if Ascii.eqb c sep then EmptyString :: split_max sep fewer s'
          else match split_max sep maxsplit s' with
               | l :: ls => String c l :: ls
               | [] => [String c EmptyString]
               end
      end
  end.

(** [line.split(':', 1)[1].strip()] *)
Definition after_colon (line : string) : result string :=
  match split_max ":"%char 1 line with
  | _ :: value :: _ => Ok (Py.strip value)
  | _ => Raise (PyError "IndexError" "list index out of range")
  end.

(** The loop of [_extract_paths_from_log]. *)
Fixpoint scan_log (lines : list string) (metadata_path preview_path : option string)
  : result (option string * option string) :=
  match lines with
  | [] => Ok (metadata_path, preview_path)
  | line :: rest =>
      let line := Py.strip line in
      if Py.startswith "METADATA_PATH:" line then
        match after_colon line with
        | Raise e => Raise e
        | Ok metadata_path => scan_log rest (Some metadata_path) preview_path
        end
      else if Py.startswith "PREVIEW_PATH:" line then
        match after_colon line with
        | Raise e => Raise e
        | Ok preview_path => scan_log rest metadata_path (Some preview_path)
        end
      else scan_log rest metadata_path preview_path
  end.

(** [_extract_paths_from_log(log_content)]: the metadata dictionary, empty
    or with the one key [raw], and the preview path, possibly [None]. *)
Definition _extract_paths_from_log (log_content : string) (fs : FileSystem)
  : result (list (string * string) * option string) :=
  match scan_log (Py.split Py.LF log_content) None None with
  | Raise e => Raise e
  | Ok (metadata_path, preview_path) =>
      let not_found := Ok ([], preview_path) in
      match metadata_path with
      | Some metadata_path =>
          if Py.truthy metadata_path && path_exists fs metadata_path then
            match read_text fs metadata_path with
            | Raise e => Raise e
            | Ok raw => Ok ([("raw", raw)], preview_path)
            end
          else not_found
      | None => not_found
      end
  end.

(** ** image_service.py: waiting for the log of the preview macro *)

Definition ContentTimeoutError (timeout : Z) (file_path : string) : exn :=
  PyError "TimeoutError"
    ("File content not available within " +:+ pretty timeout +:+ " seconds: " +:+ file_path).

(** The loop of [_wait_for_file_content]; [content] is empty whenever the
    loop test is reached.  [fuel] bounds the number of polls; [timeout] is in
    seconds, [check_interval] and the instants in milliseconds. *)
Fixpoint await_content (fuel : nat) (disk_at : Timeline) (file_path : string)
    (timeout check_interval start_time now : Z) : option (result string * Z) :=
  match fuel with
  | O => None
  | S fuel =>
      if (timeout * 1000 <? now - start_time)%Z
      then Some (Raise (ContentTimeoutError timeout file_path), now)
      else
        match read_text (disk_at now) file_path with
        | Ok text =>
            let content := Py.strip text in
            if Py.truthy content then Some (Ok content, now)
            else await_content fuel disk_at file_path timeout check_interval
                   start_time (now + check_interval)%Z
        | Raise e =>
            if isinstance e ["FileNotFoundError"; "PermissionError"]
            then await_content fuel disk_at file_path timeout check_interval
                   start_time (now + check_interval)%Z
            else Some (Raise e, now)
        end
  end.

(** [_wait_for_file_content(file_path, timeout, check_interval)] *)
Definition _wait_for_file_content (fuel : nat) (disk_at : Timeline) (file_path : string)
    (timeout check_interval now : Z) : option (result string * Z) :=
  let start_time := now in
  await_content fuel disk_at file_path timeout check_interval start_time now.

(** ** file_service.py: waiting for a file *)

(** The loop of [wait_for_file]; [fuel] bounds the number of polls. *)
Fixpoint poll_until (fuel : nat) (disk_at : Timeline) (path : string)
    (end_time check_interval now : Z) : option (result bool * Z) :=
  match fuel with
  | O => None
  | S fuel =>
      if (now <? end_time)%Z then
        match pathlib_exists (disk_at now) path with
        | Raise e => Some (Raise e, now)
        | Ok true =>
            match st_size (disk_at now) path with
            | Raise e => Some (Raise e, now)
            | Ok size =>
                if Nat.ltb 0 size then Some (Ok true, now)
                else poll_until fuel disk_at path end_time check_interval
                       (now + check_interval)%Z
            end
        | Ok false =>
            poll_until fuel disk_at path end_time check_interval (now + check_interval)%Z
        end
      else Some (Ok false, now)
  end.

(** [FileService.wait_for_file(file_path, timeout, check_interval)],
    started at the instant [now]; [timeout] is in seconds, [check_interval]
    and the instants in milliseconds. *)
Definition wait_for_file (fuel : nat) (disk_at : Timeline) (file_path : string)
    (timeout check_interval now : Z) : option (result bool * Z) :=
  let path := Path.make file_path in
  let end_time := (now + timeout * 1000)%Z in
  poll_until fuel disk_at path end_time check_interval now.

(** ** imagej_service.py: starting and stopping the engine *)

Module Startup.

(** What the service holds and what it has done to the Java side: the
    gateway [self.ij] (named by the attempt that created it), the two
    classes [self.IJ] and [self.BF], the options and the class path handed
    to [scyjava.config], the gateways disposed of, and the seconds slept. *)
Record State : Type := {
  ij : option nat;
  IJ : option string;
  BF : option string;
  options : list string;
  classpath : list yaml;
  disposed : list nat;
  slept : Z
}.

(** The libraries behind the service, attempt by attempt:
    [imagej.init(imagej_dir, mode='headless')], [self.ij.ui().setHeadless(True)],
    [scyjava.jimport(name)] and [self.ij.getVersion()] each return or raise. *)
Record Platform : Type := {
  imagej_init : nat -> yaml -> result unit;
  setHeadless : nat -> result unit;
  jimport : nat -> string -> result unit;
  getVersion : nat -> result string
}.

Definition add_option (option : string) (s : State) : State :=
  {| ij := ij s; IJ := IJ s; BF := BF s;
     options := options s ++ [option]; classpath := classpath s;
     disposed := disposed s; slept := slept s |}.

Definition add_classpath (path : yaml) (s : State) : State :=
  {| ij := ij s; IJ := IJ s; BF := BF s;
     options := options s; classpath := classpath s ++ [path];
     disposed := disposed s; slept := slept s |}.

Definition set_ij (gateway : option nat) (s : State) : State :=
  {| ij := gateway; IJ := IJ s; BF := BF s;
     options := options s; classpath := classpath s;
     disposed := disposed s; slept := slept s |}.

Definition set_classes (cIJ cBF : option string) (s : State) : State :=
  {| ij := ij s; IJ := cIJ; BF := cBF;
     options := options s; classpath := classpath s;
     disposed := disposed s; slept := slept s |}.

(** The longest sleep, in seconds, that fits the clock of the interpreter
    (64 bits of nanoseconds). *)
Definition MAX_SLEEP : Z := 9223372036.

(** What [time.sleep(delay)] raises instead of sleeping, for an integer
    [delay]: the conversion to the clock comes before the test of the
    sign. *)
Definition sleep_error (delay : Z) : option exn :=
  if (MAX_SLEEP <? Z.abs delay)%Z then
    Some (PyError "OverflowError" "timestamp too large to convert to C _PyTime_t")
  else if (delay <? 0)%Z then
    Some (PyError "ValueError" "sleep length must be non-negative")
  else None.

(** [time.sleep(delay)] *)
Definition sleep (delay : Z) (s : State) : result unit * State :=
  match sleep_error delay with
  | Some e => (Raise e, s)
  | None =>
      (Ok tt, {| ij := ij s; IJ := IJ s; BF := BF s;
                 options := options s; classpath := classpath s;
                 disposed := disposed s; slept := (slept s + delay)%Z |})
  end.

(** [self.ij.context().dispose()] *)
Definition dispose (gateway : nat) (s : State) : State :=
  {| ij := ij s; IJ := IJ s; BF := BF s;
     options := options s; classpath := classpath s;
     disposed := disposed s ++ [gateway]; slept := slept s |}.

(** [_configure_java_options()] *)
Definition _configure_java_options (config_data : yaml) (s : State) : result unit * State :=
  let s := add_option "-Xmx16g" s in
  let s := add_option "-Djava.awt.headless=true" s in
  match Config.get config_data "paths.bioformats_dir" YNull with
  | Raise e => (Raise e, s)
  | Ok bf_jar =>
      if yaml_truthy bf_jar then (Ok tt, add_classpath bf_jar s) else (Ok tt, s)
  end.

(** [_import_imagej_classes()]: logs and re-raises. *)
Definition _import_imagej_classes (platform : Platform) (attempt : nat)
  : result (string * string) :=
  match jimport platform attempt "ij.IJ" with
  | Raise e => Raise e
  | Ok _ =>
      match jimport platform attempt "loci.plugins.BF" with
      | Raise e => Raise e
      | Ok _ => Ok ("ij.IJ", "loci.plugins.BF")
      end
  end.

(** [_log_version_info()] *)
Definition _log_version_info (platform : Platform) (attempt : nat) : result unit :=
  match getVersion platform attempt with
  | Raise e => Raise e
  | Ok _ =>
      match jimport platform attempt "loci.formats.FormatTools" with
      | Raise e => Raise e
      | Ok _ => Ok tt
      end
  end.

(** The [try] block of one attempt of [initialize]. *)
Definition attempt_body (platform : Platform) (config_data : yaml) (attempt : nat)
    (s : State) : result unit * State :=
  match _configure_java_options config_data s with
  | (Raise e, s) => (Raise e, s)
  | (Ok _, s) =>
      match Config.get config_data "paths.imagej_dir" YNull with
      | Raise e => (Raise e, s)
      | Ok imagej_dir =>
          match imagej_init platform attempt imagej_dir with
          | Raise e => (Raise e, s)
          | Ok _ =>
              let s := set_ij (Some attempt) s in
              match setHeadless platform attempt with
              | Raise e => (Raise e, s)
              | Ok _ =>
                  match _import_imagej_classes platform attempt with
                  | Raise e => (Raise e, s)
                  | Ok (cIJ, cBF) =>
                      let s := set_classes (Some cIJ) (Some cBF) s in
                      match _log_version_info platform attempt with
                      | Raise e => (Raise e, s)
                      | Ok _ => (Ok tt, s)
                      end
                  end
              end
          end
      end
  end.

(** The loop [for attempt in range(1, retries + 1)] of [initialize], from
    [attempt] on, with [remaining] attempts left in the range. *)
Fixpoint attempts (platform : Platform) (config_data : yaml) (retries delay : Z)
    (remaining attempt : nat) (s : State) : result unit * State :=
  match remaining with
  | O => (Ok tt, s)
  | S remaining =>
      match attempt_body platform config_data attempt s with
      | (Ok _, s) => (Ok tt, s)
      | (Raise _, s) =>
          if (Z.of_nat attempt <? retries)%Z then
            match sleep delay s with
            | (Raise e, s) => (Raise e, s)
            | (Ok _, s) =>
                attempts platform config_data retries delay remaining (S attempt) s
            end
          else
            (Raise (PyError "RuntimeError"
                      ("Failed to initialize ImageJ after " +:+ pretty retries
                       +:+ " attempts.")), s)
      end
  end.

(** [initialize(retries, delay)] *)
Definition initialize (platform : Platform) (config_data : yaml) (retries delay : Z)
    (s : State) : result unit * State :=
  attempts platform config_data retries delay (Z.to_nat retries) 1 s.

(** [get_imagej_objects()] *)
Definition get_imagej_objects (s : State) : result (string * string) :=
  match IJ s, BF s with
  | Some cIJ, Some cBF => Ok (cIJ, cBF)
  | _, _ =>
      Raise (PyError "RuntimeError"
               "ImageJ has not been initialized. Call initialize() first.")
  end.

(** [shutdown()] *)
Definition shutdown (s : State) : State :=
  let s :=
    match ij s with
    | Some gateway => set_ij None (dispose gateway s)
    | None => s
    end in
  set_classes None None s.

(** The service as the module creates it. *)
Definition fresh : State :=
  {| ij := None; IJ := None; BF := None;
     options := []; classpath := []; disposed := []; slept := 0 |}.

End Startup.

(** ** file_service.py: the cleanup *)

(** [os.remove(path)] and [Path(path).unlink()] for a path that is not
    itself a symbolic link. *)
Definition os_remove (path : string) (fs : FileSystem) : result FileSystem :=
  match fs_lookup fs path with
  | None => Raise (not_found fs path)
  | Some (Dir _) => Raise (PyError "IsADirectoryError" ("Is a directory: " +:+ path))
  | Some _ =>
      Ok {| nodes := base.delete (realpath fs path) (nodes fs); realpath := realpath fs;
            stat_error := stat_error fs |}
  end.

(** [shutil.rmtree(path)] for a directory that is not a symbolic link,
    holds no symbolic link and of which everything can be removed: the
    directory goes with everything stored under it.  (A symbolic link in
    the tree would go as well, and the paths through it with it; the
    theorems on the cleanup are stated for disks without symbolic links.) *)
Definition rmtree (path : string) (fs : FileSystem) : result FileSystem :=
  match fs_lookup fs path with
  | Some (Dir _) =>
      Ok {| nodes := filter (fun entry => Path.below (resolve fs path) entry.1 = None)
                            (nodes fs);
            realpath := realpath fs;
            stat_error := stat_error fs |}
  | Some _ => Raise (PyError "NotADirectoryError" ("Not a directory: " +:+ path))
  | None => Raise (not_found fs path)
  end.

(** [cleanup_temp_files(path, delay)], once the delay has passed: whatever
    is raised is logged and goes no further. *)
Definition cleanup_temp_files (path : string) (fs : FileSystem) : FileSystem :=
  let path_obj := Path.make path in
  let attempt :=
    if is_dir fs path_obj then rmtree path_obj fs
    else if is_file fs path_obj then os_remove path_obj fs
    else Ok fs in
  match attempt with
  | Ok fs' => fs'
  | Raise _ => fs
  end.

(** ** database.py *)

Module Db.

(** A row of the table [image_metadata]; the metadata column holds the
    dictionary the preview macro gave, empty or with the one key [raw]. *)
Record ImageMetadata : Type := {
  file_name : string;
  image_metadata : list (string * string);
  original_path : string;
  preview_path : string;
  file_type : string
}.

(** What a session has been asked to do since the last commit or rollback. *)
Inductive Change : Type :=
| Insert (row : ImageMetadata)
| Delete (row : ImageMetadata).

(** A session on the table: the rows as committed, the changes pending, and
    the number of rollbacks made. *)
Record Session : Type := {
  table : list ImageMetadata;
  pending : list Change;
  rollbacks : nat
}.

(** [db.add(row)] *)
Definition add (row : ImageMetadata) (db : Session) : Session :=
  {| table := table db; pending := pending db ++ [Insert row]; rollbacks := rollbacks db |}.

(** [db.delete(row)] *)
Definition delete (row : ImageMetadata) (db : Session) : Session :=
  {| table := table db; pending := pending db ++ [Delete row]; rollbacks := rollbacks db |}.

(** [db.rollback()] *)
Definition rollback (db : Session) : Session :=
  {| table := table db; pending := []; rollbacks := S (rollbacks db) |}.

(** [db.query(ImageMetadata).filter(ImageMetadata.file_name == filename).first()];
    the session does not flush before a query. *)
Definition first_by_file_name (filename : string) (db : Session) : option ImageMetadata :=
  List.find (fun row => String.eqb (file_name row) filename) (table db).

(** The pending changes applied in order; the column [file_name] is unique,
    and of the message of the database only the first line is kept. *)
Fixpoint flush (changes : list Change) (rows : list ImageMetadata)
  : result (list ImageMetadata) :=
  match changes with
  | [] => Ok rows
  | Insert row :: rest =>
      if existsb (fun r => String.eqb (file_name r) (file_name row)) rows
      then Raise (PyError "IntegrityError"
                    "UNIQUE constraint failed: image_metadata.file_name")
      else flush rest (rows ++ [row])
  | Delete row :: rest =>
      flush rest (List.filter (fun r => negb (String.eqb (file_name r) (file_name row))) rows)
  end.

(** [db.commit()] *)
Definition commit (db : Session) : result unit * Session :=
  match flush (pending db) (table db) with
  | Ok rows => (Ok tt, {| table := rows; pending := []; rollbacks := rollbacks db |})
  | Raise e => (Raise e, db)
  end.

End Db.

(** ** image_routes.py *)

(** What a request handler works on: the world of the services, the
    database session of the request, and the directories handed to
    [shutil.rmtree] as background tasks. *)
Record Server : Type := {
  world : World;
  db : Db.Session;
  rmtree_tasks : list string
}.

Definition R (A : Type) : Type := Server -> result A * Server.

Definition pure {A : Type} (a : A) : R A := fun s => (Ok a, s).
Definition fail {A : Type} (e : exn) : R A := fun s => (Raise e, s).
Definition and_then {A B : Type} (m : R A) (k : A -> R B) : R B :=
  fun s => match m s with
           | (Ok a, s') => k a s'
           | (Raise e, s') => (Raise e, s')
           end.
(** [try: body  except Exception as e: handler(e)] *)
Definition rescue {A : Type} (body : R A) (handler : exn -> R A) : R A :=
  fun s => match body s with
           | (Ok a, s') => (Ok a, s')
           | (Raise e, s') => handler e s'
           end.
(** [try: body  finally: cleanup] *)
Definition ensure {A : Type} (body : R A) (cleanup : R unit) : R A :=
  fun s => match body s with
           | (r, s') =>
               match cleanup s' with
               | (Ok _, s'') => (r, s'')
               | (Raise e, s'') => (Raise e, s'')
               end
           end.

Notation "x <~ m ;; k" := (and_then m (fun x => k))
  (at level 100, m at next level, right associativity).

(** A computation of the services, run on the world of the server. *)
Definition in_world {A : Type} (m : M A) : R A :=
  fun s => let '(r, w) := m (world s) in
           (r, {| world := w; db := db s; rmtree_tasks := rmtree_tasks s |}).

Definition with_db (f : Db.Session -> Db.Session) : R unit :=
  fun s => (Ok tt, {| world := world s; db := f (db s); rmtree_tasks := rmtree_tasks s |}).

Definition db_commit : R unit :=
  fun s => let '(r, d) := Db.commit (db s) in
           (r, {| world := world s; db := d; rmtree_tasks := rmtree_tasks s |}).

Definition db_first (filename : string) : R (option Db.ImageMetadata) :=
  fun s => (Ok (Db.first_by_file_name filename (db s)), s).

(** [background_tasks.add_task(shutil.rmtree, temp_dir)] *)
Definition add_rmtree_task (temp_dir : string) : R unit :=
  fun s => (Ok tt, {| world := world s; db := db s;
                      rmtree_tasks := rmtree_tasks s ++ [temp_dir] |}).

(** The dictionary [process_image] returns. *)
Record ProcessedData : Type := {
  pd_metadata : list (string * string);
  pd_preview_path : string;
  pd_original_path : string;
  pd_file_type : string;
  pd_unique_filename : string
}.

(** The image service the handler is built with: [process_image] and
    [generate_image_preview], each a computation on the world of the
    services. *)
Record ImageService : Type := {
  process_image : string -> string -> M ProcessedData;
  generate_image_preview : string -> M string
}.

(** The handler: the two services it is built with. *)
Record ImageRouteHandler : Type := {
  image_service : ImageService;
  imagej_service : ImageJService
}.

(** An entry of the list [results] of [handle_initial_upload]. *)
Inductive UploadResult : Type :=
| Processed (filename unique_filename preview : string)
            (metadata : list (string * string)) (file_type : string)
| NotProcessed (filename error : string).

(** The responses of the handlers. *)
Inductive Response : Type :=
| StreamingResponse (path media_type : string) (headers : list (string * string))
| JSONResults (results : list UploadResult)
| JSONMessage (message : string)
| JSONPreview (preview : string).

(** [handle_execute_macro(files, macro_script, background_tasks)] *)
Definition handle_execute_macro (self : ImageRouteHandler) (files : list UploadFile)
    (macro_script : string) : R Response :=
  result <~ in_world (execute_image_macro (imagej_service self) files macro_script ∅) ;;
  let '(zip_path, error_logs) := result in
  present <~ in_world (on_disk (fun fs => Ok (Py.truthy zip_path && path_exists fs zip_path))) ;;
  if (present : bool) then
    pure (StreamingResponse zip_path "application/zip"
            [("Content-Disposition", "attachment; filename=results.zip")])
  else fail (HTTPException 500 "Failed to execute macro.").

(** The body of [for file in files] in [handle_initial_upload]. *)
Fixpoint upload_each (self : ImageRouteHandler) (files : list UploadFile)
    (results : list UploadResult) : R (list UploadResult) :=
  match files with
  | [] => pure results
  | file :: rest =>
      temp_dir <~ in_world mkdtemp ;;
      results <~
        ensure
          (rescue
             (let original_path := os_path_join temp_dir (filename file) in
              _ <~ in_world (update_disk (fun fs =>
                     open_for_writing fs (Path.make original_path) (File (body file)))) ;;
              processed_data <~ in_world (process_image (image_service self)
                                            original_path (filename file)) ;;
              preview <~ in_world (generate_image_preview (image_service self)
                                     (pd_preview_path processed_data)) ;;
              let db_metadata :=
                {| Db.file_name := pd_unique_filename processed_data;
                   Db.original_path := pd_original_path processed_data;
                   Db.preview_path := pd_preview_path processed_data;
                   Db.image_metadata := pd_metadata processed_data;
                   Db.file_type := pd_file_type processed_data |} in
              _ <~ with_db (Db.add db_metadata) ;;
              _ <~ db_commit ;;
              pure (results ++ [Processed (filename file)
                                   (pd_unique_filename processed_data) preview
                                   (pd_metadata processed_data)
                                   (pd_file_type processed_data)]))
             (fun e =>
                _ <~ with_db Db.rollback ;;
                pure (results ++ [NotProcessed (filename file) (str_exn e)])))
          (add_rmtree_task temp_dir) ;;
      upload_each self rest results
  end.

(** [handle_initial_upload(files, background_tasks, db)] *)
Definition handle_initial_upload (self : ImageRouteHandler) (files : list UploadFile)
  : R Response :=
  results <~ upload_each self files [] ;;
  pure (JSONResults results).

(** [upload_image(background_tasks, files, execute_macro, macro_script, db)] *)
Definition upload_image (self : ImageRouteHandler) (files : list UploadFile)
    (execute_macro : bool) (macro_script : option string) : R Response :=
  match files with
  | [] => fail (HTTPException 400 "No files uploaded")
  | _ =>
      rescue
        (match macro_script with
         | Some script =>
             if execute_macro && Py.truthy script
             then handle_execute_macro self files script
             else handle_initial_upload self files
         | None => handle_initial_upload self files
         end)
        (fun e =>
           _ <~ with_db Db.rollback ;;
           if isinstance e ["HTTPException"] then fail e
           else fail (HTTPException 500 "Error processing files."))
  end.

(** The loop [for path in [original_path, preview_path]] of [delete_image]. *)
Fixpoint remove_existing (paths : list string) : M unit :=
  match paths with
  | [] => ret tt
  | path :: rest =>
      present <- on_disk (fun fs => Ok (path_exists fs path)) ;;
      _ <- (if (present : bool) then update_disk (os_remove path) else ret tt) ;;
      remove_existing rest
  end.

(** [delete_image(filename, db)] *)
Definition delete_image (filename : string) : R Response :=
  rescue
    (image_metadata <~ db_first filename ;;
     match image_metadata with
     | None => fail (HTTPException 404 "Image not found")
     | Some row =>
         _ <~ in_world (remove_existing [Db.original_path row; Db.preview_path row]) ;;
         _ <~ with_db (Db.delete row) ;;
         _ <~ db_commit ;;
         pure (JSONMessage "Image deleted successfully")
     end)
    (fun e =>
       _ <~ with_db Db.rollback ;;
       fail (HTTPException 500 "Error deleting image.")).

(** [get_image_preview(filename, db)] *)
Definition get_image_preview (self : ImageRouteHandler) (filename : string) : R Response :=
  rescue
    (image_metadata <~ db_first filename ;;
     found <~ in_world (on_disk (fun fs =>
                Ok (match image_metadata with
                    | Some row => path_exists fs (Db.preview_path row)
                    | None => false
                    end))) ;;
     match image_metadata, (found : bool) with
     | Some row, true =>
         preview <~ in_world (generate_image_preview (image_service self)
                                (Db.preview_path row)) ;;
         pure (JSONPreview preview)
     | _, _ => fail (HTTPException 404 "Preview not found")
     end)
    (fun e => fail (HTTPException 500 "Error generating image preview.")).

(** The size of the chunks [iterfile] reads. *)
Definition CHUNK_SIZE : nat := 1024 * 1024.

(** The loop of [iterfile] on what is left of the file: [read(size)] gives
    the next bytes, at most [size] of them, and nothing at the end of the
    file.  [fuel] bounds the number of reads. *)
Fixpoint read_chunks (fuel size : nat) (rest : string) : gen string :=
  match fuel with
  | O => Return
  | S fuel =>
      let chunk := Py.take size rest in
      if Py.truthy chunk then Yield chunk (read_chunks fuel size (Py.drop size rest))
      else Return
  end.

(** [iterfile()] of [handle_execute_macro], on an archive of the given
    bytes. *)
Definition iterfile (data : string) : gen string :=
  read_chunks (S (String.length data)) CHUNK_SIZE data.

(** ** image_service.py: the preview of an upload *)

Fixpoint all_slashes (s : string) : bool :=
  match s with
  | EmptyString => true
  | String c s' => Ascii.eqb c Py.SLASH && all_slashes s'
  end.

(** [os.path.dirname(p)] *)
Definition os_path_dirname (p : string) : string :=
  let i := match Py.rfind Py.SLASH p with Some sepIndex => S sepIndex | None => 0 end in
  let head := Py.take i p in
  if Py.truthy head && negb (all_slashes head)
  then Py.rstrip_by (Ascii.eqb Py.SLASH) head
  else head.

(** [os.path.splitext(p)[1]]: [p] from the last dot on, when that dot lies
    in the last component and a character other than a dot comes before it
    there, and nothing otherwise. *)
Definition os_path_splitext_1 (p : string) : string :=
  match Py.rfind "."%char p with
  | None => EmptyString
  | Some dotIndex =>
      let filenameIndex :=
        match Py.rfind Py.SLASH p with Some sepIndex => S sepIndex | None => 0 end in
      if Nat.leb filenameIndex dotIndex
         && negb (all_dots (Py.take (dotIndex - filenameIndex) (Py.drop filenameIndex p)))
      then Py.drop dotIndex p
      else EmptyString
  end.

Module Preview.

(** What the task of a request changes: the clock of the event loop (in
    milliseconds), the number of temporary directories made, and the
    cleanups handed to the background tasks of the request. *)
Record State : Type := {
  now : Z;
  temp_dirs_made : nat;
  background_tasks : list string
}.

(** What the image service works with: the disk at every instant, the
    engine service of the module, the method [_load_macro_template] (its
    outcome depends on the template read from the disk at that instant and
    on [str.format]), [IJ.runMacro] (its outcome, and the instant it
    returns at), [scyjava.to_python] and the value of [uuid.uuid4()]. *)
Record Env : Type := {
  disk_at : Timeline;
  engine : Startup.State;
  _load_macro_template : FileSystem -> string -> string -> string -> string -> result string;
  runMacro : string -> Z -> result (option string) * Z;
  to_python : string -> result string;
  uuid4 : string
}.

(** A step of the task: [None] is a wait cut short by the bound on its
    polls. *)
Definition T (A : Type) : Type := State -> option (result A * State).

Definition pure {A : Type} (a : A) : T A := fun s => Some (Ok a, s).
Definition fail {A : Type} (e : exn) : T A := fun s => Some (Raise e, s).
Definition and_then {A B : Type} (m : T A) (k : A -> T B) : T B :=
  fun s => match m s with
           | Some (Ok a, s') => k a s'
           | Some (Raise e, s') => Some (Raise e, s')
           | None => None
           end.
(** [try: body  except Exception as e: handler(e)] *)
Definition rescue {A : Type} (body : T A) (handler : exn -> T A) : T A :=
  fun s => match body s with
           | Some (Ok a, s') => Some (Ok a, s')
           | Some (Raise e, s') => handler e s'
           | None => None
           end.
(** [try: body  finally: cleanup] *)
Definition ensure {A : Type} (body : T A) (cleanup : T unit) : T A :=
  fun s => match body s with
           | Some (r, s') =>
               match cleanup s' with
               | Some (Ok _, s'') => Some (r, s'')
               | Some (Raise e, s'') => Some (Raise e, s'')
               | None => None
               end
           | None => None
           end.

Notation "'let*' x ':=' m 'in' k" := (and_then m (fun x => k))
  (at level 10, x name, m at level 100, k at level 200).

(** The outcome of a call that takes no time and leaves no trace. *)
Definition lift {A : Type} (r : result A) : T A := fun s => Some (r, s).

(** Something computed from the disk as it is now. *)
Definition on_disk {A : Type} (env : Env) (f : FileSystem -> result A) : T A :=
  fun s => Some (f (disk_at env (now s)), s).

(** Something that takes time: started now, it ends at the instant it gives. *)
Definition timed {A : Type} (f : Z -> option (result A * Z)) : T A :=
  fun s => match f (now s) with
           | Some (r, t) =>
               Some (r, {| now := t; temp_dirs_made := temp_dirs_made s;
                           background_tasks := background_tasks s |})
           | None => None
           end.

(** [tempfile.mkdtemp()]; the directory is on the disk from now on. *)
Definition mkdtemp : T string :=
  fun s => Some (Ok ("/tmp/tmp" +:+ pretty (temp_dirs_made s)),
                 {| now := now s; temp_dirs_made := S (temp_dirs_made s);
                    background_tasks := background_tasks s |}).

(** [background_tasks.add_task(file_service.cleanup_temp_files, temp_dir)] *)
Definition add_cleanup_task (temp_dir : string) : T unit :=
  fun s => Some (Ok tt, {| now := now s; temp_dirs_made := temp_dirs_made s;
                           background_tasks := background_tasks s ++ [temp_dir] |}).

(** What [os.path.exists(None)] raises. *)
Definition NoneTypePath : exn :=
  PyError "TypeError"
    "stat: path should be string, bytes, os.PathLike or integer, not NoneType".

Definition PreviewNotFound (preview_path : string) : exn :=
  PyError "ValueError" ("Preview image was not generated or found at: " +:+ preview_path).

(** [run_preview_macro(input_path, output_dir, filename, background_tasks)];
    [fuel] bounds the polls of each of its two waits. *)
Definition run_preview_macro (env : Env) (fuel : nat)
    (input_path output_dir filename : string) : T (list (string * string) * string) :=
  let* temp_dir := mkdtemp in
  let output_log_path := os_path_join temp_dir "output_log.txt" in
  ensure
    (rescue
       (let* objects := lift (Startup.get_imagej_objects (engine env)) in
        let '(cIJ, cBF) := objects in
        let* user_macro :=
          on_disk env (fun fs =>
            _load_macro_template env fs input_path output_dir filename output_log_path) in
        let* output := timed (fun t => Some (runMacro env user_macro t)) in
        let* output :=
          match output with
          | Some output => lift (to_python env output)
          | None => pure EmptyString
          end in
        let* log_content :=
          timed (_wait_for_file_content fuel (disk_at env) output_log_path 60 1000) in
        let* paths := on_disk env (_extract_paths_from_log log_content) in
        let '(metadata, preview_path) := paths in
        match preview_path with
        | None => fail NoneTypePath
        | Some preview_path =>
            let* _ := timed (_wait_for_file fuel (disk_at env) preview_path 120 1000) in
            let* found := on_disk env (fun fs => Ok (path_exists fs preview_path)) in
            if (found : bool) then pure (metadata, preview_path)
            else fail (PreviewNotFound preview_path)
        end)
       (fun e =>
          let* present := on_disk env (fun fs => Ok (path_exists fs output_log_path)) in
          let* _ :=
            if (present : bool)
            then on_disk env (fun fs => match read_text fs output_log_path with
                                        | Ok _ => Ok tt
                                        | Raise e => Raise e
                                        end)
            else pure tt in
          fail (HTTPException 500 ("Failed to generate preview: " +:+ str_exn e))))
    (add_cleanup_task temp_dir).

(** [process_image(original_path, background_tasks, filename)] *)
Definition process_image (env : Env) (fuel : nat) (original_path filename : string)
  : T ProcessedData :=
  rescue
    (let file_uuid := uuid4 env in
     let unique_filename := file_uuid +:+ "_" +:+ filename in
     let* result :=
       run_preview_macro env fuel original_path (os_path_dirname original_path)
         unique_filename in
     pure {| pd_metadata := fst result;
             pd_preview_path := snd result;
             pd_original_path := original_path;
             pd_file_type := Py.drop 1 (os_path_splitext_1 filename);
             pd_unique_filename := unique_filename |})
    (fun e => fail (HTTPException 500 ("Failed to process image: " +:+ str_exn e))).

End Preview.

(** ** Vocabulary of the statements *)

(** A string is one line when splitting it gives the string itself. *)
Definition one_line (l : string) : Prop := Py.split Py.LF l = [l].

(** A line is blank when nothing is left after stripping it, and a comment
    line when what is left begins with the comment marker. *)
Definition blank_line (l : string) : bool := negb (Py.truthy (Py.strip l)).
Definition comment_line (l : string) : bool := Py.startswith "//" (Py.strip l).

(** The lines of a script section that survive cleaning: markers and fences
    removed, blank lines dropped. *)
Definition surviving_lines (content : string) : list string :=
  List.filter (fun l => negb (blank_line l))
    (Py.split Py.LF
       (Py.replace "```" EmptyString
          (Py.replace "```javascript" EmptyString
             (Py.strip (Py.replace "[EXPLANATION]" EmptyString
                          (Py.replace "[DESCRIPTION]" EmptyString content)))))).

Definition SYNTHETIC_COMMENT : string := "// Generated ImageJ Macro".

(** The kind of an event, and the section changes of a run of events, each
    with its section name and content. *)
Definition is_kind (kind : string) (ev : Event) : bool := String.eqb (event ev) kind.

Definition lookup_key (key : string) (d : list (string * string)) : string :=
  match List.find (fun kv => String.eqb (fst kv) key) d with
  | Some kv => snd kv
  | None => EmptyString
  end.

Definition section_changes (evs : list Event) : list (string * string) :=
  map (fun ev => (lookup_key "section" (data ev), lookup_key "content" (data ev)))
      (List.filter (is_kind "section_change") evs).

Definition count_kind (kind : string) (evs : list Event) : nat :=
  length (List.filter (is_kind kind) evs).

(** A backend stream that delivers the given text deltas and ends, or ends
    by raising. *)
Fixpoint deltas_then (deltas : list string) (k : gen BackendEvent) : gen BackendEvent :=
  match deltas with
  | [] => k
  | d :: rest => Yield (ContentBlockDeltaEvent d) (deltas_then rest k)
  end.

(** A backend that opens and answers every request with the same stream. *)
Definition serving (stream : gen BackendEvent) : Client := fun _ _ => Ok stream.

(** A client that stays connected. *)
Definition connected : Request := {| is_disconnected := fun _ => false |}.

(** The three in-band markers, and deltas free of them. *)
Definition has_description_marker (d : string) : bool := Py.contains "[DESCRIPTION]" d.
Definition has_explanation_marker (d : string) : bool := Py.contains "[EXPLANATION]" d.
Definition has_fence (d : string) : bool := Py.contains "```" d.

Definition no_section_marker (d : string) : Prop :=
  has_description_marker d = false /\ has_explanation_marker d = false.
Definition marker_free (d : string) : Prop :=
  no_section_marker d /\ has_fence d = false.

(** [str.count]: non-overlapping occurrences of a non-empty pattern. *)
Fixpoint count_from (skip : nat) (sub s : string) : nat :=
  match s with
  | EmptyString => 0
  | String _ s' =>
      match skip with
      | S k => count_from k sub s'
      | O => if Py.startswith sub s
             then S (count_from (String.length sub - 1) sub s')
             else count_from 0 sub s'
      end
  end.
Definition count (sub s : string) : nat := count_from 0 sub s.

Definition concat_deltas (deltas : list string) : string :=
  fold_right String.append EmptyString deltas.

(** werkzeug's [secure_filename] on an ASCII file name: separators become
    spaces, runs of white space become one underscore, every character
    outside letters, digits, underscore, dot and dash is dropped, and dots
    and underscores are stripped from both ends. *)
Definition is_filename_char (c : ascii) : bool :=
  let n := nat_of_ascii c in
  (Nat.leb 48 n && Nat.leb n 57) || (Nat.leb 65 n && Nat.leb n 90)
  || (Nat.leb 97 n && Nat.leb n 122)
  || Nat.eqb n 95 || Nat.eqb n 46 || Nat.eqb n 45.

Definition secure_filename_ascii (filename : string) : string :=
  let filename := Py.filter_chars (fun c => Nat.ltb (nat_of_ascii c) 128) filename in
  let filename := Py.replace_char Py.SLASH " "%char filename in
  Py.strip_by (fun c => Ascii.eqb c "."%char || Ascii.eqb c "_"%char)
    (Py.filter_chars is_filename_char (Py.join "_" (Py.split_whitespace filename))).

(** Nothing else touches the disk. *)
Definition quiet (fs : FileSystem) : FileSystem := fs.

(** Something else removes what is stored at [path]. *)
Definition removing (path : string) (fs : FileSystem) : FileSystem :=
  {| nodes := delete (realpath fs path) (nodes fs); realpath := realpath fs;
     stat_error := stat_error fs |}.

(** A disk without symbolic links: every path is its own canonical form. *)
Definition plain_disk (entries : list (string * node)) : FileSystem :=
  {| nodes := list_to_map entries; realpath := Path.make; stat_error := fun _ => None |}.

(** A disk on which [/tmp] is a symbolic link to [/private/tmp]. *)
Definition linked_tmp_disk (entries : list (string * node)) : FileSystem :=
  {| nodes := list_to_map entries;
     realpath := fun path =>
       let path := Path.make path in
       if Py.startswith "/tmp/" path then "/private" +:+ path else path;
     stat_error := fun _ => None |}.









(** A disk without symbolic links on which two dots lead to the parent
    directory. *)
Definition lexical_disk (entries : list (string * node)) : FileSystem :=
  {| nodes := list_to_map entries; realpath := os_path_normpath;
     stat_error := fun _ => None |}.

(** A disk on which the kernel refuses the names in [refused] as too long. *)
Definition limited_disk (refused : list string) (entries : list (string * node))
  : FileSystem :=
  {| nodes := list_to_map entries; realpath := Path.make;
     stat_error := fun path =>
       if bool_decide (path ∈ refused)
       then Some (PyError "OSError" ("[Errno 36] File name too long: '" +:+ path +:+ "'"))
       else None |}.

(** The members of the archive stored at [zip_path], if one is stored there. *)
Definition archive_members (fs : FileSystem) (zip_path : string) : option (list string) :=
  match fs_lookup fs zip_path with
  | Some (ZipArchive members) => Some members
  | _ => None
  end.

(** *** The batch as a list of execution records *)

(** The result of one job: the files collected for it, or the exception
    that stopped it. *)
Inductive JobOutcome : Type :=
| Collected (saved_files : list string)
| Failed (e : exn).

Record ExecutionRecord : Type := {
  job_filename : string;
  job_outcome : JobOutcome
}.

(** The working path of a job and the stem its outputs are looked up by. *)
Definition job_filename_of (self : ImageJService) (file : UploadFile) : string :=
  secure_filename self (filename file).
Definition job_path (self : ImageJService) (temp_dir : string) (file : UploadFile) : string :=
  os_path_join temp_dir (job_filename_of self file).

(** The error-log entry of a failed job. *)
Definition error_entry (image_filename : string) (e : exn) : string :=
  "Error processing " +:+ image_filename +:+ ": " +:+ str_exn e.

Definition error_log (records : list ExecutionRecord) : list string :=
  omap (fun r => match job_outcome r with
                 | Failed e => Some (error_entry (job_filename r) e)
                 | Collected _ => None
                 end) records.

Definition discovered (records : list ExecutionRecord) : list string :=
  flat_map (fun r => match job_outcome r with
                     | Collected saved_files => saved_files
                     | Failed _ => []
                     end) records.

(** One job after the other: each file is persisted, then its job is run
    and its outcome recorded whether it raised or not; only a failure to
    persist a file ends the batch. *)
Fixpoint run_jobs (self : ImageJService) (temp_dir macro_script : string)
    (macro_params : gmap string string) (files : list UploadFile)
  : M (list ExecutionRecord) :=
  match files with
  | [] => ret []
  | file :: rest =>
      _ <- _save_upload_file file (job_path self temp_dir file) ;;
      outcome <- try_catch
                   (saved_files <- run_job self (job_path self temp_dir file) temp_dir
                                     (os_path_splitext_0 (job_filename_of self file))
                                     macro_script macro_params ;;
                    ret (Collected saved_files))
                   (fun e => ret (Failed e)) ;;
      records <- run_jobs self temp_dir macro_script macro_params rest ;;
      ret ({| job_filename := job_filename_of self file; job_outcome := outcome |}
           :: records)
  end.

(** The two failures of a whole batch. *)
Definition NoOutputs : exn := HTTPException 500 "No output files were generated.".
Definition ZipFailed : exn := HTTPException 500 "Failed to create zip file.".

(** The world once the cleanup of [temp_dir] has been scheduled. *)
Definition scheduled (temp_dir : string) (w : World) : World :=
  {| disk := disk w; ij_log := ij_log w;
     background_tasks := background_tasks w ++ [temp_dir];
     temp_dirs_made := temp_dirs_made w;
     others := others w |}.

(** *** A sample engine and service, for the worked examples *)

(** The text after the first occurrence of [pat] in [s]. *)
Fixpoint text_after (pat s : string) : option string :=
  if Py.startswith pat s then Some (Py.drop (String.length pat) s)
  else match s with
       | EmptyString => None
       | String _ s' => text_after pat s'
       end.

Fixpoint text_until (c : ascii) (s : string) : string :=
  match s with
  | EmptyString => EmptyString
  | String d s' => if Ascii.eqb d c then EmptyString else String d (text_until c s')
  end.

(** The value a script binds to a variable with [var name = "value";]. *)
Definition script_var (name script : string) : string :=
  match text_after ("var " +:+ name +:+ " = " +:+ DQ) script with
  | Some rest => text_until "034"%char rest
  | None => EmptyString
  end.

(** An engine that fails on an input whose content begins with [CORRUPT]
    and otherwise writes one mask image, named after the input, into the
    [Images] directory of the output directory. *)
Definition sample_engine (full_macro : string) (fs : FileSystem) (log : string)
  : result string * (FileSystem * string) :=
  let input := script_var "inputPath" full_macro in
  let mask := script_var "outputDir" full_macro +:+ "Images/"
              +:+ script_var "originalFileName" full_macro +:+ "_mask.tif" in
  match fs_lookup fs input with
  | Some (File content) =>
      if Py.startswith "CORRUPT" content
      then (Raise (PyError "JavaException" "Cannot open image"), (fs, log))
      else (Ok EmptyString, (fs_update fs mask (File "MASK"), log))
  | _ => (Raise (PyError "JavaException" "No image"), (fs, log))
  end.

Definition sample_service : ImageJService :=
  {| macro_template := "/app/headless_macro_template.ijm";
     IJ := sample_engine;
     secure_filename := secure_filename_ascii |}.

Definition sample_world : World :=
  {| disk := plain_disk
       [("/tmp", Dir 4096); ("/app", Dir 4096);
        ("/app/headless_macro_template.ijm",
         File ("open(inputPath);" +:+ NL +:+ "{user_macro}" +:+ NL))];
     ij_log := EmptyString;
     background_tasks := [];
     temp_dirs_made := 0;
     others := quiet |}.

Definition upload (filename body : string) : UploadFile :=
  {| filename := filename; body := body |}.

(** An engine that, besides the mask image, exports a summary to a
    directory outside the working directory and declares both files in the
    log file of the working directory. *)
Definition exporting_engine (full_macro : string) (fs : FileSystem) (log : string)
  : result string * (FileSystem * string) :=
  let out := script_var "outputDir" full_macro in
  let mask := out +:+ "Images/" +:+ script_var "originalFileName" full_macro
              +:+ "_mask.tif" in
  let summary := "/srv/exports/summary.csv" in
  let declared := "OUTPUT_FILE: " +:+ mask +:+ NL +:+ "OUTPUT_FILE: " +:+ summary +:+ NL in
  (Ok EmptyString,
   (fs_update (fs_update (fs_update fs mask (File "MASK")) summary (File "n,area"))
              (out +:+ "output_log.txt") (File declared),
    log)).

Definition exporting_service : ImageJService :=
  {| macro_template := "/app/headless_macro_template.ijm";
     IJ := exporting_engine;
     secure_filename := secure_filename_ascii |}.

(** The first statements of [execute_image_macro]: the working directory
    and its three subdirectories. *)
Definition make_working_dirs : M string :=
  temp_dir <- mkdtemp ;;
  _ <- for_each ["Images"; "Statistics"; "Metadata"]
         (fun subdir => makedirs (os_path_join temp_dir subdir)) ;;
  ret temp_dir.

(** *** Waiting for a file *)

(** Whether a run of polled sizes, read after the size [prev], holds two
    consecutive equal non-zero sizes. *)
Fixpoint stable_pair (prev : nat) (sizes : list nat) : bool :=
  match sizes with
  | [] => false
  | s :: rest => (Nat.ltb 0 s && Nat.eqb s prev) || stable_pair s rest
  end.

(** The sizes polled by the stability loop started at the instant [t0]. *)
Definition sizes_polled (disk_at : Timeline) (file_path : string) (t0 : Z)
    (sizes : list nat) : Prop :=
  forall i, i < length sizes ->
    st_size (disk_at (t0 + 1000 * Z.of_nat i)%Z) file_path = Ok (nth i sizes 0).

(** The path is first seen at the k-th existence poll. *)
Definition first_seen_at_poll (disk_at : Timeline) (file_path : string)
    (timeout check_interval start_time : Z) (k : nat) : Prop :=
  (forall j, j < k ->
     path_exists (disk_at (start_time + Z.of_nat j * check_interval)%Z) file_path = false
     /\ (Z.of_nat j * check_interval <= timeout * 1000)%Z)
  /\ path_exists (disk_at (start_time + Z.of_nat k * check_interval)%Z) file_path = true.

(** A file of [n] bytes. *)
Definition blob (n : nat) : node := File (Nat.iter n (String "x"%char) EmptyString).

(** A preview image that appears after [appears] milliseconds and whose
    size at the instant [t] is [size_at t] bytes. *)
Definition preview_timeline (appears : Z) (size_at : Z -> nat) : Timeline :=
  fun t =>
    plain_disk (("/tmp", Dir 4096)
                :: if (appears <=? t)%Z then [("/tmp/preview.png", blob (size_at t))] else []).

(** What a step of the batch leaves alone: the scheduled tasks and the
    count of temporary directories. *)
Definition same_schedule (w w' : World) : Prop :=
  background_tasks w' = background_tasks w /\ temp_dirs_made w' = temp_dirs_made w.

Definition keeps_schedule {A : Type} (m : M A) : Prop :=
  forall w, same_schedule w (snd (m w)).

(** An engine that writes the mask image and declares it in the log file of
    the working directory, and a world whose [/tmp] is a symbolic link. *)
Definition declaring_engine (full_macro : string) (fs : FileSystem) (log : string)
  : result string * (FileSystem * string) :=
  let out := script_var "outputDir" full_macro in
  let mask := out +:+ "Images/" +:+ script_var "originalFileName" full_macro
              +:+ "_mask.tif" in
  (Ok EmptyString,
   (fs_update (fs_update fs mask (File "MASK"))
              (out +:+ "output_log.txt") (File ("OUTPUT_FILE: " +:+ mask +:+ NL)),
    log)).

Definition declaring_service : ImageJService :=
  {| macro_template := "/app/headless_macro_template.ijm";
     IJ := declaring_engine;
     secure_filename := secure_filename_ascii |}.

Definition linked_tmp_world : World :=
  {| disk := linked_tmp_disk
       [("/private", Dir 4096); ("/private/tmp", Dir 4096); ("/app", Dir 4096);
        ("/app/headless_macro_template.ijm",
         File ("open(inputPath);" +:+ NL +:+ "{user_macro}" +:+ NL))];
     ij_log := EmptyString;
     background_tasks := [];
     temp_dirs_made := 0;
     others := quiet |}.

(** *** The improvement stream *)

Definition improved_prompt_chunk (chunk : string) : Event :=
  mkEvent "improved_prompt_chunk" [("chunk", chunk)].
Definition improved_prompt_complete : Event :=
  mkEvent "improved_prompt_complete" [("message", "Prompt improvement complete")].

(** What the improvement backend delivers for an input: the text chunks,
    and whether the request failed to open or the stream raised. *)
Definition improvement_chunks (client : Client) (input : string) : list string :=
  match client PROMPT_IMPROVEMENT_SYSTEM (PROMPT_IMPROVEMENT_USER input) with
  | Ok stream => yielded (text_stream stream)
  | Raise _ => []
  end.

Definition improvement_failed (client : Client) (input : string) : bool :=
  match client PROMPT_IMPROVEMENT_SYSTEM (PROMPT_IMPROVEMENT_USER input) with
  | Ok stream => match raised (text_stream stream) with Some _ => true | None => false end
  | Raise _ => true
  end.

(** The value of [improved_chunk] after the first loop of [macro_stream]. *)
Definition last_chunk (improved_chunk : option string) (chunks : list string) : option string :=
  fold_left (fun _ chunk => Some chunk) chunks improved_chunk.

(** A backend that answers the improvement request with one stream and the
    generation request with another. *)
Definition answering (improved generated : gen BackendEvent) : Client :=
  fun system _ =>
    match system with
    | PROMPT_IMPROVEMENT_SYSTEM => Ok improved
    | MACRO_GENERATION_PROMPT => Ok generated
    end.

(** *** The configuration *)

(** Whether a dotted key leads to a value, [None] included. *)
Definition is_set (config_data : yaml) (key : string) : bool :=
  match Config.get config_data key YNull with Ok _ => true | Raise _ => false end.

(** *** The log of the preview macro *)

(** The values the lines declare under a tag: for every line that,
    stripped, begins with the tag, the stripped text after the tag. *)
Definition tag_values (tag : string) (lines : list string) : list string :=
  map (fun line => Py.strip (Py.drop (String.length tag) (Py.strip line)))
      (List.filter (fun line => Py.startswith tag (Py.strip line)) lines).

Definition last_declared (tag log_content : string) : option string :=
  last (tag_values tag (Py.split Py.LF log_content)).

Definition or_else {A : Type} (x y : option A) : option A :=
  match x with Some a => Some a | None => y end.

(** *** Waiting *)

(** The test of [wait_for_file]: the path exists and its size is not zero. *)
Definition nonempty_at (fs : FileSystem) (path : string) : bool :=
  match fs_lookup fs path with
  | Some n => Nat.ltb 0 (node_size n)
  | None => false
  end.

(** What [Path.exists] raises at the path: the error the kernel gives for
    it, when nothing is found there and it gives one. *)
Definition unexaminable (fs : FileSystem) (path : string) : option exn :=
  match fs_lookup fs path with
  | Some _ => None
  | None => stat_error fs path
  end.

(** How a call of [wait_for_file] ends at a poll: with the file ready, at
    the deadline, or with the exception of the poll. *)
Definition poll_outcome (fs : FileSystem) (path : string) (before_deadline : Prop)
    (r : result bool) : Prop :=
  match r with
  | Ok true => nonempty_at fs path = true /\ before_deadline
  | Ok false => ~ before_deadline
  | Raise e => unexaminable fs path = Some e /\ before_deadline
  end.

(** A disk on which the name of the awaited file is refused as too long
    until the given instant. *)
Definition refusing_until (instant : Z) (size : nat) : Timeline :=
  fun t =>
    if (t <? instant)%Z
    then limited_disk ["/tmp/preview.png"] [("/tmp", Dir 4096)]
    else plain_disk [("/tmp", Dir 4096); ("/tmp/preview.png", blob size)].

(** What a poll of [_wait_for_file_content] finds: the stripped text, a
    reason to poll again (no file yet, or only white space in it), or an
    exception that ends the wait. *)
Inductive Poll : Type :=
| Content (content : string)
| NotYet
| Broken (e : exn).

Definition poll_content (fs : FileSystem) (file_path : string) : Poll :=
  match read_text fs file_path with
  | Ok text => if Py.truthy (Py.strip text) then Content (Py.strip text) else NotYet
  | Raise e =>
      if isinstance e ["FileNotFoundError"; "PermissionError"] then NotYet else Broken e
  end.

(** What the j-th poll finds, the polls being [check_interval] apart. *)
Definition wait_state (disk_at : Timeline) (file_path : string)
    (check_interval now : Z) (j : nat) : Poll :=
  poll_content (disk_at (now + Z.of_nat j * check_interval)%Z) file_path.

(** A log file that is created empty after [appears] milliseconds and holds
    [text] from [written] milliseconds on. *)
Definition log_timeline (appears written : Z) (text : string) : Timeline :=
  fun t =>
    plain_disk (("/tmp", Dir 4096) :: ("/tmp/tmp0", Dir 4096)
                :: if (written <=? t)%Z then [("/tmp/tmp0/output_log.txt", File text)]
                   else if (appears <=? t)%Z
                        then [("/tmp/tmp0/output_log.txt", File EmptyString)]
                        else []).

(** *** Starting the engine *)

(** Whether an attempt of [initialize] ends in an exception; this depends on
    the configuration and the platform only. *)
Definition attempt_fails (platform : Startup.Platform) (config_data : yaml) (attempt : nat)
  : bool :=
  match fst (Startup.attempt_body platform config_data attempt Startup.fresh) with
  | Raise _ => true
  | Ok _ => false
  end.

Definition InitializationFailed (retries : Z) : exn :=
  PyError "RuntimeError"
    ("Failed to initialize ImageJ after " +:+ pretty retries +:+ " attempts.").

(** A platform on which the gateway cannot be created before the given
    attempt, and everything works from then on. *)
Definition ready_from (first : nat) : Startup.Platform :=
  {| Startup.imagej_init := fun attempt _ =>
       if Nat.ltb attempt first
       then Raise (PyError "JVMNotFoundException" "No JVM shared library file (libjvm.so) found.")
       else Ok tt;
     Startup.setHeadless := fun _ => Ok tt;
     Startup.jimport := fun _ _ => Ok tt;
     Startup.getVersion := fun _ => Ok "2.14.0/1.54f" |}.

Definition sample_config : yaml :=
  YDict [(YStr "paths",
          YDict [(YStr "imagej_dir", YStr "/opt/Fiji.app");
                 (YStr "bioformats_dir", YStr "/opt/Fiji.app/jars/bio-formats");
                 (YStr "macro_template", YStr "/app/headless_macro_template.ijm")]);
         (YStr "app", YDict [(YStr "debug", YBool false); (YStr "name", YNull)])].

(** *** Paths *)

(** A string free of the separator: splitting it gives the string itself. *)
Definition free_of (sep : ascii) (l : string) : Prop := Py.split sep l = [l].

(** A component of a path: not empty, not a dot, free of slashes. *)
Definition component (p : string) : Prop :=
  p <> EmptyString /\ p <> "." /\ free_of Py.SLASH p.

(** The path lies in the tree of [root_dir]: its canonical form is the one
    of [root_dir] or lies under it. *)
Definition in_tree (fs : FileSystem) (root_dir path : string) : bool :=
  match Path.below (resolve fs root_dir) (realpath fs path) with
  | Some _ => true
  | None => false
  end.

(** An absolute path in normal form: one slash in front, no empty
    component, no dot and no two dots. *)
Definition normal_path (path : string) : Prop :=
  Py.startswith "/" path = true /\ Py.startswith "//" path = false
  /\ os_path_normpath path = path.

(** A disk without symbolic links: every absolute path in normal form is
    its own canonical form. *)
Definition without_links (fs : FileSystem) : Prop :=
  forall path, normal_path path -> realpath fs path = path.

(** *** The request handlers *)

(** The server with another world, and after a rollback of its session. *)
Definition on_world (s : Server) (w : World) : Server :=
  {| world := w; db := db s; rmtree_tasks := rmtree_tasks s |}.
Definition rolled_back (s : Server) : Server :=
  {| world := world s; db := Db.rollback (db s); rmtree_tasks := rmtree_tasks s |}.

Definition result_filename (r : UploadResult) : string :=
  match r with
  | Processed filename _ _ _ _ => filename
  | NotProcessed filename _ => filename
  end.
Definition not_processed (r : UploadResult) : bool :=
  match r with NotProcessed _ _ => true | Processed _ _ _ _ _ => false end.

Definition ResultsArchive (zip_path : string) : Response :=
  StreamingResponse zip_path "application/zip"
    [("Content-Disposition", "attachment; filename=results.zip")].

(** The script the request asks to run, if it asks for one. *)
Definition wants_macro (execute_macro : bool) (macro_script : option string) : option string :=
  match macro_script with
  | Some script => if execute_macro && Py.truthy script then Some script else None
  | None => None
  end.

(** The failures the two lookups by file name end in. *)
Definition DeleteFailed : exn := HTTPException 500 "Error deleting image.".

Definition PreviewFailed : exn := HTTPException 500 "Error generating image preview.".

(** An image service that takes TIFF files only: it writes the preview
    beside the original, and names the image after the file alone. *)
Definition sample_image_service : ImageService :=
  {| process_image := fun original_path filename =>
       if Py.endswith ".tif" filename then
         let preview_path := original_path +:+ ".png" in
         _ <- update_disk (fun fs =>
                open_for_writing fs (Path.make preview_path) (File "PNG")) ;;
         ret {| pd_metadata := []; pd_preview_path := preview_path;
                pd_original_path := original_path; pd_file_type := "tif";
                pd_unique_filename := "0000_" +:+ filename |}
       else raise (HTTPException 500 "Failed to process image: not an image");
     generate_image_preview := fun file_path =>
       on_disk (fun fs =>
         if is_file fs file_path then Ok "data:image/png;base64,UE5H"
         else Raise (HTTPException 500 "Failed to generate image preview: no file")) |}.

Definition sample_handler : ImageRouteHandler :=
  {| image_service := sample_image_service; imagej_service := sample_service |}.

Definition sample_row : Db.ImageMetadata :=
  {| Db.file_name := "0000_cells.tif"; Db.image_metadata := [];
     Db.original_path := "/data/cells.tif"; Db.preview_path := "/data/previews";
     Db.file_type := "tif" |}.

(** A server whose table holds one row; the preview path of the row is a
    directory. *)
Definition sample_server : Server :=
  {| world := {| disk := plain_disk [("/tmp", Dir 4096); ("/data", Dir 4096);
                                     ("/data/cells.tif", File "IMG");
                                     ("/data/previews", Dir 4096)];
                 ij_log := EmptyString; background_tasks := [];
                 temp_dirs_made := 0; others := quiet |};
     db := {| Db.table := [sample_row]; Db.pending := []; Db.rollbacks := 0 |};
     rmtree_tasks := [] |}.

(** The bytes of the chunks, one after the other. *)
Definition joined (chunks : list string) : string :=
  fold_right String.append EmptyString chunks.

(** *** The preview of an upload *)

(** The step ends, whatever the state it starts in, with an outcome and in
    a state that satisfy [Q]; it makes no directory and schedules nothing. *)
Definition runs {A : Type} (m : Preview.T A) (Q : result A -> Preview.State -> Prop) : Prop :=
  forall s, exists r s',
    m s = Some (r, s')
    /\ Preview.temp_dirs_made s' = Preview.temp_dirs_made s
    /\ Preview.background_tasks s' = Preview.background_tasks s
    /\ Q r s'.

(** The log of the preview macro held, at some instant, a text whose last
    declaration of a preview path is the given one. *)
Definition declared_preview (env : Preview.Env) (output_log_path preview_path : string) : Prop :=
  exists t text,
    read_text (Preview.disk_at env t) output_log_path = Ok text
    /\ last_declared "PREVIEW_PATH:" (Py.strip text) = Some preview_path.

(** What a run of the preview macro that returns has found. *)
Definition preview_found (env : Preview.Env) (output_log_path : string)
    (r : result (list (string * string) * string)) (s : Preview.State) : Prop :=
  match r with
  | Ok (metadata, preview_path) =>
      path_exists (Preview.disk_at env (Preview.now s)) preview_path = true
      /\ declared_preview env output_log_path preview_path
      /\ exists classes, Startup.get_imagej_objects (Preview.engine env) = Ok classes
  | Raise _ => True
  end.

(** What leaves the handler of [run_preview_macro] for the exception [cause]:
    the [HTTPException] made of it, or what reading the log raised. *)
Definition preview_failure (env : Preview.Env) (output_log_path : string) (cause : exn)
    (e : exn) (s : Preview.State) : Prop :=
  e = HTTPException 500 ("Failed to generate preview: " +:+ str_exn cause)
  \/ read_text (Preview.disk_at env (Preview.now s)) output_log_path = Raise e.

(** An engine that has been started. *)
Definition started_engine : Startup.State :=
  snd (Startup.initialize (ready_from 1) sample_config 3 2 Startup.fresh).

(** A disk with the upload, and with what the macro has written so far. *)
Definition preview_disk (log preview : list (string * node)) : FileSystem :=
  plain_disk ([("/tmp", Dir 4096); ("/tmp/tmp0", Dir 4096); ("/data", Dir 4096);
               ("/data/cells.tif", File "IMG")] ++ log ++ preview).

(** An image service whose macro takes half a second to return. *)
Definition sample_env (engine : Startup.State) (disk_at : Timeline) : Preview.Env :=
  {| Preview.disk_at := disk_at;
     Preview.engine := engine;
     Preview._load_macro_template := fun _ input_path _ _ output_log_path =>
       Ok ("open(" +:+ input_path +:+ "); log(" +:+ output_log_path +:+ ");");
     Preview.runMacro := fun _ t => (Ok None, (t + 500)%Z);
     Preview.to_python := fun output => Ok output;
     Preview.uuid4 := "6f1c" |}.

(** The log of the macro is written after two seconds, the preview it
    declares after four. *)
Definition writing_engine : Timeline :=
  fun t =>
    preview_disk
      (if (2000 <=? t)%Z
       then [("/tmp/tmp0/output_log.txt",
              File ("PREVIEW_PATH: /data/6f1c_cells.png" +:+ NL))]
       else [])
      (if (4000 <=? t)%Z then [("/data/6f1c_cells.png", File "PNG")] else []).

(** The state a request starts in. *)
Definition at_start : Preview.State :=
  {| Preview.now := 0; Preview.temp_dirs_made := 0; Preview.background_tasks := [] |}.

(** What [get_imagej_objects] raises. *)
Definition NotInitialized : exn :=
  PyError "RuntimeError" "ImageJ has not been initialized. Call initialize() first.".

(** A log path at which the macro has made a directory. *)
Definition directory_for_log : Timeline :=
  fun _ => preview_disk [("/tmp/tmp0/output_log.txt", Dir 4096)] [].

(** A log that declares no preview. *)
Definition silent_engine : Timeline :=
  fun _ => preview_disk [("/tmp/tmp0/output_log.txt", File "done")] [].

(** * Part II: properties *)

(** ** Facts about the string primitives *)

#[local] Arguments Ascii.eqb : simpl never.

Example replace_leftmost_non_overlapping :
  Py.replace "//" "/" "a///b" = "a//b"
  /\ Py.replace "```" EmptyString "a`````b" = "a``b"
  /\ Py.replace "ab" "x" "aabab" = "axx".
Proof. repeat split. Qed.

Example strip_and_split :
  Py.strip ("  // x " +:+ NL) = "// x"
  /\ Py.split Py.LF ("a" +:+ NL +:+ NL +:+ "b") = ["a"; EmptyString; "b"]
  /\ Py.join NL ["a"; "b"] = "a" +:+ NL +:+ "b"
  /\ Py.split_whitespace " my  image.tif " = ["my"; "image.tif"].
Proof. repeat split. Qed.

Example paths :
  Path.make "/tmp//job/./Images/" = "/tmp/job/Images"
  /\ Path.parent "/tmp/job/results.zip" = "/tmp/job"
  /\ Path.joinpath "/tmp/job" "output_log.txt" = "/tmp/job/output_log.txt"
  /\ os_path_join "/tmp/job" "a.tif" = "/tmp/job/a.tif"
  /\ os_path_splitext_0 "cells.ome.tif" = "cells.ome"
  /\ os_path_splitext_0 ".hidden" = ".hidden"
  /\ secure_filename_ascii "my image (1).tif" = "my_image_1.tif"
  /\ secure_filename_ascii "../../etc/passwd" = "etc_passwd".
Proof. repeat split. Qed.

Lemma append_nil_l (s : string) : EmptyString +:+ s = s.
Proof. reflexivity. Qed.

Lemma append_cons (c : ascii) (s t : string) : String c s +:+ t = String c (s +:+ t).
Proof. reflexivity. Qed.

Lemma append_nil_r (s : string) : s +:+ EmptyString = s.
Proof. induction s as [|c s IH]; [reflexivity|]. rewrite append_cons, IH. reflexivity. Qed.

Lemma append_assoc (a b c : string) : (a +:+ b) +:+ c = a +:+ b +:+ c.
Proof. induction a as [|x a IH]; [reflexivity|]. rewrite !append_cons, IH. reflexivity. Qed.

Lemma contains_cons (p : string) (c : ascii) (s : string) :
  Py.contains p (String c s) = Py.startswith p (String c s) || Py.contains p s.
Proof. reflexivity. Qed.

Lemma split_nonnil (sep : ascii) (s : string) : Py.split sep s <> [].
Proof.
  destruct s as [|c s]; simpl; [discriminate|].
  destruct (Ascii.eqb c sep); [discriminate|].
  destruct (Py.split sep s); discriminate.
Qed.

Lemma join_cons_cons (sep p q : string) (rest : list string) :
  Py.join sep (p :: q :: rest) = p +:+ sep +:+ Py.join sep (q :: rest).
Proof. reflexivity. Qed.

Lemma join_cons_char (sep : string) (c : ascii) (l : string) (ls : list string) :
  Py.join sep (String c l :: ls) = String c (Py.join sep (l :: ls)).
Proof. destruct ls; reflexivity. Qed.

(** Splitting on line feeds and joining with a line feed gives the text back. *)
Lemma join_split (s : string) : Py.join NL (Py.split Py.LF s) = s.
Proof.
  induction s as [|c s IH]; [reflexivity|].
  simpl Py.split. destruct (Ascii.eqb_spec c Py.LF) as [->|Hc].
  - destruct (Py.split Py.LF s) as [|l ls] eqn:E; [now apply split_nonnil in E|].
    rewrite join_cons_cons, IH. reflexivity.
  - destruct (Py.split Py.LF s) as [|l ls] eqn:E; [now apply split_nonnil in E|].
    rewrite join_cons_char, IH. reflexivity.
Qed.

Lemma one_line_cons (c : ascii) (l : string) :
  c <> Py.LF -> one_line l -> one_line (String c l).
Proof.
  unfold one_line. intros Hc Hl. simpl.
  destruct (Ascii.eqb_spec c Py.LF); [contradiction|]. rewrite Hl. reflexivity.
Qed.

Lemma one_line_inv (c : ascii) (l : string) :
  one_line (String c l) -> c <> Py.LF /\ one_line l.
Proof.
  unfold one_line. simpl. destruct (Ascii.eqb_spec c Py.LF) as [->|Hc].
  - intros H. injection H as _ H. now apply split_nonnil in H.
  - destruct (Py.split Py.LF l) as [|x xs] eqn:E; [now apply split_nonnil in E|].
    intros H. injection H as -> ->. split; [assumption|reflexivity].
Qed.

Lemma split_lines_one_line (s : string) : Forall one_line (Py.split Py.LF s).
Proof.
  induction s as [|c s IH]; simpl.
  - constructor; [reflexivity|constructor].
  - destruct (Ascii.eqb_spec c Py.LF) as [->|Hc].
    + constructor; [reflexivity|assumption].
    + destruct (Py.split Py.LF s) as [|l ls]; [constructor; [|constructor]|].
      * apply one_line_cons; [assumption|reflexivity].
      * inversion IH; subst. constructor; [|assumption].
        now apply one_line_cons.
Qed.

Lemma split_app_lf (a b : string) :
  one_line a -> Py.split Py.LF (a +:+ String Py.LF b) = a :: Py.split Py.LF b.
Proof.
  induction a as [|c a IH]; intros Ha.
  - reflexivity.
  - apply one_line_inv in Ha as [Hc Ha]. rewrite append_cons. simpl.
    destruct (Ascii.eqb_spec c Py.LF); [contradiction|].
    rewrite (IH Ha). reflexivity.
Qed.

(** Joining lines and splitting again gives the lines back. *)
Lemma split_join (ls : list string) :
  ls <> [] -> Forall one_line ls -> Py.split Py.LF (Py.join NL ls) = ls.
Proof.
  induction ls as [|p [|q rest] IH]; intros Hne Hall.
  - contradiction.
  - inversion Hall; subst. assumption.
  - inversion Hall as [|? ? Hp Hrest]; subst.
    rewrite join_cons_cons. unfold NL at 1. rewrite append_cons, append_nil_l.
    rewrite split_app_lf by assumption.
    rewrite IH; [reflexivity|discriminate|assumption].
Qed.

(** *** Code fences *)

(** A fence cannot straddle a line feed. *)
Lemma startswith_fence_app_lf (a b : string) :
  Py.startswith FENCE (a +:+ String Py.LF b) = Py.startswith FENCE a.
Proof.
  destruct a as [|x [|y [|z a]]]; rewrite ?append_cons, ?append_nil_l; simpl;
    repeat match goal with |- context [Ascii.eqb ?u ?v] => destruct (Ascii.eqb u v) end;
    reflexivity.
Qed.

Lemma contains_fence_app_lf (a b : string) :
  Py.contains FENCE (a +:+ String Py.LF b) = Py.contains FENCE a || Py.contains FENCE b.
Proof.
  induction a as [|x a IH].
  - rewrite append_nil_l. reflexivity.
  - rewrite append_cons, !contains_cons, IH, <- append_cons.
    rewrite startswith_fence_app_lf. apply orb_assoc.
Qed.

Lemma contains_fence_join (ls : list string) :
  Py.contains FENCE (Py.join NL ls) = existsb (Py.contains FENCE) ls.
Proof.
  induction ls as [|p [|q rest] IH].
  - reflexivity.
  - simpl. now rewrite orb_false_r.
  - rewrite join_cons_cons. unfold NL at 1. rewrite append_cons, append_nil_l.
    rewrite contains_fence_app_lf, IH. reflexivity.
Qed.

(** Removing the fences leaves none behind: the three clauses follow the
    number of backticks (none, one, two) written just before the rest of the
    text is treated. *)
Lemma replace_fence_invariant (s : string) :
  (forall skip, Py.contains FENCE (Py.replace_from skip FENCE EmptyString s) = false)
  /\ (Py.startswith "``" s = false ->
      Py.contains FENCE ("`" +:+ Py.replace_from 0 FENCE EmptyString s) = false)
  /\ (Py.startswith "`" s = false ->
      Py.contains FENCE ("``" +:+ Py.replace_from 0 FENCE EmptyString s) = false).
Proof.
  induction s as [|c s (IHa & IHb & IHc)].
  - split; [intros skip; reflexivity|split; intros _; reflexivity].
  - assert (Hstep : forall r, c <> "`"%char ->
              Py.contains FENCE (String c r) = Py.contains FENCE r).
    { intros r Hc. rewrite contains_cons. simpl.
      destruct (Ascii.eqb_spec "`" c); [congruence|]. reflexivity. }
    split; [|split].
    + intros [|k]; [|apply IHa].
      cbn [Py.replace_from]. destruct (Py.startswith FENCE (String c s)) eqn:Hp.
      * rewrite append_nil_l. apply IHa.
      * destruct (Ascii.eqb_spec "`" c) as [<-|Hc].
        -- apply IHb. simpl in Hp. exact Hp.
        -- rewrite Hstep by congruence. apply IHa.
    + intros Hp. cbn [Py.replace_from].
      assert (Py.startswith FENCE (String c s) = false) as ->.
      { simpl in *. destruct (Ascii.eqb "`" c); [|reflexivity].
        simpl in *. destruct s as [|d s]; [reflexivity|].
        destruct (Ascii.eqb "`" d); [discriminate|reflexivity]. }
      destruct (Ascii.eqb_spec "`" c) as [<-|Hc].
      * apply IHc. simpl in Hp. exact Hp.
      * rewrite append_cons, append_nil_l, contains_cons.
        rewrite Hstep by congruence. rewrite IHa, orb_false_r.
        simpl. destruct (Ascii.eqb_spec "`" c); [congruence|reflexivity].
    + intros Hp. cbn [Py.replace_from].
      assert (Hc : c <> "`"%char).
      { simpl in Hp. destruct (Ascii.eqb_spec "`" c); [discriminate|congruence]. }
      assert (Py.startswith FENCE (String c s) = false) as ->.
      { simpl. destruct (Ascii.eqb_spec "`" c); [congruence|reflexivity]. }
      rewrite !append_cons, append_nil_l, contains_cons, contains_cons.
      rewrite Hstep by congruence. rewrite IHa, !orb_false_r.
      simpl. destruct (Ascii.eqb_spec "`" c); [congruence|reflexivity].
Qed.

Lemma replace_fence_no_fence (s : string) :
  Py.contains FENCE (Py.replace FENCE EmptyString s) = false.
Proof. apply (replace_fence_invariant s). Qed.


(** ** Section cleaning (atlas_service.py) *)

Example clean_script_fenced :
  clean_section_content "macro_script"
    ("```javascript" +:+ NL +:+ "setBatchMode(true);" +:+ NL +:+ "```")
  = "// Generated ImageJ Macro" +:+ NL +:+ "setBatchMode(true);".
Proof. vm_compute. reflexivity. Qed.

Example clean_script_keeps_leading_comment :
  clean_section_content "macro_script"
    ("```javascript" +:+ NL +:+ "  // count nuclei" +:+ NL +:+ NL +:+ "run();" +:+ NL +:+ "```")
  = "  // count nuclei" +:+ NL +:+ "run();".
Proof. vm_compute. reflexivity. Qed.

Lemma clean_script_unfold (content : string) :
  clean_section_content "macro_script" content =
  Py.join NL
    match surviving_lines content with
    | [] => []
    | first :: rest =>
        if comment_line first then first :: rest
        else SYNTHETIC_COMMENT :: first :: rest
    end.
Proof.
  unfold clean_section_content, surviving_lines, comment_line, blank_line.
  cbn [String.eqb Ascii.eqb Bool.eqb].
  erewrite (filter_ext _ (fun l => negb (negb (Py.truthy (Py.strip l)))));
    [|intros a; now rewrite negb_involutive].
  match goal with |- context [List.filter ?f ?l] => destruct (List.filter f l) as [|first rest] end;
    [reflexivity|].
  destruct (Py.startswith "//" (Py.strip first)); reflexivity.
Qed.

Lemma surviving_lines_spec (content : string) :
  Forall (fun l => one_line l /\ blank_line l = false /\ Py.contains FENCE l = false)
    (surviving_lines content).
Proof.
  unfold surviving_lines.
  set (t := Py.replace "```javascript" _ _).
  pose proof (replace_fence_no_fence t) as Hnf.
  rewrite <- (join_split (Py.replace FENCE EmptyString t)), contains_fence_join in Hnf.
  pose proof (split_lines_one_line (Py.replace FENCE EmptyString t)) as Hol.
  change "```" with FENCE.
  induction (Py.split Py.LF (Py.replace FENCE EmptyString t)) as [|l ls IH]; [constructor|].
  simpl in Hnf. apply orb_false_iff in Hnf as [Hl Hls].
  inversion Hol; subst. simpl.
  destruct (blank_line l) eqn:Hb; simpl; [now apply IH|].
  constructor; [now repeat split|now apply IH].
Qed.

(** C8.  Cleaning the content of a script section ([macro_script]) leaves no
    code fence in the result; the result is the surviving lines (fences and
    markers removed, blank lines dropped) joined by line feeds, preceded by
    the synthetic comment line exactly when the first surviving line is not a
    comment line (a line whose first non-blank characters are the comment
    marker); so a non-empty result has no blank line and begins with a comment
    line. *)
Theorem clean_script_section_no_fence_comment_first (content : string) :
  let cleaned := clean_section_content "macro_script" content in
  Py.contains "```" cleaned = false
  /\ Py.contains "```javascript" cleaned = false
  /\ match surviving_lines content with
     | [] => cleaned = EmptyString
     | first :: rest =>
         cleaned = Py.join NL (if comment_line first then first :: rest
                               else SYNTHETIC_COMMENT :: first :: rest)
     end
  /\ (cleaned = EmptyString
      \/ exists first rest,
           Py.split Py.LF cleaned = first :: rest
           /\ comment_line first = true
           /\ Forall (fun l => blank_line l = false) (first :: rest)).
Proof.
  cbv zeta. rewrite clean_script_unfold.
  pose proof (surviving_lines_spec content) as Hs.
  assert (Hfence : forall ls,
             Forall (fun l => one_line l /\ blank_line l = false
                              /\ Py.contains FENCE l = false) ls ->
             Py.contains FENCE (Py.join NL ls) = false).
  { intros ls Hls. rewrite contains_fence_join.
    induction Hls as [|l ls' (_ & _ & Hl) _ IH]; [reflexivity|].
    simpl. now rewrite Hl, IH. }
  assert (Hsyn : one_line SYNTHETIC_COMMENT /\ blank_line SYNTHETIC_COMMENT = false
                 /\ Py.contains FENCE SYNTHETIC_COMMENT = false)
    by (repeat split; vm_compute; reflexivity).
  assert (Hjs : forall s, Py.contains FENCE s = false ->
                          Py.contains "```javascript" s = false).
  { intros s. induction s as [|c s IH]; [reflexivity|].
    rewrite !contains_cons. intros [H1 H2]%orb_false_iff.
    rewrite (IH H2), orb_false_r.
    destruct (Py.startswith "```javascript" (String c s)) eqn:E; [|reflexivity].
    rewrite <- H1. change "```javascript" with (FENCE +:+ "javascript") in E.
    clear -E. revert E. generalize (String c s). unfold FENCE.
    intros [|x [|y [|z r]]]; simpl; try discriminate;
      repeat (destruct (Ascii.eqb _ _); simpl; try discriminate); reflexivity. }
  destruct (surviving_lines content) as [|first rest] eqn:E.
  - repeat split; try reflexivity. now left.
  - set (ls := if comment_line first then first :: rest
               else SYNTHETIC_COMMENT :: first :: rest).
    assert (Hls : Forall (fun l => one_line l /\ blank_line l = false
                                   /\ Py.contains FENCE l = false) ls).
    { unfold ls. destruct (comment_line first); [assumption|now constructor]. }
    assert (Hne : ls <> []) by (unfold ls; destruct (comment_line first); discriminate).
    change "```" with FENCE.
    split; [now apply Hfence|]. split; [now apply Hjs, Hfence|]. split; [reflexivity|].
    right. rewrite split_join; [|assumption|].
    2:{ eapply Forall_impl; [exact Hls|]. now intros ? (? & _). }
    unfold ls. destruct (comment_line first) eqn:Hc.
    + exists first, rest. repeat split; [assumption|].
      eapply Forall_impl; [exact Hs|]. now intros ? (_ & ? & _).
    + exists SYNTHETIC_COMMENT, (first :: rest). repeat split.
      constructor; [reflexivity|].
      eapply Forall_impl; [exact Hs|]. now intros ? (_ & ? & _).
Qed.

(** ** The section parser (atlas_service.py) *)

Lemma yielded_try_except {A : Type} (g : gen A) (h : exn -> gen A) :
  yielded (try_except g h) =
  yielded g ++ match raised g with Some e => yielded (h e) | None => [] end.
Proof.
  induction g as [|e|a k IH]; simpl.
  - reflexivity.
  - reflexivity.
  - now rewrite IH.
Qed.

Lemma raised_try_except {A : Type} (g : gen A) (h : exn -> gen A) :
  raised (try_except g h) =
  match raised g with Some e => raised (h e) | None => None end.
Proof. induction g as [|e|a k IH]; simpl; auto. Qed.

Lemma yielded_yield_from {A : Type} (xs : list A) (k : gen A) :
  yielded (yield_from xs k) = xs ++ yielded k.
Proof. induction xs as [|x xs IH]; simpl; [reflexivity|now rewrite IH]. Qed.

Lemma raised_yield_from {A : Type} (xs : list A) (k : gen A) :
  raised (yield_from xs k) = raised k.
Proof. induction xs as [|x xs IH]; simpl; auto. Qed.

Lemma raised_deltas_then (ds : list string) (k : gen BackendEvent) :
  raised (deltas_then ds k) = raised k.
Proof. induction ds; simpl; auto. Qed.

Lemma deltas_then_app (ds1 ds2 : list string) (k : gen BackendEvent) :
  deltas_then (ds1 ++ ds2) k = deltas_then ds1 (deltas_then ds2 k).
Proof. induction ds1 as [|d ds1 IH]; simpl; [reflexivity|now rewrite IH]. Qed.

(** *** When a delta triggers a transition *)

Lemma transition_on_description_marker (d cur : string) :
  has_description_marker d = true -> handle_section_transition d cur = true.
Proof. unfold handle_section_transition, has_description_marker. now intros ->. Qed.

Lemma transition_on_explanation_marker (d cur : string) :
  has_explanation_marker d = true -> handle_section_transition d cur = true.
Proof.
  unfold handle_section_transition, has_explanation_marker. intros ->.
  destruct (Py.contains "[DESCRIPTION]" d); [reflexivity|].
  destruct (_ && _); reflexivity.
Qed.

Lemma no_transition_marker_free (d cur : string) :
  marker_free d -> handle_section_transition d cur = false.
Proof.
  unfold marker_free, no_section_marker, has_description_marker,
    has_explanation_marker, has_fence, handle_section_transition.
  intros ((-> & ->) & ->). reflexivity.
Qed.

Lemma no_transition_outside_description (d cur : string) :
  no_section_marker d -> String.eqb cur "description" = false ->
  handle_section_transition d cur = false.
Proof.
  unfold no_section_marker, has_description_marker, has_explanation_marker,
    handle_section_transition.
  intros (-> & ->) ->. now rewrite andb_false_r.
Qed.

(** *** Unfolding the loop *)

Lemma consume_messages (ds : list string) :
  forall (k : gen BackendEvent) (cur acc : string),
    Forall (fun d => handle_section_transition d cur = false) ds ->
    consume_stream (deltas_then ds k) cur acc =
    yield_from (map (fun d => message d cur) ds)
               (consume_stream k cur (acc +:+ concat_deltas ds)).
Proof.
  induction ds as [|d ds IH]; intros k cur acc Hds.
  - simpl. now rewrite append_nil_r.
  - inversion Hds as [|? ? Hd Hrest]; subst.
    cbn [deltas_then consume_stream map yield_from concat_deltas fold_right].
    rewrite Hd, IH by assumption. now rewrite append_assoc.
Qed.

Lemma consume_transition (d : string) (k : gen BackendEvent) (cur acc next : string) :
  handle_section_transition d cur = true ->
  get_next_section cur = Ok next ->
  consume_stream (Yield (ContentBlockDeltaEvent d) k) cur acc =
  Yield (section_change cur (Py.strip (clean_section_content cur (acc +:+ d))))
        (consume_stream k next EmptyString).
Proof. intros Ht Hn. cbn [consume_stream]. rewrite Ht, Hn. reflexivity. Qed.

Lemma section_changes_app (a b : list Event) :
  section_changes (a ++ b) = section_changes a ++ section_changes b.
Proof. unfold section_changes. now rewrite List.filter_app, map_app. Qed.

Lemma section_changes_messages (ds : list string) (cur : string) :
  section_changes (map (fun d => message d cur) ds) = [].
Proof. induction ds; [reflexivity|assumption]. Qed.

Lemma count_kind_app (kind : string) (a b : list Event) :
  count_kind kind (a ++ b) = count_kind kind a + count_kind kind b.
Proof. unfold count_kind. now rewrite List.filter_app, length_app. Qed.

Lemma count_complete_messages (ds : list string) (cur : string) :
  count_kind "complete" (map (fun d => message d cur) ds) = 0.
Proof. induction ds; [reflexivity|assumption]. Qed.

Create Rewrite HintDb events.
#[global] Hint Rewrite section_changes_app section_changes_messages
  count_kind_app count_complete_messages : events.

(** Splits a list of events written with conses into singletons, for the
    rewriting rules above to apply. *)
Ltac split_events f :=
  repeat first
    [ progress autorewrite with events
    | match goal with
      | |- context [f (?x :: ?l)] =>
          lazymatch l with
          | [] => fail
          | _ => change (x :: l) with ([x] ++ l)
          end
      end ].

(** The whole run for a stream whose markers arrive in the prompted order,
    each in a delta of its own. *)
Lemma generate_trace_ordered_markers
    (client : Client) (prompt : string)
    (pre mid1 mid2 post : list string) (dD dF dE : string) :
  client MACRO_GENERATION_PROMPT (macro_user_prompt prompt)
  = Ok (deltas_then (pre ++ dD :: mid1 ++ dF :: mid2 ++ dE :: post) Return) ->
  Forall marker_free pre ->
  has_description_marker dD = true ->
  Forall no_section_marker (mid1 ++ dF :: mid2) ->
  has_explanation_marker dE = true ->
  Forall no_section_marker post ->
  raised (generate_macro_from_prompt client prompt) = None
  /\ yielded (generate_macro_from_prompt client prompt) =
     section_change "description" EmptyString
     :: map (fun d => message d "description") pre
     ++ section_change "description"
          (Py.strip (clean_section_content "description" (concat_deltas pre +:+ dD)))
     :: map (fun d => message d "macro_script") (mid1 ++ dF :: mid2)
     ++ section_change "macro_script"
          (Py.strip (clean_section_content "macro_script"
                       (concat_deltas (mid1 ++ dF :: mid2) +:+ dE)))
     :: map (fun d => message d "explanation") post
     ++ (if Py.truthy (concat_deltas post)
         then [section_change "explanation"
                 (clean_section_content "explanation" (Py.strip (concat_deltas post)))]
         else [])
     ++ [complete].
Proof.
  intros Hc Hpre HD Hmid HE Hpost.
  assert (Hg : generate_macro_from_prompt client prompt =
    try_except
      (Yield (section_change "description" EmptyString)
         (yield_from (map (fun d => message d "description") pre)
           (Yield (section_change "description"
                    (Py.strip (clean_section_content "description"
                                 (concat_deltas pre +:+ dD))))
             (yield_from (map (fun d => message d "macro_script") (mid1 ++ dF :: mid2))
               (Yield (section_change "macro_script"
                         (Py.strip (clean_section_content "macro_script"
                                      (concat_deltas (mid1 ++ dF :: mid2) +:+ dE))))
                 (yield_from (map (fun d => message d "explanation") post)
                    (consume_stream Return "explanation" (concat_deltas post))))))))
      macro_except).
  { unfold generate_macro_from_prompt. cbv zeta. rewrite Hc.
    do 2 f_equal.
    rewrite deltas_then_app. rewrite consume_messages.
    2:{ eapply Forall_impl; [exact Hpre|]. intros d Hd. now apply no_transition_marker_free. }
    f_equal. cbn [deltas_then].
    rewrite (consume_transition dD _ "description" _ "macro_script");
      [|now apply transition_on_description_marker|reflexivity].
    rewrite append_nil_l. f_equal.
    change (mid1 ++ dF :: mid2 ++ dE :: post) with (mid1 ++ (dF :: mid2) ++ dE :: post).
    rewrite app_assoc, deltas_then_app, consume_messages.
    2:{ eapply Forall_impl; [exact Hmid|]. intros d Hd.
        now apply no_transition_outside_description. }
    f_equal. cbn [deltas_then].
    rewrite (consume_transition dE _ "macro_script" _ "explanation");
      [|now apply transition_on_explanation_marker|reflexivity].
    rewrite append_nil_l. f_equal.
    rewrite consume_messages.
    2:{ eapply Forall_impl; [exact Hpost|]. intros d Hd.
        now apply no_transition_outside_description. }
    now rewrite append_nil_l. }
  rewrite Hg, raised_try_except, yielded_try_except.
  cbn [raised yielded]. rewrite !raised_yield_from. cbn [raised].
  rewrite !raised_yield_from. cbn [raised]. rewrite !raised_yield_from.
  rewrite !yielded_yield_from. cbn [yielded]. rewrite !yielded_yield_from.
  cbn [yielded]. rewrite !yielded_yield_from.
  cbn [consume_stream].
  destruct (Py.truthy (concat_deltas post)); cbn [raised yielded];
    (split; [reflexivity|]); rewrite app_nil_r; reflexivity.
Qed.

(** C10.  When the backend opens, the run of [generate_macro_from_prompt]
    begins with one [section_change] event for the section description with
    empty content, whatever the stream delivers afterwards (no delta has been
    consumed yet); when the backend fails to open, the run is the error event
    alone.  Hence every run that ends without an exception begins with that
    initial event. *)
Theorem generate_macro_initial_section_change (client : Client) (prompt : string) :
  match client MACRO_GENERATION_PROMPT (macro_user_prompt prompt) with
  | Ok stream =>
      generate_macro_from_prompt client prompt =
      Yield (section_change "description" EmptyString)
            (try_except (consume_stream stream "description" EmptyString) macro_except)
  | Raise e =>
      generate_macro_from_prompt client prompt = macro_except e
  end
  /\ (raised (generate_macro_from_prompt client prompt) = None ->
      exists rest,
        yielded (generate_macro_from_prompt client prompt) =
        section_change "description" EmptyString :: rest).
Proof.
  unfold generate_macro_from_prompt. cbv zeta.
  destruct (client MACRO_GENERATION_PROMPT (macro_user_prompt prompt)) as [stream|e].
  - split; [reflexivity|]. intros _. cbn [try_except yielded]. eauto.
  - split; [reflexivity|]. cbn. discriminate.
Qed.

Example initial_event_precedes_first_delta :
  yielded (generate_macro_from_prompt
             (serving (deltas_then ["Counts nuclei."] Return)) "count nuclei")
  = [section_change "description" EmptyString;
     message "Counts nuclei." "description";
     section_change "description" "Counts nuclei.";
     complete].
Proof. vm_compute. reflexivity. Qed.

(** C3, as stated, fails: on a stream with exactly one description marker,
    one code-fence opening and one explanation marker, the parser emits four
    [section_change] events (description twice), not three. *)
Lemma section_parser_emits_four_section_changes :
  let deltas := ["[DESCRIPTION] Counts the nuclei.";
                 "```javascript run(Analyze);";
                 "[EXPLANATION] Thresholds first.";
                 " Then counts."] in
  let evs := yielded (generate_macro_from_prompt
                        (serving (deltas_then deltas Return)) "count nuclei") in
  count "[DESCRIPTION]" (concat_deltas deltas) = 1
  /\ count "```" (concat_deltas deltas) = 1
  /\ count "[EXPLANATION]" (concat_deltas deltas) = 1
  /\ map fst (section_changes evs)
     = ["description"; "description"; "macro_script"; "explanation"]
  /\ count_kind "section_change" evs = 4
  /\ count_kind "complete" evs = 1.
Proof. vm_compute. repeat split; reflexivity. Qed.

(** C3, amended.  For a stream whose first marker delta carries the
    description marker (only marker-free deltas before it), followed later by
    a code-fence delta and then by a delta carrying the explanation marker,
    with no section marker in any other delta: the run ends normally and its
    [section_change] events are, in order, the initial empty description
    event, the description section (closed by the description-marker delta),
    the macro_script section (closed by the explanation-marker delta; the
    fence does not close a section) and, exactly when content is accumulated
    after the explanation-marker delta, the explanation section with that
    content cleaned; one [complete] event closes the run. *)
Theorem section_parser_ordered_markers
    (client : Client) (prompt : string)
    (pre mid1 mid2 post : list string) (dD dF dE : string) :
  client MACRO_GENERATION_PROMPT (macro_user_prompt prompt)
  = Ok (deltas_then (pre ++ dD :: mid1 ++ dF :: mid2 ++ dE :: post) Return) ->
  Forall marker_free pre ->
  has_description_marker dD = true ->
  Forall no_section_marker mid1 ->
  has_fence dF = true -> no_section_marker dF ->
  Forall no_section_marker mid2 ->
  has_explanation_marker dE = true ->
  Forall no_section_marker post ->
  let evs := yielded (generate_macro_from_prompt client prompt) in
  raised (generate_macro_from_prompt client prompt) = None
  /\ section_changes evs =
     ("description", EmptyString)
     :: ("description",
         Py.strip (clean_section_content "description" (concat_deltas pre +:+ dD)))
     :: ("macro_script",
         Py.strip (clean_section_content "macro_script"
                     (concat_deltas (mid1 ++ dF :: mid2) +:+ dE)))
     :: (if Py.truthy (concat_deltas post)
         then [("explanation",
                clean_section_content "explanation" (Py.strip (concat_deltas post)))]
         else [])
  /\ exists before,
       evs = before ++ [complete]
       /\ count_kind "complete" before = 0.
Proof.
  intros Hc Hpre HD Hmid1 _ HF Hmid2 HE Hpost evs.
  assert (Hmid : Forall no_section_marker (mid1 ++ dF :: mid2)).
  { apply Forall_app. split; [assumption|]. now constructor. }
  destruct (generate_trace_ordered_markers client prompt pre mid1 mid2 post dD dF dE
              Hc Hpre HD Hmid HE Hpost) as [Hr Hy].
  split; [exact Hr|]. subst evs. rewrite Hy. clear Hy Hr Hc.
  split.
  - split_events section_changes.
    destruct (Py.truthy (concat_deltas post)); reflexivity.
  - exists (section_change "description" EmptyString
            :: map (fun d => message d "description") pre
            ++ section_change "description"
                 (Py.strip (clean_section_content "description"
                              (concat_deltas pre +:+ dD)))
            :: map (fun d => message d "macro_script") (mid1 ++ dF :: mid2)
            ++ section_change "macro_script"
                 (Py.strip (clean_section_content "macro_script"
                              (concat_deltas (mid1 ++ dF :: mid2) +:+ dE)))
            :: map (fun d => message d "explanation") post
            ++ (if Py.truthy (concat_deltas post)
                then [section_change "explanation"
                        (clean_section_content "explanation"
                           (Py.strip (concat_deltas post)))]
                else [])).
    split.
    + repeat (rewrite <- ?app_comm_cons, <- ?app_assoc). reflexivity.
    + split_events (count_kind "complete").
      destruct (Py.truthy (concat_deltas post)); reflexivity.
Qed.

Lemma section_parser_ordered_markers_witness :
  section_changes
    (yielded (generate_macro_from_prompt
                (serving (deltas_then
                            ([] ++ "[DESCRIPTION] Counts the nuclei."
                                :: [] ++ "```javascript"
                                :: [NL +:+ "run(Analyze);" +:+ NL; "```"]
                                ++ "[EXPLANATION]" :: [" Thresholds first."])
                            Return))
                "count nuclei"))
  = [("description", EmptyString);
     ("description", "Counts the nuclei.");
     ("macro_script", "// Generated ImageJ Macro" +:+ NL +:+ "run(Analyze);");
     ("explanation", "Thresholds first.")].
Proof.
  refine (proj1 (proj2
    (section_parser_ordered_markers
       (serving (deltas_then
                   ([] ++ "[DESCRIPTION] Counts the nuclei."
                       :: [] ++ "```javascript"
                       :: [NL +:+ "run(Analyze);" +:+ NL; "```"]
                       ++ "[EXPLANATION]" :: [" Thresholds first."])
                   Return))
       "count nuclei" [] [] [NL +:+ "run(Analyze);" +:+ NL; "```"]
       [" Thresholds first."]
       "[DESCRIPTION] Counts the nuclei." "```javascript" "[EXPLANATION]"
       eq_refl _ _ _ _ _ _ _ _))).
  - constructor.
  - vm_compute. reflexivity.
  - constructor.
  - vm_compute. reflexivity.
  - split; vm_compute; reflexivity.
  - repeat constructor.
  - vm_compute. reflexivity.
  - repeat constructor.
Defined.

(** ** The transport (chat_routes.py) *)

(** The section names the parser moves through. *)
Lemma get_next_section_valid (cur : string) :
  In cur ["description"; "macro_script"; "explanation"] ->
  exists next, get_next_section cur = Ok next
               /\ In next ["description"; "macro_script"; "explanation"].
Proof.
  intros [<-|[<-|[<-|[]]]]; eexists; (split; [reflexivity|]); simpl; auto.
Qed.

(** A stream that raises makes the loop raise the same exception, after
    events that are neither [error] nor [complete]. *)
Lemma consume_stream_raises (stream : gen BackendEvent) (e : exn) :
  raised stream = Some e ->
  forall cur acc,
    In cur ["description"; "macro_script"; "explanation"] ->
    raised (consume_stream stream cur acc) = Some e
    /\ count_kind "error" (yielded (consume_stream stream cur acc)) = 0
    /\ count_kind "complete" (yielded (consume_stream stream cur acc)) = 0.
Proof.
  induction stream as [|e'|ev rest IH]; intros He cur acc Hcur.
  - discriminate.
  - simpl in He. injection He as ->. repeat split.
  - simpl in He. destruct ev as [d|]; cbn [consume_stream]; [|now apply IH].
    destruct (handle_section_transition d cur).
    + destruct (get_next_section_valid cur Hcur) as (next & -> & Hnext).
      unfold process_section_change. cbn [yield_from raised yielded].
      destruct (IH He next EmptyString Hnext) as (H1 & H2 & H3).
      repeat split; [exact H1| |].
      * change (?x :: ?l) with ([x] ++ l). rewrite count_kind_app, H2. reflexivity.
      * change (?x :: ?l) with ([x] ++ l). rewrite count_kind_app, H3. reflexivity.
    + cbn [raised yielded].
      destruct (IH He cur (acc +:+ d) Hcur) as (H1 & H2 & H3).
      repeat split; [exact H1| |].
      * change (?x :: ?l) with ([x] ++ l). rewrite count_kind_app, H2. reflexivity.
      * change (?x :: ?l) with ([x] ++ l). rewrite count_kind_app, H3. reflexivity.
Qed.

(** While the client stays connected every event is forwarded as it is. *)
Lemma forward_macro_connected (request : Request) (events : gen Event) :
  (forall k, is_disconnected request k = false) ->
  forall checks, forward_macro request checks events = events.
Proof.
  intros Hconn. induction events as [|e|ev rest IH]; intros checks; simpl; auto.
  rewrite Hconn, IH. now destruct ev.
Qed.

(** What the generator itself does when the stream raises: the events so
    far, its own [error] event, then an [HTTPException]. *)
Lemma generate_macro_upstream_failure
    (client : Client) (prompt : string) (stream : gen BackendEvent) (e : exn) :
  client MACRO_GENERATION_PROMPT (macro_user_prompt prompt) = Ok stream ->
  raised stream = Some e ->
  raised (generate_macro_from_prompt client prompt)
  = Some (HTTPException 500 "Failed to generate macro script")
  /\ yielded (generate_macro_from_prompt client prompt)
     = section_change "description" EmptyString
       :: yielded (consume_stream stream "description" EmptyString)
       ++ [error (str_exn e)].
Proof.
  intros Hc He.
  destruct (consume_stream_raises stream e He "description" EmptyString)
    as (H1 & _); [simpl; auto|].
  unfold generate_macro_from_prompt. cbv zeta. rewrite Hc.
  rewrite raised_try_except, yielded_try_except.
  cbn [raised yielded]. rewrite H1. split; reflexivity.
Qed.

(** C4 fails on the code.  When the backend stream raises [e] and the client
    stays connected, the client receives the events produced so far (none of
    them [error] or [complete]), then the [error] event carrying [str(e)],
    and then a second [error] event: the generator re-raises an
    [HTTPException] after its own error event and [macro_stream] catches it
    and reports it again. *)
Theorem macro_stream_upstream_failure_two_errors
    (client : Client) (request : Request) (input : string)
    (stream : gen BackendEvent) (e : exn) :
  client MACRO_GENERATION_PROMPT (macro_user_prompt input) = Ok stream ->
  raised stream = Some e ->
  (forall k, is_disconnected request k = false) ->
  let sent := yielded (macro_stream client request input false) in
  raised (macro_stream client request input false) = None
  /\ count_kind "error" sent = 2
  /\ count_kind "complete" sent = 0
  /\ exists before,
       sent = before
              ++ [error (str_exn e);
                  error (str_exn (HTTPException 500 "Failed to generate macro script"))]
       /\ count_kind "error" before = 0.
Proof.
  intros Hc He Hconn sent. subst sent.
  destruct (generate_macro_upstream_failure client input stream e Hc He) as [Hr Hy].
  destruct (consume_stream_raises stream e He "description" EmptyString)
    as (_ & H2 & H3); [simpl; auto|].
  unfold macro_stream. cbv zeta.
  rewrite forward_macro_connected by assumption.
  rewrite raised_try_except, yielded_try_except, Hr, Hy.
  set (yc := yielded (consume_stream stream "description" EmptyString)) in *.
  cbn [raised yielded format_event].
  split; [reflexivity|].
  change (section_change "description" EmptyString :: yc ++ [error (str_exn e)])
    with ([section_change "description" EmptyString] ++ yc ++ [error (str_exn e)]).
  rewrite !count_kind_app, H2, H3.
  split; [reflexivity|]. split; [reflexivity|].
  exists (section_change "description" EmptyString :: yc). split.
  - cbn [app]. rewrite <- !app_assoc. reflexivity.
  - change (?x :: ?l) with ([x] ++ l). rewrite count_kind_app, H2. reflexivity.
Qed.

Lemma macro_stream_upstream_failure_two_errors_witness :
  count_kind "error"
    (yielded (macro_stream
                (serving (deltas_then ["[DESCRIPTION] Counts"]
                            (Throw (PyError "APIStatusError" "Overloaded"))))
                connected "count nuclei" false))
  = 2.
Proof.
  exact (proj1 (proj2
    (macro_stream_upstream_failure_two_errors
       (serving (deltas_then ["[DESCRIPTION] Counts"]
                   (Throw (PyError "APIStatusError" "Overloaded"))))
       connected "count nuclei"
       (deltas_then ["[DESCRIPTION] Counts"]
          (Throw (PyError "APIStatusError" "Overloaded")))
       (PyError "APIStatusError" "Overloaded")
       eq_refl eq_refl (fun _ => eq_refl)))).
Defined.

(** The same run, event by event. *)
Example macro_stream_overloaded_backend :
  yielded (macro_stream
             (serving (deltas_then ["[DESCRIPTION] Counts"]
                         (Throw (PyError "APIStatusError" "Overloaded"))))
             connected "count nuclei" false)
  = [section_change "description" EmptyString;
     section_change "description" "Counts";
     error "Overloaded";
     error "500: Failed to generate macro script"].
Proof. vm_compute. reflexivity. Qed.

(** When the backend fails to open, the same two [error] events are sent. *)
Example macro_stream_open_failure :
  yielded (macro_stream (fun _ _ => Raise (PyError "APIConnectionError" "Connection error."))
             connected "count nuclei" false)
  = [error "Connection error."; error "500: Failed to generate macro script"].
Proof. vm_compute. reflexivity. Qed.

(** The sibling transport [stream_improved_prompt]-style path inside
    [macro_stream]: when the improvement backend raises, exactly one [error]
    event is sent. *)
Example macro_stream_improvement_failure_one_error :
  yielded (macro_stream
             (fun _ _ => Ok (deltas_then ["Count"]
                               (Throw (PyError "APIStatusError" "Overloaded"))))
             connected "count nuclei" true)
  = [format_event "improved_prompt_chunk" [("chunk", "Count")];
     error "500: Failed to generate improved prompt"].
Proof. vm_compute. reflexivity. Qed.

(** A client that disconnects receives nothing further, also no error. *)
Example macro_stream_disconnected_is_silent :
  yielded (macro_stream
             (serving (deltas_then ["[DESCRIPTION] Counts"]
                         (Throw (PyError "APIStatusError" "Overloaded"))))
             {| is_disconnected := fun k => Nat.leb 1 k |} "count nuclei" false)
  = [section_change "description" EmptyString].
Proof. vm_compute. reflexivity. Qed.

(** *** Disconnection *)

Lemma forward_macro_until_disconnect (request : Request) (events : gen Event) :
  forall checks n,
    (forall k, k < n -> is_disconnected request (checks + k) = false) ->
    is_disconnected request (checks + n) = true ->
    yielded (forward_macro request checks events) = take n (yielded events)
    /\ (n < length (yielded events) ->
        raised (forward_macro request checks events) = None).
Proof.
  induction events as [|e|ev rest IH]; intros checks n Hbefore Hat.
  - cbn. rewrite take_nil. split; [reflexivity|]. cbn. lia.
  - cbn. rewrite take_nil. split; [reflexivity|]. cbn. lia.
  - cbn [forward_macro]. destruct n as [|n].
    + rewrite Nat.add_0_r in Hat. rewrite Hat. now split.
    + pose proof (Hbefore 0 ltac:(lia)) as H0. rewrite Nat.add_0_r in H0. rewrite H0.
      destruct (IH (S checks) n) as [Hy Hr].
      * intros k Hk. replace (S checks + k) with (checks + S k) by lia.
        apply Hbefore. lia.
      * replace (S checks + n) with (checks + S n) by lia. exact Hat.
      * cbn [yielded raised take length]. rewrite Hy. split.
        -- now destruct ev.
        -- intros Hn. apply Hr. lia.
Qed.

(** Once a disconnection is observed, at the n-th check, the transport has
    sent the first n events of the generation and sends nothing more: no
    further event, no error event, and the run ends without an exception. *)
Theorem macro_stream_stops_at_disconnect
    (client : Client) (request : Request) (input : string) (n : nat) :
  (forall k, k < n -> is_disconnected request k = false) ->
  is_disconnected request n = true ->
  n < length (yielded (generate_macro_from_prompt client input)) ->
  yielded (macro_stream client request input false)
  = take n (yielded (generate_macro_from_prompt client input))
  /\ raised (macro_stream client request input false) = None.
Proof.
  intros Hbefore Hat Hn.
  destruct (forward_macro_until_disconnect request
              (generate_macro_from_prompt client input) 0 n Hbefore Hat) as [Hy Hr].
  unfold macro_stream. cbv zeta.
  rewrite yielded_try_except, raised_try_except, (Hr Hn), Hy, app_nil_r. now split.
Qed.

Lemma macro_stream_stops_at_disconnect_witness :
  yielded (macro_stream
             (serving (deltas_then ["[DESCRIPTION] Counts"; " nuclei."; "[EXPLANATION]"] Return))
             {| is_disconnected := fun k => Nat.leb 2 k |} "count nuclei" false)
  = [section_change "description" EmptyString;
     section_change "description" "Counts"].
Proof.
  refine (proj1 (macro_stream_stops_at_disconnect
                   (serving (deltas_then
                               ["[DESCRIPTION] Counts"; " nuclei."; "[EXPLANATION]"] Return))
                   {| is_disconnected := fun k => Nat.leb 2 k |} "count nuclei" 2 _ eq_refl _)).
  - intros k Hk. destruct k as [|[|k]]; [reflexivity..|lia].
  - vm_compute. lia.
Defined.

(** ** The archive builder (file_service.py) *)

Lemma path_exists_update (fs : FileSystem) (path : string) (n : node) :
  path_exists (fs_update fs path n) path = true.
Proof.
  unfold path_exists, fs_lookup, fs_update. cbn [nodes realpath].
  now rewrite lookup_insert_eq.
Qed.


(** [pathlib]'s test agrees with the one of [os.path] whenever it returns. *)
Lemma pathlib_exists_ok (fs : FileSystem) (path : string) (found : bool) :
  pathlib_exists fs path = Ok found -> path_exists fs path = found.
Proof.
  unfold pathlib_exists, path_exists. destruct (fs_lookup fs path); [now intros [= <-]|].
  destruct (stat_error fs path); [discriminate|now intros [= <-]].
Qed.

Lemma pathlib_exists_present (fs : FileSystem) (path : string) :
  path_exists fs path = true -> pathlib_exists fs path = Ok true.
Proof.
  unfold pathlib_exists, path_exists. now destruct (fs_lookup fs path).
Qed.


Lemma pathlib_exists_update_archive (fs : FileSystem) (zip path : string)
    (a b : list string) :
  pathlib_exists (fs_update (fs_update fs zip (ZipArchive a)) zip (ZipArchive b)) path
  = pathlib_exists (fs_update fs zip (ZipArchive a)) path.
Proof.
  unfold pathlib_exists, fs_lookup, fs_update. cbn [nodes realpath stat_error].
  destruct (decide (realpath fs zip = realpath fs path)) as [->|Hne].
  - now rewrite !lookup_insert_eq.
  - now rewrite !lookup_insert_ne.
Qed.

(** What opening for writing leaves on the disk. *)
Lemma open_for_writing_ok (fs fs' : FileSystem) (path : string) (n : node) :
  open_for_writing fs path n = Ok fs' -> fs' = fs_update fs path n.
Proof.
  unfold open_for_writing.
  destruct (is_dir fs path); [discriminate|]. destruct (negb _); [discriminate|].
  destruct (fs_lookup fs path); [now intros [= <-]|].
  destruct (stat_error fs path); [discriminate|now intros [= <-]].
Qed.




Example create_zip_skips_missing_and_repeated :
  let fs := plain_disk
    [("/tmp", Dir 4096); ("/tmp/job", Dir 4096); ("/tmp/job/Images", Dir 4096);
     ("/tmp/job/Images/cells_mask.tif", File "MASK");
     ("/tmp/job/summary.csv", File "a,b")] in
  let '(r, fs') :=
    create_zip_file quiet
      ["/tmp/job/summary.csv"; "/tmp/job/gone.csv";
       "/tmp/job//summary.csv"; "/tmp/job/Images/cells_mask.tif"]
      "/tmp/job/results.zip" fs in
  r = Some "/tmp/job/results.zip"
  /\ archive_members fs' "/tmp/job/results.zip"
     = Some ["summary.csv"; "Images/cells_mask.tif"].
Proof. vm_compute. split; reflexivity. Qed.

(** The check after writing: the archive was written without an exception,
    something else removed it before it was looked for, and the result is
    failure. *)
Example create_zip_archive_removed_meanwhile :
  let fs := plain_disk
    [("/tmp", Dir 4096); ("/tmp/job", Dir 4096); ("/tmp/job/summary.csv", File "a,b")] in
  let gone := removing "/tmp/job/results.zip" in
  let '(r, fs') := _create_zip gone ["/tmp/job/summary.csv"] "/tmp/job/results.zip" fs in
  r = Ok None
  /\ path_exists fs' "/tmp/job/results.zip" = false
  /\ fst (create_zip_file gone ["/tmp/job/summary.csv"] "/tmp/job/results.zip" fs) = None.
Proof. vm_compute. repeat split. Qed.

(** A listed path that cannot be examined stops the builder: the archive
    stays on the disk with what was written before, and the result is
    failure. *)
Example create_zip_stops_at_a_name_too_long :
  let fs := limited_disk ["/tmp/job/too_long.csv"]
    [("/tmp", Dir 4096); ("/tmp/job", Dir 4096); ("/tmp/job/summary.csv", File "a,b");
     ("/tmp/job/cells.csv", File "1,2")] in
  let '(r, fs') :=
    create_zip_file quiet
      ["/tmp/job/summary.csv"; "/tmp/job/too_long.csv"; "/tmp/job/cells.csv"]
      "/tmp/job/results.zip" fs in
  r = None /\ archive_members fs' "/tmp/job/results.zip" = Some ["summary.csv"].
Proof. vm_compute. split; reflexivity. Qed.

(** On a disk nothing else touches, the check after writing cannot fail. *)
Lemma create_zip_quiet_check_passes (paths : list string) (zip_path : string)
    (fs fs' : FileSystem) :
  _create_zip quiet paths zip_path fs <> (Ok None, fs').
Proof.
  unfold _create_zip, quiet.
  destruct (open_for_writing fs zip_path (ZipArchive [])) as [fs1|e]; [|discriminate].
  destruct (zip_write_all _ _ _ _ _) as [members [e|]]; [discriminate|].
  rewrite pathlib_exists_present by apply path_exists_update. discriminate.
Qed.


(** A run of [create_zip_file] either fails or went through every step:
    the archive was opened, the loop ended without an exception, the archive
    was closed with the members written, and it was found on the disk
    afterwards. *)
Lemma create_zip_file_runs (others : FileSystem -> FileSystem)
    (file_paths : list string) (zip_filename : string)
    (fs : FileSystem) (r : option string) (fs' : FileSystem) :
  create_zip_file others file_paths zip_filename fs = (r, fs') ->
  r = None
  \/ (r = Some (Path.make zip_filename)
      /\ path_exists fs' (Path.make zip_filename) = true
      /\ exists members,
           zip_write_all (fs_update fs (Path.make zip_filename) (ZipArchive []))
             (Path.parent (Path.make zip_filename)) file_paths ∅ [] = (members, None)
           /\ fs' = others (fs_update (fs_update fs (Path.make zip_filename) (ZipArchive []))
                                     (Path.make zip_filename) (ZipArchive members))).
Proof.
  unfold create_zip_file, _create_zip.
  destruct file_paths as [|f rest]; [intros [= <- _]; now left|].
  destruct (open_for_writing fs (Path.make zip_filename) (ZipArchive [])) as [fs1|e] eqn:Hopen;
    [|intros [= <- _]; now left].
  apply open_for_writing_ok in Hopen as ->.
  destruct (zip_write_all _ _ (f :: rest) ∅ []) as [members [e|]] eqn:Hloop;
    [intros [= <- _]; now left|].
  destruct (pathlib_exists (others _) _) as [[|]|e] eqn:Hex; intros [= <- <-];
    [right|now left|now left].
  split; [reflexivity|]. split; [now apply pathlib_exists_ok in Hex|]. now exists members.
Qed.

(** A reported success names the archive, and the archive is on the disk. *)
Lemma create_zip_file_success (others : FileSystem -> FileSystem)
    (file_paths : list string) (zip_filename : string)
    (fs : FileSystem) (p : string) (fs' : FileSystem) :
  create_zip_file others file_paths zip_filename fs = (Some p, fs') ->
  p = Path.make zip_filename /\ path_exists fs' p = true.
Proof.
  intros H. destruct (create_zip_file_runs _ _ _ _ _ _ H) as [|([= ->] & Hex & _)];
    [discriminate|].
  now split.
Qed.




(** ** The output collector (file_service.py) *)








(** A declaration that cannot be examined, and one with a null character,
    end the collection; [os.path.exists] would have passed over both. *)
Example collector_stops_at_a_declaration :
  let entries :=
    [("/tmp", Dir 4096); ("/tmp/job", Dir 4096); ("/tmp/job/Images", Dir 4096);
     ("/tmp/job/Images/cells_mask.tif", File "MASK")] in
  let log := fun declared =>
    ("/tmp/job/output_log.txt", File ("OUTPUT_FILE: " +:+ declared +:+ NL)) in
  match parse_saved_files EmptyString "/tmp/job" "cells"
          (limited_disk ["/tmp/job/Images/too_long.tif"]
             (log "/tmp/job/Images/too_long.tif" :: entries)) with
  | Raise e => exn_class e = "OSError"
  | Ok _ => False
  end
  /\ parse_saved_files EmptyString "/tmp/job" "cells"
       (plain_disk (log ("/tmp/job/a" +:+ NUL +:+ "b") :: entries))
     = Raise EmbeddedNull
  /\ parse_saved_files EmptyString "/tmp/job" "cells"
       (plain_disk (log "/tmp/job/gone.tif" :: entries))
     = Ok ["/tmp/job/Images/cells_mask.tif"].
Proof. vm_compute. repeat split. Qed.

(** The [output] argument plays no part: the declarations are read from the
    log file of the working directory. *)
Lemma parse_saved_files_ignores_output (output output' temp_dir original_filename : string)
    (fs : FileSystem) :
  parse_saved_files output temp_dir original_filename fs
  = parse_saved_files output' temp_dir original_filename fs.
Proof. reflexivity. Qed.

Example collector_two_strategies :
  let fs := plain_disk
    [("/tmp", Dir 4096); ("/tmp/job", Dir 4096); ("/tmp/job/Images", Dir 4096);
     ("/tmp/job/Images/cells_mask.tif", File "MASK");
     ("/tmp/job/Images/cells_empty.tif", File EmptyString);
     ("/tmp/job/summary.csv", File "a,b");
     ("/tmp/job/output_log.txt",
      File ("OUTPUT_FILE: /tmp/job//summary.csv" +:+ NL
            +:+ "OUTPUT_FILE: /tmp/job/Images/cells_mask.tif" +:+ NL
            +:+ "OUTPUT_FILE: /tmp/job/gone.csv" +:+ NL))] in
  parse_saved_files EmptyString "/tmp/job" "cells" fs
  = Ok ["/tmp/job/summary.csv"; "/tmp/job/Images/cells_mask.tif"].
Proof. vm_compute. reflexivity. Qed.

(** C5 fails on the code where the working directory is reached through a
    symbolic link: the declared path is made canonical, the scanned one is
    not, and the one output file is returned under both names. *)
Theorem parse_saved_files_same_file_twice :
  let fs := linked_tmp_disk
    [("/private/tmp", Dir 4096); ("/private/tmp/job", Dir 4096);
     ("/private/tmp/job/Images", Dir 4096);
     ("/private/tmp/job/Images/cells_mask.tif", File "MASK");
     ("/private/tmp/job/output_log.txt",
      File ("OUTPUT_FILE: /tmp/job/Images/cells_mask.tif" +:+ NL))] in
  parse_saved_files EmptyString "/tmp/job" "cells" fs
  = Ok ["/tmp/job/Images/cells_mask.tif"; "/private/tmp/job/Images/cells_mask.tif"]
  /\ realpath fs "/private/tmp/job/Images/cells_mask.tif"
     = realpath fs "/tmp/job/Images/cells_mask.tif".
Proof. vm_compute. split; reflexivity. Qed.

(** What the two names cost the batch: the canonical name does not lie
    under the working directory as the archive builder names it, the archive
    cannot be built, and a batch whose one job succeeded fails.  On a disk
    without the link the same batch returns its archive. *)
Example batch_fails_where_tmp_is_a_link :
  let run := execute_image_macro declaring_service [upload "a.tif" "IMG-A"] "run(Blur);" ∅ in
  fst (run linked_tmp_world) = Raise ZipFailed
  /\ fst (run sample_world) = Ok ("/tmp/tmp0/results.zip", []).
Proof. vm_compute. split; reflexivity. Qed.

(** ** The batch loop (imagej_service.py) *)

Section BatchLoop.

Context (self : ImageJService) (temp_dir macro_script : string)
        (macro_params : gmap string string).

(** The loop, with its two lists, computes what the execution records say. *)
Lemma process_files_run_jobs (files : list UploadFile) :
  forall (error_logs output_files : list string) (w : World),
    process_files self temp_dir macro_script macro_params files error_logs output_files w
    = match run_jobs self temp_dir macro_script macro_params files w with
      | (Ok records, w') =>
          (Ok (error_logs ++ error_log records, output_files ++ discovered records), w')
      | (Raise e, w') => (Raise e, w')
      end.
Proof.
  induction files as [|file rest IH]; intros error_logs output_files w.
  - cbn. now rewrite !app_nil_r.
  - cbn [process_files run_jobs]. unfold bind, try_catch, ret, job_path, job_filename_of.
    destruct (_save_upload_file file _ w) as [[[]|e] w1]; [|reflexivity].
    destruct (run_job self _ temp_dir _ macro_script macro_params w1) as [[saved|e] w2].
    + rewrite IH.
      destruct (run_jobs self temp_dir macro_script macro_params rest w2) as [[records|e] w3];
        [|reflexivity].
      cbn. now rewrite <- app_assoc.
    + rewrite IH.
      destruct (run_jobs self temp_dir macro_script macro_params rest w2) as [[records|e'] w3];
        [|reflexivity].
      cbn. now rewrite <- app_assoc.
Qed.

(** Every file of the batch gets a record, in order. *)
Lemma run_jobs_records_every_file (files : list UploadFile) :
  forall (w w' : World) (records : list ExecutionRecord),
    run_jobs self temp_dir macro_script macro_params files w = (Ok records, w') ->
    map job_filename records = map (job_filename_of self) files.
Proof.
  induction files as [|file rest IH]; intros w w' records.
  - cbn. now intros [= <- _].
  - cbn [run_jobs]. unfold bind, try_catch, ret.
    destruct (_save_upload_file file _ w) as [[[]|e] w1]; [|discriminate].
    destruct (run_job self _ temp_dir _ macro_script macro_params w1) as [[saved|e] w2];
      (destruct (run_jobs self temp_dir macro_script macro_params rest w2)
         as [[records'|e'] w3] eqn:Hrest; [|discriminate]);
      intros [= <- _]; cbn; f_equal; eapply IH; eassumption.
Qed.

(** Only a failure to persist a file ends the batch early. *)
Lemma run_jobs_raises_only_on_save (files : list UploadFile) :
  forall (w w' : World) (e : exn),
    run_jobs self temp_dir macro_script macro_params files w = (Raise e, w') ->
    exists done file later w0,
      files = done ++ file :: later
      /\ _save_upload_file file (job_path self temp_dir file) w0 = (Raise e, w').
Proof.
  induction files as [|file rest IH]; intros w w' e.
  - discriminate.
  - cbn [run_jobs]. unfold bind, try_catch, ret.
    destruct (_save_upload_file file _ w) as [[[]|e0] w1] eqn:Hsave.
    2:{ intros [= <- <-]. now exists [], file, rest, w. }
    destruct (run_job self _ temp_dir _ macro_script macro_params w1) as [[saved|e1] w2];
      (destruct (run_jobs self temp_dir macro_script macro_params rest w2)
         as [[records'|e'] w3] eqn:Hrest; [discriminate|]);
      intros [= <- <-];
      destruct (IH _ _ _ Hrest) as (done & f & later & w0 & -> & Hf);
      now exists (file :: done), f, later, w0.
Qed.

(** C1, amended.  The loop of [execute_image_macro] persists each file and
    then runs its job; an exception raised by the job of a file (preparing
    the script, invoking the engine, collecting the outputs) is caught,
    becomes the error-log entry [Error processing <filename>: <message>] of
    that file, and the loop goes on with the next file, so that every file
    gets its record, in order.  The loop ends early only when persisting a
    file raises, and then with that exception. *)
Theorem process_files_isolates_job_failures
    (files : list UploadFile) (error_logs output_files : list string) (w : World) :
  match run_jobs self temp_dir macro_script macro_params files w with
  | (Ok records, w') =>
      process_files self temp_dir macro_script macro_params files error_logs output_files w
      = (Ok (error_logs ++ error_log records, output_files ++ discovered records), w')
      /\ map job_filename records = map (job_filename_of self) files
  | (Raise e, w') =>
      process_files self temp_dir macro_script macro_params files error_logs output_files w
      = (Raise e, w')
      /\ exists done file later w0,
           files = done ++ file :: later
           /\ _save_upload_file file (job_path self temp_dir file) w0 = (Raise e, w')
  end.
Proof.
  rewrite process_files_run_jobs.
  destruct (run_jobs self temp_dir macro_script macro_params files w) as [[records|e] w'] eqn:H.
  - split; [reflexivity|]. eapply run_jobs_records_every_file; eassumption.
  - split; [reflexivity|]. eapply run_jobs_raises_only_on_save; eassumption.
Qed.

(** Three files, the job of the second one raising: the error log is the
    one entry of the second file and the outputs are those of the first and
    of the third. *)
Lemma three_files_second_job_fails (f1 f2 f3 : UploadFile)
    (saved1 saved3 : list string) (e : exn) (w0 w1 w1' w2 w2' w3 w3' : World) :
  let run f := run_job self (job_path self temp_dir f) temp_dir
                 (os_path_splitext_0 (job_filename_of self f)) macro_script macro_params in
  _save_upload_file f1 (job_path self temp_dir f1) w0 = (Ok tt, w1) ->
  run f1 w1 = (Ok saved1, w1') ->
  _save_upload_file f2 (job_path self temp_dir f2) w1' = (Ok tt, w2) ->
  run f2 w2 = (Raise e, w2') ->
  _save_upload_file f3 (job_path self temp_dir f3) w2' = (Ok tt, w3) ->
  run f3 w3 = (Ok saved3, w3') ->
  process_files self temp_dir macro_script macro_params [f1; f2; f3] [] [] w0
  = (Ok ([error_entry (job_filename_of self f2) e], saved1 ++ saved3), w3').
Proof.
  intros run S1 R1 S2 R2 S3 R3. subst run.
  rewrite process_files_run_jobs. cbn [run_jobs]. unfold bind, try_catch, ret.
  rewrite S1, R1, S2, R2, S3, R3. cbn. now rewrite app_nil_r.
Qed.

End BatchLoop.

(** C1, as stated, fails: an exception raised while a file is persisted is
    not caught.  Here the second upload is named like one of the
    subdirectories of the working directory; the batch ends with that
    exception, no error log is returned and the third file is never
    handled. *)
Lemma batch_aborts_when_a_file_cannot_be_saved :
  let files := [upload "a.tif" "IMG-A"; upload "Images" "IMG-B"; upload "c.tif" "IMG-C"] in
  let '(r, w') := execute_image_macro sample_service files "run(Blur);" ∅ sample_world in
  r = Raise (PyError "IsADirectoryError" "Is a directory: /tmp/tmp0/Images")
  /\ fs_lookup (disk w') "/tmp/tmp0/a.tif" = Some (File "IMG-A")
  /\ fs_lookup (disk w') "/tmp/tmp0/c.tif" = None
  /\ archive_members (disk w') "/tmp/tmp0/results.zip" = None.
Proof. vm_compute. repeat split; reflexivity. Qed.

Example three_files_second_corrupt :
  let files := [upload "a.tif" "IMG-A"; upload "b.tif" "CORRUPT"; upload "c.tif" "IMG-C"] in
  let '(r, w') := execute_image_macro sample_service files "run(Blur);" ∅ sample_world in
  r = Ok ("/tmp/tmp0/results.zip", ["Error processing b.tif: Cannot open image"])
  /\ archive_members (disk w') "/tmp/tmp0/results.zip"
     = Some ["Images/a_mask.tif"; "a.tif"; "c.tif"; "Images/c_mask.tif"]
  /\ background_tasks w' = ["/tmp/tmp0"].
Proof. vm_compute. repeat split; reflexivity. Qed.

Lemma three_files_second_job_fails_witness :
  fst (process_files sample_service "/tmp/tmp0" "run(Blur);" ∅
         [upload "a.tif" "IMG-A"; upload "b.tif" "CORRUPT"; upload "c.tif" "IMG-C"] [] []
         (snd (make_working_dirs sample_world)))
  = Ok (["Error processing b.tif: Cannot open image"],
        ["/tmp/tmp0/Images/a_mask.tif"; "/tmp/tmp0/a.tif"]
        ++ ["/tmp/tmp0/c.tif"; "/tmp/tmp0/Images/c_mask.tif"]).
Proof.
  set (self := sample_service).
  set (f1 := upload "a.tif" "IMG-A").
  set (f2 := upload "b.tif" "CORRUPT").
  set (f3 := upload "c.tif" "IMG-C").
  set (run := fun f => run_job self (job_path self "/tmp/tmp0" f) "/tmp/tmp0"
                         (os_path_splitext_0 (job_filename_of self f)) "run(Blur);" ∅).
  set (w0 := snd (make_working_dirs sample_world)).
  set (w1 := snd (_save_upload_file f1 (job_path self "/tmp/tmp0" f1) w0)).
  set (w1' := snd (run f1 w1)).
  set (w2 := snd (_save_upload_file f2 (job_path self "/tmp/tmp0" f2) w1')).
  set (w2' := snd (run f2 w2)).
  set (w3 := snd (_save_upload_file f3 (job_path self "/tmp/tmp0" f3) w2')).
  set (w3' := snd (run f3 w3)).
  rewrite (three_files_second_job_fails self "/tmp/tmp0" "run(Blur);" ∅ f1 f2 f3
             ["/tmp/tmp0/Images/a_mask.tif"; "/tmp/tmp0/a.tif"]
             ["/tmp/tmp0/c.tif"; "/tmp/tmp0/Images/c_mask.tif"]
             (PyError "JavaException" "Cannot open image")
             w0 w1 w1' w2 w2' w3 w3');
    [reflexivity|vm_compute; reflexivity..].
Defined.

(** ** Aggregation (imagej_service.py) *)

Lemma path_make_truthy (s : string) : Py.truthy (Path.make s) = true.
Proof.
  unfold Path.make, Path.of_parts, Path.root.
  destruct (Py.startswith "//" s && negb (Py.startswith "///" s)); [reflexivity|].
  destruct (Py.startswith "/" s); [reflexivity|].
  destruct (Path.parts s) as [|p ps] eqn:Hparts; [reflexivity|].
  assert (Hp : p ∈ Path.parts s) by (rewrite Hparts; apply list_elem_of_here).
  unfold Path.parts in Hp. apply list_elem_of_In, List.filter_In in Hp as [_ Hp].
  destruct p as [|c p]; [discriminate|].
  rewrite append_nil_l. unfold Path.SEP. rewrite join_cons_char. reflexivity.
Qed.

(** What follows the loop: no archive without outputs; otherwise one call
    of the archive builder decides between the archive path, returned with
    the error log, and the failure of the batch. *)
Lemma build_archive_spec (temp_dir : string) (error_logs output_files : list string)
    (w : World) :
  build_archive temp_dir error_logs output_files w
  = match output_files with
    | [] => (Raise NoOutputs, w)
    | _ :: _ =>
        match create_zip_file (others w) output_files
                (os_path_join temp_dir "results.zip") (disk w) with
        | (Some p, fs) => (Ok (p, error_logs), with_disk w fs)
        | (None, fs) => (Raise ZipFailed, with_disk w fs)
        end
    end.
Proof.
  unfold build_archive. destruct output_files as [|o rest]; [reflexivity|].
  unfold bind, on_disk, ret, raise.
  destruct (create_zip_file (others w) (o :: rest) (os_path_join temp_dir "results.zip") (disk w))
    as [[p|] fs] eqn:Hzip; [|reflexivity].
  destruct (create_zip_file_success _ _ _ _ _ _ Hzip) as (-> & Hex).
  cbn [disk with_disk]. rewrite Hex, path_make_truthy. reflexivity.
Qed.

(** C2, as stated, fails: with a non-empty union of discovered outputs the
    batch still fails when the archive cannot be built.  Here the engine
    declares an output it saved outside the working directory; the collector
    accepts it, the archive builder cannot name it relative to the archive's
    directory, and the batch fails with the archive failure. *)
Lemma batch_fails_although_outputs_were_discovered :
  let files := [upload "a.tif" "IMG-A"] in
  let '(r, w') := execute_image_macro exporting_service files "run(Blur);" ∅ sample_world in
  let '(jobs, _) :=
    (temp_dir <- make_working_dirs ;;
     run_jobs exporting_service temp_dir "run(Blur);" ∅ files) sample_world in
  r = Raise ZipFailed
  /\ match jobs with
     | Ok records =>
         discovered records
         = ["/srv/exports/summary.csv"; "/tmp/tmp0/Images/a_mask.tif"; "/tmp/tmp0/a.tif"]
     | Raise _ => False
     end.
Proof. vm_compute. split; reflexivity. Qed.

(** C2, amended.  Once the working directories are made and all files are
    processed: if no output file was discovered, the batch fails with the
    failure [No output files were generated.], however many jobs ran without
    error; otherwise the archive builder is called once on the discovered
    files, and the batch returns the archive path with the per-file error
    log when it succeeds and fails with [Failed to create zip file.] when it
    does not.  The cleanup of the working directory is scheduled in every
    case. *)
Theorem execute_image_macro_aggregation
    (self : ImageJService) (files : list UploadFile)
    (macro_script : string) (macro_params : gmap string string) (w : World) :
  match make_working_dirs w with
  | (Raise e, w1) =>
      exists temp_dir,
        execute_image_macro self files macro_script macro_params w
        = (Raise e, scheduled temp_dir w1)
  | (Ok temp_dir, w1) =>
      match run_jobs self temp_dir macro_script macro_params files w1 with
      | (Raise e, w2) =>
          execute_image_macro self files macro_script macro_params w
          = (Raise e, scheduled temp_dir w2)
      | (Ok records, w2) =>
          match discovered records with
          | [] =>
              execute_image_macro self files macro_script macro_params w
              = (Raise NoOutputs, scheduled temp_dir w2)
          | _ :: _ =>
              match create_zip_file (others w2) (discovered records)
                      (os_path_join temp_dir "results.zip") (disk w2) with
              | (Some zip_path, fs) =>
                  execute_image_macro self files macro_script macro_params w
                  = (Ok (zip_path, error_log records), scheduled temp_dir (with_disk w2 fs))
                  /\ zip_path = Path.make (os_path_join temp_dir "results.zip")
                  /\ path_exists fs zip_path = true
              | (None, fs) =>
                  execute_image_macro self files macro_script macro_params w
                  = (Raise ZipFailed, scheduled temp_dir (with_disk w2 fs))
              end
          end
      end
  end.
Proof.
  unfold execute_image_macro, make_working_dirs, bind, mkdtemp, ret, try_finally,
    add_cleanup_task.
  set (temp_dir := "/tmp/tmp" +:+ pretty (temp_dirs_made w)).
  destruct (for_each _ _ _) as [[[]|e] w1].
  2:{ exists temp_dir. reflexivity. }
  rewrite process_files_run_jobs.
  destruct (run_jobs self temp_dir macro_script macro_params files w1) as [[records|e] w2];
    [|reflexivity].
  cbn [app]. rewrite build_archive_spec.
  destruct (discovered records) as [|o outs] eqn:Hd; [reflexivity|].
  destruct (create_zip_file _ (o :: outs) _ (disk w2)) as [[p|] fs] eqn:Hzip; [|reflexivity].
  split; [reflexivity|].
  destruct (create_zip_file_success _ _ _ _ _ _ Hzip) as (-> & Hex). auto.
Qed.

(** ** Working paths (imagej_service.py) *)

(** C9, as stated, fails: two different uploads whose names sanitize to the
    same name get the same working path; the second one is written over the
    first and the batch reports no error. *)
Lemma two_jobs_share_one_working_path :
  let first := upload "my image.tif" "IMG-A" in
  let second := upload "my_image.tif" "IMG-B" in
  let '(r, w') :=
    execute_image_macro sample_service [first; second] "run(Blur);" ∅ sample_world in
  filename first <> filename second
  /\ job_path sample_service "/tmp/tmp0" first = "/tmp/tmp0/my_image.tif"
  /\ job_path sample_service "/tmp/tmp0" second = "/tmp/tmp0/my_image.tif"
  /\ fs_lookup (disk w') "/tmp/tmp0/my_image.tif" = Some (File "IMG-B")
  /\ r = Ok ("/tmp/tmp0/results.zip", []).
Proof. vm_compute. repeat split; try reflexivity. discriminate. Qed.

Lemma os_path_join_inj (a b1 b2 : string) :
  Py.startswith "/" b1 = false -> Py.startswith "/" b2 = false ->
  os_path_join a b1 = os_path_join a b2 -> b1 = b2.
Proof.
  unfold os_path_join. intros -> ->.
  destruct (negb (Py.truthy a) || Py.endswith "/" a); intros H.
  - now apply String.app_inj in H.
  - apply String.app_inj in H. now apply (String.app_inj "/") in H.
Qed.

Lemma save_upload_writes (file : UploadFile) (destination : string) (w w' : World) :
  _save_upload_file file destination w = (Ok tt, w') ->
  fs_lookup (disk w') (Path.make destination) = Some (File (body file))
  /\ realpath (disk w') = realpath (disk w).
Proof.
  unfold _save_upload_file, try_catch, update_disk, raise.
  destruct (open_for_writing (disk w) (Path.make destination) (File (body file)))
    as [fs|e] eqn:Hopen; [|discriminate].
  apply open_for_writing_ok in Hopen as ->.
  intros [= <-]. cbn [disk with_disk]. split; [|reflexivity].
  unfold fs_lookup, fs_update. cbn [nodes realpath]. apply lookup_insert_eq.
Qed.

(** C9, amended.  The working path of a job is the working directory joined
    with the sanitized name of its file; no further disambiguation is made.
    Two files of a batch share their working path exactly when their
    sanitized names are equal (sanitized names being relative), and then
    persisting the second replaces the content persisted for the first. *)
Theorem job_paths_collide_on_equal_sanitized_names
    (self : ImageJService) (temp_dir : string) (f1 f2 : UploadFile) :
  job_path self temp_dir f1 = os_path_join temp_dir (secure_filename self (filename f1))
  /\ (job_filename_of self f1 = job_filename_of self f2 ->
      job_path self temp_dir f1 = job_path self temp_dir f2)
  /\ (Py.startswith "/" (job_filename_of self f1) = false ->
      Py.startswith "/" (job_filename_of self f2) = false ->
      job_path self temp_dir f1 = job_path self temp_dir f2 ->
      job_filename_of self f1 = job_filename_of self f2)
  /\ (forall w w1 w2,
        job_path self temp_dir f1 = job_path self temp_dir f2 ->
        _save_upload_file f1 (job_path self temp_dir f1) w = (Ok tt, w1) ->
        _save_upload_file f2 (job_path self temp_dir f2) w1 = (Ok tt, w2) ->
        fs_lookup (disk w1) (Path.make (job_path self temp_dir f1)) = Some (File (body f1))
        /\ fs_lookup (disk w2) (Path.make (job_path self temp_dir f1)) = Some (File (body f2))).
Proof.
  split; [reflexivity|]. split; [|split].
  - unfold job_path. now intros ->.
  - unfold job_path. intros H1 H2 H. eapply os_path_join_inj; eassumption.
  - intros w w1 w2 Heq S1 S2.
    apply save_upload_writes in S1 as [S1 _]. rewrite <- Heq in S2.
    apply save_upload_writes in S2 as [S2 _]. auto.
Qed.

(** ** Waiting for a file (image_service.py) *)

Lemma await_exists_found (disk_at : Timeline) (file_path : string)
    (timeout check_interval start_time : Z) (fuel : nat) :
  forall (now : Z) (k : nat),
    k < fuel ->
    (forall j, j < k ->
       path_exists (disk_at (now + Z.of_nat j * check_interval)%Z) file_path = false
       /\ (now + Z.of_nat j * check_interval - start_time <= timeout * 1000)%Z) ->
    path_exists (disk_at (now + Z.of_nat k * check_interval)%Z) file_path = true ->
    await_exists fuel disk_at file_path timeout check_interval start_time now
    = Some (Ok tt, (now + Z.of_nat k * check_interval)%Z).
Proof.
  induction fuel as [|fuel IH]; intros now k Hk Habs Hpres; [lia|].
  cbn [await_exists]. destruct k as [|k].
  - replace (now + Z.of_nat 0 * check_interval)%Z with now in Hpres by lia.
    rewrite Hpres. cbn [negb]. do 2 f_equal. lia.
  - destruct (Habs 0 ltac:(lia)) as [H0 Ht0].
    replace (now + Z.of_nat 0 * check_interval)%Z with now in H0, Ht0 by lia.
    rewrite H0. cbn [negb].
    destruct (Z.ltb_spec (timeout * 1000) (now - start_time)); [lia|].
    rewrite (IH (now + check_interval)%Z k); [do 2 f_equal; lia|lia| |].
    + intros j Hj. destruct (Habs (S j) ltac:(lia)) as [Ha Hb].
      replace (now + check_interval + Z.of_nat j * check_interval)%Z
        with (now + Z.of_nat (S j) * check_interval)%Z by lia.
      split; [exact Ha|lia].
    + replace (now + check_interval + Z.of_nat k * check_interval)%Z
        with (now + Z.of_nat (S k) * check_interval)%Z by lia.
      exact Hpres.
Qed.

Lemma await_exists_times_out (disk_at : Timeline) (file_path : string)
    (timeout check_interval start_time : Z) :
  (0 < check_interval)%Z ->
  (forall t, (start_time <= t <= start_time + timeout * 1000 + check_interval)%Z ->
             path_exists (disk_at t) file_path = false) ->
  forall (m fuel : nat) (now : Z),
    m < fuel ->
    (start_time <= now <= start_time + timeout * 1000 + check_interval)%Z ->
    (timeout * 1000 - (now - start_time) < Z.of_nat m * check_interval)%Z ->
    exists t,
      await_exists fuel disk_at file_path timeout check_interval start_time now
      = Some (Raise (TimeoutError timeout file_path), t)
      /\ (timeout * 1000 < t - start_time)%Z.
Proof.
  intros Hpos Habs. induction m as [|m IH]; intros fuel now Hfuel Hnow Hm.
  - destruct fuel as [|fuel]; [lia|]. cbn [await_exists].
    rewrite Habs by assumption. cbn [negb].
    destruct (Z.ltb_spec (timeout * 1000) (now - start_time)); [|lia].
    exists now. split; [reflexivity|lia].
  - destruct fuel as [|fuel]; [lia|]. cbn [await_exists].
    rewrite Habs by assumption. cbn [negb].
    destruct (Z.ltb_spec (timeout * 1000) (now - start_time)).
    + exists now. split; [reflexivity|lia].
    + apply IH; lia.
Qed.

Lemma last_cons_default {A : Type} (l : list A) (x d : A) :
  List.last (x :: l) d = List.last l x.
Proof.
  revert x d. induction l as [|y l IH]; intros x d; [reflexivity|].
  change (List.last (x :: y :: l) d) with (List.last (y :: l) d).
  rewrite IH. symmetry. apply IH.
Qed.

(** The stability loop on the sizes it polls. *)
Lemma check_size_stability_polled (disk_at : Timeline) (file_path : string) :
  forall (sizes : list nat) (prev : nat) (now : Z),
    sizes_polled disk_at file_path now sizes ->
    fst (check_size_stability (length sizes) disk_at file_path prev now)
    = if stable_pair prev sizes then Ok tt
      else if Nat.eqb (List.last sizes prev) 0 then Raise (EmptyFileError file_path)
      else Ok tt.
Proof.
  induction sizes as [|s rest IH]; intros prev now Hpoll.
  - cbn. now destruct (Nat.eqb prev 0).
  - cbn [length check_size_stability stable_pair].
    pose proof (Hpoll 0 ltac:(cbn; lia)) as H0. cbn [nth] in H0.
    replace (now + 1000 * Z.of_nat 0)%Z with now in H0 by lia. rewrite H0.
    destruct (Nat.ltb 0 s && Nat.eqb s prev); [reflexivity|]. cbn [orb].
    rewrite IH.
    + now rewrite last_cons_default.
    + intros i Hi. specialize (Hpoll (S i) ltac:(cbn; lia)). cbn [nth] in Hpoll.
      replace (now + 1000 + 1000 * Z.of_nat i)%Z
        with (now + 1000 * Z.of_nat (S i))%Z by lia.
      exact Hpoll.
Qed.

(** C6, as stated, fails: a file that is still growing at every one of the
    ten size polls is reported ready, although no two consecutive polls saw
    the same size. *)
Lemma wait_for_file_accepts_a_growing_file :
  let disk_at := preview_timeline 0 (fun t => S (Z.to_nat (t / 1000))) in
  _wait_for_file 200 disk_at "/tmp/preview.png" 120 1000 0 = Some (Ok tt, 10000%Z)
  /\ map (fun i => st_size (disk_at (1000 * Z.of_nat i)%Z) "/tmp/preview.png") (seq 0 10)
     = map Ok [1; 2; 3; 4; 5; 6; 7; 8; 9; 10]
  /\ stable_pair 0 [1; 2; 3; 4; 5; 6; 7; 8; 9; 10] = false.
Proof. vm_compute. repeat split; reflexivity. Qed.

(** C6, amended.  [_wait_for_file] polls for existence first, every
    [check_interval]; when the path is absent up to the timeout and one
    interval more, it raises the timeout failure, at an instant later than
    the timeout.  When the path is first seen at some poll, it then polls the
    size ten times, one second apart, and, the file staying in place,
    returns success when two consecutive polls see the same non-zero size,
    and also when no two do but the size seen last is not zero; it raises
    the empty-file failure, which is not the timeout failure, exactly when
    no two consecutive polls agree on a non-zero size and the size seen last
    is zero: so for a file that stays empty. *)
Theorem wait_for_file_outcomes (disk_at : Timeline) (file_path : string)
    (timeout check_interval now : Z) (fuel : nat) :
  (0 < check_interval)%Z ->
  (0 <= timeout)%Z ->
  Z.to_nat (timeout * 1000 / check_interval) + 1 < fuel ->
  ((forall t, (now <= t <= now + timeout * 1000 + check_interval)%Z ->
               path_exists (disk_at t) file_path = false) ->
   exists t,
     _wait_for_file fuel disk_at file_path timeout check_interval now
     = Some (Raise (TimeoutError timeout file_path), t)
     /\ (timeout * 1000 < t - now)%Z)
  /\ (forall (k : nat) (sizes : list nat),
        first_seen_at_poll disk_at file_path timeout check_interval now k ->
        length sizes = 10 ->
        sizes_polled disk_at file_path (now + Z.of_nat k * check_interval) sizes ->
        exists t,
          _wait_for_file fuel disk_at file_path timeout check_interval now
          = Some (if stable_pair 0 sizes then Ok tt
                  else if Nat.eqb (List.last sizes 0) 0
                       then Raise (EmptyFileError file_path)
                       else Ok tt,
                  t))
  /\ TimeoutError timeout file_path <> EmptyFileError file_path.
Proof.
  intros Hpos Htimeout Hfuel.
  assert (Hdiv : (timeout * 1000
                  < Z.of_nat (Z.to_nat (timeout * 1000 / check_interval) + 1)
                    * check_interval)%Z).
  { pose proof (Z.div_mod (timeout * 1000) check_interval ltac:(lia)) as Hdm.
    pose proof (Z.mod_pos_bound (timeout * 1000) check_interval Hpos) as Hmod.
    pose proof (Z.div_pos (timeout * 1000) check_interval ltac:(lia) Hpos) as Hq.
    rewrite Nat2Z.inj_add, Z2Nat.id by assumption. nia. }
  split; [|split].
  - intros Habs. unfold _wait_for_file.
    destruct (await_exists_times_out disk_at file_path timeout check_interval now Hpos Habs
                (Z.to_nat (timeout * 1000 / check_interval) + 1) fuel now Hfuel)
      as (t & -> & Ht); [lia|lia|].
    exists t. split; [reflexivity|exact Ht].
  - intros k sizes [Habs Hpres] Hlen Hpoll. unfold _wait_for_file.
    assert (Hk : k < fuel).
    { destruct k as [|k]; [lia|]. destruct (Habs k ltac:(lia)) as [_ Hb].
      assert (Z.of_nat k < Z.of_nat (Z.to_nat (timeout * 1000 / check_interval) + 1))%Z
        by nia.
      lia. }
    rewrite (await_exists_found disk_at file_path timeout check_interval now fuel now k Hk).
    + pose proof (check_size_stability_polled disk_at file_path sizes 0 _ Hpoll) as Hc.
      rewrite Hlen in Hc.
      destruct (check_size_stability 10 disk_at file_path 0 _) as [r t].
      cbn [fst] in Hc. subst r. now exists t.
    + intros j Hj. destruct (Habs j Hj) as [Ha Hb]. split; [exact Ha|lia].
    + exact Hpres.
  - discriminate.
Qed.

Lemma wait_for_file_outcomes_witness :
  exists t,
    _wait_for_file 200
      (preview_timeline 3000 (fun t => Nat.min 4 (Z.to_nat (t / 1000 - 2))))
      "/tmp/preview.png" 120 1000 0
    = Some (Ok tt, t).
Proof.
  destruct (wait_for_file_outcomes
              (preview_timeline 3000 (fun t => Nat.min 4 (Z.to_nat (t / 1000 - 2))))
              "/tmp/preview.png" 120 1000 0 200
              ltac:(lia) ltac:(lia) ltac:(vm_compute; lia)) as (_ & Hseen & _).
  refine (Hseen 3 [1; 2; 3; 4; 4; 4; 4; 4; 4; 4] _ eq_refl _).
  - split.
    + intros j Hj.
      destruct j as [|[|[|j]]]; [split; [reflexivity|lia]..|lia].
    + reflexivity.
  - intros i Hi. cbn [length] in Hi.
    do 10 (destruct i as [|i]; [reflexivity|]). lia.
Defined.

Example wait_for_file_empty_file :
  _wait_for_file 200 (preview_timeline 2000 (fun _ => 0)) "/tmp/preview.png" 120 1000 0
  = Some (Raise (EmptyFileError "/tmp/preview.png"), 12000%Z).
Proof. vm_compute. reflexivity. Qed.

Example wait_for_file_never_created :
  _wait_for_file 200 (fun _ => plain_disk [("/tmp", Dir 4096)]) "/tmp/preview.png" 120 1000 0
  = Some (Raise (TimeoutError 120 "/tmp/preview.png"), 121000%Z).
Proof. vm_compute. reflexivity. Qed.

(** ** Cleanup is always scheduled (imagej_service.py) *)

Section Schedule.

Context (self : ImageJService) (temp_dir macro_script : string)
        (macro_params : gmap string string).

Lemma same_schedule_refl (w : World) : same_schedule w w.
Proof. now split. Qed.

Lemma same_schedule_trans (w1 w2 w3 : World) :
  same_schedule w1 w2 -> same_schedule w2 w3 -> same_schedule w1 w3.
Proof. unfold same_schedule. intros [-> ->] [-> ->]. now split. Qed.

Lemma keeps_ret {A : Type} (a : A) : keeps_schedule (ret a).
Proof. intros w. apply same_schedule_refl. Qed.

Lemma keeps_raise {A : Type} (e : exn) : keeps_schedule (@raise A e).
Proof. intros w. apply same_schedule_refl. Qed.

Lemma keeps_bind {A B : Type} (m : M A) (k : A -> M B) :
  keeps_schedule m -> (forall a, keeps_schedule (k a)) -> keeps_schedule (bind m k).
Proof.
  intros Hm Hk w. unfold bind. specialize (Hm w).
  destruct (m w) as [[a|e] w1]; cbn [snd] in *; [|assumption].
  eapply same_schedule_trans; [exact Hm|apply Hk].
Qed.

Lemma keeps_try_catch {A : Type} (body : M A) (handler : exn -> M A) :
  keeps_schedule body -> (forall e, keeps_schedule (handler e)) ->
  keeps_schedule (try_catch body handler).
Proof.
  intros Hb Hh w. unfold try_catch. specialize (Hb w).
  destruct (body w) as [[a|e] w1]; cbn [snd] in *; [assumption|].
  eapply same_schedule_trans; [exact Hb|apply Hh].
Qed.

Lemma keeps_on_disk {A : Type} (f : FileSystem -> result A) : keeps_schedule (on_disk f).
Proof. intros w. apply same_schedule_refl. Qed.

Lemma keeps_update_disk (f : FileSystem -> result FileSystem) :
  keeps_schedule (update_disk f).
Proof. intros w. unfold update_disk. destruct (f (disk w)); now split. Qed.

Lemma keeps_runMacro (full_macro : string) : keeps_schedule (runMacro self full_macro).
Proof.
  intros w. unfold runMacro.
  destruct (IJ self full_macro (disk w) (ij_log w)) as [r [fs log]]. now split.
Qed.

Lemma keeps_getLog : keeps_schedule getLog.
Proof. intros w. apply same_schedule_refl. Qed.

Create HintDb schedule.

#[local] Hint Resolve keeps_ret keeps_raise keeps_on_disk keeps_update_disk
  keeps_runMacro keeps_getLog : schedule.

Ltac keeps :=
  repeat first
    [ apply keeps_bind; [|intros ?]
    | apply keeps_try_catch; [|intros ?]
    | match goal with |- keeps_schedule (if ?b then _ else _) => destruct b end
    | match goal with |- keeps_schedule (let '(_, _) := ?p in _) => destruct p end
    | solve [auto with schedule] ].

Lemma keeps_save (file : UploadFile) (destination : string) :
  keeps_schedule (_save_upload_file file destination).
Proof. unfold _save_upload_file. keeps. Qed.

Lemma keeps_run_job (image_path original_filename : string) :
  keeps_schedule (run_job self image_path temp_dir original_filename
                    macro_script macro_params).
Proof. unfold run_job, _prepare_macro_script. keeps. Qed.

Lemma keeps_run_jobs (files : list UploadFile) :
  keeps_schedule (run_jobs self temp_dir macro_script macro_params files).
Proof.
  induction files as [|file rest IH]; cbn [run_jobs]; [apply keeps_ret|].
  apply keeps_bind; [apply keeps_save|intros _].
  apply keeps_bind; [|intros outcome; apply keeps_bind; [exact IH|intros; apply keeps_ret]].
  apply keeps_try_catch; [|intros; apply keeps_ret].
  apply keeps_bind; [apply keeps_run_job|intros; apply keeps_ret].
Qed.

Lemma keeps_process_files (files : list UploadFile) :
  forall error_logs output_files,
    keeps_schedule (process_files self temp_dir macro_script macro_params files
                      error_logs output_files).
Proof.
  induction files as [|file rest IH]; intros error_logs output_files;
    cbn [process_files]; [apply keeps_ret|].
  apply keeps_bind; [apply keeps_save|intros _].
  apply keeps_bind; [|intros [errs outs]; apply IH].
  apply keeps_try_catch; [|intros; apply keeps_ret].
  apply keeps_bind; [apply keeps_run_job|intros; apply keeps_ret].
Qed.

Lemma keeps_build_archive (error_logs output_files : list string) :
  keeps_schedule (build_archive temp_dir error_logs output_files).
Proof.
  unfold build_archive. destruct output_files as [|o rest]; [apply keeps_raise|].
  apply keeps_bind.
  - intros w. destruct (create_zip_file _ _ _ (disk w)) as [r fs]. now split.
  - intros zip_path. apply keeps_bind; [apply keeps_on_disk|intros present].
    destruct zip_path, present; auto with schedule.
Qed.

Lemma keeps_for_each {A : Type} (xs : list A) (f : A -> M unit) :
  (forall x, keeps_schedule (f x)) -> keeps_schedule (for_each xs f).
Proof.
  intros Hf. induction xs as [|x xs IH]; cbn [for_each]; [apply keeps_ret|].
  apply keeps_bind; [apply Hf|intros _; exact IH].
Qed.

End Schedule.

(** The working directory is the next one of the sequence, and making it
    and its subdirectories schedules nothing. *)
Lemma make_working_dirs_schedule (w : World) :
  background_tasks (snd (make_working_dirs w)) = background_tasks w
  /\ forall temp_dir w1,
       make_working_dirs w = (Ok temp_dir, w1) ->
       temp_dir = "/tmp/tmp" +:+ pretty (temp_dirs_made w).
Proof.
  unfold make_working_dirs, bind, mkdtemp, ret.
  set (temp_dir := "/tmp/tmp" +:+ pretty (temp_dirs_made w)).
  set (w0 := {| disk := _ |}).
  pose proof (keeps_for_each ["Images"; "Statistics"; "Metadata"]
                (fun subdir => makedirs (os_path_join temp_dir subdir))
                (fun x => keeps_update_disk _) w0) as [Hb _].
  destruct (for_each _ _ w0) as [[[]|e] w1]; cbn [snd] in *.
  - split; [exact Hb|]. now intros ? ? [= <- _].
  - split; [exact Hb|]. discriminate.
Qed.

(** Whatever the outcome of the batch (archive returned, no outputs, archive
    failure, a file that cannot be persisted), exactly one task is added to
    the background tasks: the cleanup of the working directory of the
    batch. *)
Theorem cleanup_always_scheduled
    (self : ImageJService) (files : list UploadFile)
    (macro_script : string) (macro_params : gmap string string) (w : World) :
  background_tasks (snd (execute_image_macro self files macro_script macro_params w))
  = background_tasks w ++ ["/tmp/tmp" +:+ pretty (temp_dirs_made w)].
Proof.
  unfold execute_image_macro. unfold bind at 1. unfold mkdtemp at 1.
  set (temp_dir := "/tmp/tmp" +:+ pretty (temp_dirs_made w)).
  set (w0 := {| disk := _ |}).
  unfold try_finally, add_cleanup_task.
  match goal with |- context [?body w0] =>
    assert (Hk : keeps_schedule body); [|specialize (Hk w0); destruct (body w0) as [r w1]]
  end.
  { apply keeps_bind; [apply keeps_for_each; intros; apply keeps_update_disk|intros _].
    apply keeps_bind; [apply keeps_process_files|intros [errs outs]].
    apply keeps_build_archive. }
  destruct Hk as [Hb _]. cbn [snd background_tasks] in *. now rewrite Hb.
Qed.

(** ** The improvement transport (chat_routes.py) *)

Lemma try_except_yield_from {A : Type} (xs : list A) (k : gen A) (h : exn -> gen A) :
  try_except (yield_from xs k) h = yield_from xs (try_except k h).
Proof. induction xs as [|x xs IH]; cbn; [reflexivity|now rewrite IH]. Qed.

Lemma yield_from_app {A : Type} (xs ys : list A) (k : gen A) :
  yield_from (xs ++ ys) k = yield_from xs (yield_from ys k).
Proof. induction xs as [|x xs IH]; cbn; [reflexivity|now rewrite IH]. Qed.

(** The improvement generator forwards the text chunks and replaces every
    failure by its own [HTTPException]. *)
Lemma generate_improved_prompt_run (client : Client) (input : string) :
  yielded (generate_improved_prompt client input) = improvement_chunks client input
  /\ raised (generate_improved_prompt client input)
     = if improvement_failed client input
       then Some (HTTPException 500 "Failed to generate improved prompt")
       else None.
Proof.
  unfold generate_improved_prompt, improvement_chunks, improvement_failed.
  rewrite yielded_try_except, raised_try_except.
  destruct (client _ _) as [stream|e]; cbn [yielded raised app].
  - destruct (raised (text_stream stream)) as [e|]; cbn [yielded raised];
      rewrite app_nil_r; split; reflexivity.
  - split; reflexivity.
Qed.

Lemma forward_chunks_run (chunks : gen string) :
  yielded (forward_chunks chunks)
  = map improved_prompt_chunk (yielded chunks)
    ++ match raised chunks with None => [improved_prompt_complete] | Some _ => [] end
  /\ raised (forward_chunks chunks) = raised chunks.
Proof.
  induction chunks as [|e|c k [IHy IHr]]; cbn; try (split; reflexivity).
  rewrite IHy, IHr. split; reflexivity.
Qed.

(** [stream_improved_prompt] never raises.  It sends one
    [improved_prompt_chunk] event for each text chunk of the backend, in
    order, and closes with exactly one event: [improved_prompt_complete]
    when the backend stream ended normally, and otherwise one [error] event
    whose text is that of the generator's own [HTTPException], whatever the
    backend's exception was. *)
Theorem stream_improved_prompt_events (client : Client) (input : string) :
  raised (stream_improved_prompt client input) = None
  /\ yielded (stream_improved_prompt client input)
     = map improved_prompt_chunk (improvement_chunks client input)
       ++ [if improvement_failed client input
           then error "500: Failed to generate improved prompt"
           else improved_prompt_complete].
Proof.
  unfold stream_improved_prompt.
  rewrite raised_try_except, yielded_try_except.
  destruct (forward_chunks_run (generate_improved_prompt client input)) as [Hy Hr].
  destruct (generate_improved_prompt_run client input) as [Gy Gr].
  rewrite Hy, Hr, Gy, Gr.
  destruct (improvement_failed client input); cbn [raised yielded].
  - split; [reflexivity|]. rewrite app_nil_r. reflexivity.
  - split; [reflexivity|]. rewrite app_nil_r. reflexivity.
Qed.

Example stream_improved_prompt_interrupted :
  yielded (stream_improved_prompt
             (serving (deltas_then ["Segment "; "the nuclei"]
                         (Throw (PyError "APIStatusError" "Overloaded"))))
             "count nuclei")
  = [improved_prompt_chunk "Segment "; improved_prompt_chunk "the nuclei";
     error "500: Failed to generate improved prompt"].
Proof. vm_compute. reflexivity. Qed.

(** *** [macro_stream] with prompt improvement *)

Lemma forward_improved_run (chunks : gen string) :
  forall (improved_chunk : option string) (k : option string -> gen Event),
    raised chunks = None ->
    forward_improved chunks improved_chunk k
    = yield_from (map improved_prompt_chunk (yielded chunks))
                 (k (last_chunk improved_chunk (yielded chunks))).
Proof.
  induction chunks as [|e|c rest IH]; intros acc k Hr; cbn in *.
  - reflexivity.
  - discriminate.
  - rewrite IH by assumption. reflexivity.
Qed.

Lemma last_chunk_snoc (acc : option string) (earlier : list string) (c : string) :
  last_chunk acc (earlier ++ [c]) = Some c.
Proof. unfold last_chunk. now rewrite fold_left_app. Qed.

(** With [improve_prompt] set and an improvement stream that ends normally
    after at least one chunk, [macro_stream] forwards the chunks and the
    [improved_prompt_complete] event and then behaves exactly as
    [macro_stream] without improvement on the last chunk alone: the macro is
    generated from the last chunk of the improved prompt, the earlier chunks
    and the original input play no part in it. *)
Theorem macro_stream_generates_from_last_chunk
    (client : Client) (request : Request) (input : string)
    (earlier : list string) (final : string) :
  improvement_failed client input = false ->
  improvement_chunks client input = earlier ++ [final] ->
  macro_stream client request input true
  = yield_from (map improved_prompt_chunk (earlier ++ [final]) ++ [improved_prompt_complete])
               (macro_stream client request final false).
Proof.
  intros Hok Hchunks.
  destruct (generate_improved_prompt_run client input) as [Gy Gr].
  rewrite Hok in Gr. rewrite Hchunks in Gy.
  unfold macro_stream. cbv zeta.
  rewrite forward_improved_run by exact Gr.
  rewrite Gy, last_chunk_snoc, try_except_yield_from, yield_from_app.
  reflexivity.
Qed.

Lemma macro_stream_generates_from_last_chunk_witness :
  yielded (macro_stream
             (answering (deltas_then ["Segment the nuclei, "; "then count them."] Return)
                        (deltas_then [] Return))
             connected "count nuclei" true)
  = [improved_prompt_chunk "Segment the nuclei, ";
     improved_prompt_chunk "then count them.";
     improved_prompt_complete;
     section_change "description" EmptyString;
     complete].
Proof.
  exact (f_equal yielded
           (macro_stream_generates_from_last_chunk
              (answering (deltas_then ["Segment the nuclei, "; "then count them."] Return)
                         (deltas_then [] Return))
              connected "count nuclei"
              ["Segment the nuclei, "] "then count them." eq_refl eq_refl)).
Defined.

(** With [improve_prompt] set and an improvement stream that ends normally
    without any text chunk, [macro_stream] sends [improved_prompt_complete]
    and then one [error] event, and ends: the variable holding the last
    chunk was never bound, and no macro is generated. *)
Theorem macro_stream_empty_improvement
    (client : Client) (request : Request) (input : string) :
  improvement_failed client input = false ->
  improvement_chunks client input = [] ->
  raised (macro_stream client request input true) = None
  /\ exists msg,
       yielded (macro_stream client request input true)
       = [improved_prompt_complete; error msg].
Proof.
  intros Hok Hchunks.
  destruct (generate_improved_prompt_run client input) as [Gy Gr].
  rewrite Hok in Gr. rewrite Hchunks in Gy.
  unfold macro_stream. cbv zeta.
  rewrite forward_improved_run by exact Gr.
  rewrite Gy. cbn. split; [reflexivity|]. eexists. reflexivity.
Qed.

Lemma macro_stream_empty_improvement_witness :
  raised (macro_stream (serving (Yield OtherEvent Return)) connected "count nuclei" true)
  = None.
Proof.
  exact (proj1 (macro_stream_empty_improvement
                  (serving (Yield OtherEvent Return)) connected "count nuclei"
                  eq_refl eq_refl)).
Defined.

(** ** The section parser on arbitrary streams (atlas_service.py) *)

Lemma consume_stream_completes (stream : gen BackendEvent) :
  raised stream = None ->
  forall cur acc,
    In cur ["description"; "macro_script"; "explanation"] ->
    raised (consume_stream stream cur acc) = None
    /\ exists before,
         yielded (consume_stream stream cur acc) = before ++ [complete]
         /\ count_kind "complete" before = 0
         /\ count_kind "error" before = 0.
Proof.
  induction stream as [|e|ev rest IH]; intros Hr cur acc Hcur.
  - cbn [consume_stream]. destruct (Py.truthy acc); cbn [raised yielded].
    + split; [reflexivity|]. eexists [_]. repeat split.
    + split; [reflexivity|]. exists []. repeat split.
  - discriminate.
  - cbn [raised] in Hr. destruct ev as [d|]; cbn [consume_stream]; [|now apply IH].
    destruct (handle_section_transition d cur).
    + destruct (get_next_section_valid cur Hcur) as (next & -> & Hnext).
      unfold process_section_change. cbn [yield_from raised yielded].
      destruct (IH Hr next EmptyString Hnext) as (H1 & before & -> & H2 & H3).
      split; [exact H1|]. eexists (_ :: before). split; [reflexivity|].
      split; (change (?x :: ?l) with ([x] ++ l); rewrite count_kind_app);
        [rewrite H2|rewrite H3]; reflexivity.
    + cbn [raised yielded].
      destruct (IH Hr cur (acc +:+ d) Hcur) as (H1 & before & -> & H2 & H3).
      split; [exact H1|]. eexists (_ :: before). split; [reflexivity|].
      split; (change (?x :: ?l) with ([x] ++ l); rewrite count_kind_app);
        [rewrite H2|rewrite H3]; reflexivity.
Qed.

(** Whatever a backend stream that ends normally delivers (markers in any
    number and order, or none), the run of [generate_macro_from_prompt] ends
    normally: it begins with the initial description event, its last event
    is the one [complete] event, and it holds no [error] event; in
    particular the section names the parser cycles through never leave the
    list [get_next_section] knows. *)
Theorem generate_macro_completes_on_any_stream
    (client : Client) (prompt : string) (stream : gen BackendEvent) :
  client MACRO_GENERATION_PROMPT (macro_user_prompt prompt) = Ok stream ->
  raised stream = None ->
  raised (generate_macro_from_prompt client prompt) = None
  /\ exists before,
       yielded (generate_macro_from_prompt client prompt)
       = section_change "description" EmptyString :: before ++ [complete]
       /\ count_kind "complete" before = 0
       /\ count_kind "error" before = 0.
Proof.
  intros Hc Hr.
  destruct (consume_stream_completes stream Hr "description" EmptyString)
    as (H1 & before & Hy & H2 & H3); [simpl; auto|].
  unfold generate_macro_from_prompt. cbv zeta. rewrite Hc.
  rewrite raised_try_except, yielded_try_except. cbn [raised yielded].
  rewrite H1, Hy, app_nil_r. split; [reflexivity|]. now exists before.
Qed.

Lemma generate_macro_completes_on_any_stream_witness :
  raised (generate_macro_from_prompt
            (serving (deltas_then ["[EXPLANATION]"; "```"; "[DESCRIPTION]"; "```"] Return))
            "count nuclei") = None.
Proof.
  exact (proj1 (generate_macro_completes_on_any_stream
                  (serving (deltas_then ["[EXPLANATION]"; "```"; "[DESCRIPTION]"; "```"] Return))
                  "count nuclei" _ eq_refl eq_refl)).
Defined.

(** When no delta holds a marker or a code fence (a marker cut in two by a
    delta boundary is not seen either), every delta is forwarded unchanged
    as a [message] event of the description section, in order, and the whole
    text ends up in one closing [section_change] event of the description
    section, present exactly when some text was delivered. *)
Theorem generate_macro_without_markers
    (client : Client) (prompt : string) (deltas : list string) :
  client MACRO_GENERATION_PROMPT (macro_user_prompt prompt) = Ok (deltas_then deltas Return) ->
  Forall marker_free deltas ->
  yielded (generate_macro_from_prompt client prompt)
  = section_change "description" EmptyString
    :: map (fun d => message d "description") deltas
    ++ (if Py.truthy (concat_deltas deltas)
        then [section_change "description"
                (clean_section_content "description" (Py.strip (concat_deltas deltas)))]
        else [])
    ++ [complete].
Proof.
  intros Hc Hfree.
  unfold generate_macro_from_prompt. cbv zeta. rewrite Hc.
  rewrite consume_messages.
  2:{ eapply Forall_impl; [exact Hfree|]. intros d Hd. now apply no_transition_marker_free. }
  rewrite append_nil_l, yielded_try_except. cbn [yielded raised].
  rewrite raised_yield_from, yielded_yield_from. cbn [consume_stream].
  destruct (Py.truthy (concat_deltas deltas)); cbn [raised yielded];
    rewrite app_nil_r; reflexivity.
Qed.

Lemma generate_macro_without_markers_witness :
  yielded (generate_macro_from_prompt
             (serving (deltas_then ["Counts the [DESC"; "RIPTION] nuclei."] Return))
             "count nuclei")
  = [section_change "description" EmptyString;
     message "Counts the [DESC" "description";
     message "RIPTION] nuclei." "description";
     section_change "description" "Counts the  nuclei.";
     complete].
Proof.
  refine (generate_macro_without_markers
            (serving (deltas_then ["Counts the [DESC"; "RIPTION] nuclei."] Return))
            "count nuclei" ["Counts the [DESC"; "RIPTION] nuclei."] eq_refl _).
  repeat constructor.
Defined.

(** ** The configuration (config.py) *)

Example repr_of_a_key :
  py_repr "app.debug" = "'app.debug'"
  /\ py_repr "it's" = DQ +:+ "it's" +:+ DQ
  /\ py_repr ("a" +:+ NL +:+ "b") = "'a\nb'".
Proof. repeat split. Qed.

Lemma getitem_raises (value : yaml) (k : string) (e : exn) :
  Config.getitem value k = Raise e ->
  isinstance e ["KeyError"; "TypeError"] = true.
Proof.
  destruct value; cbn; try (intros [= <-]; reflexivity).
  destruct (Config.dict_getitem items k); [discriminate|]. intros [= <-]. reflexivity.
Qed.

Lemma descend_raises (keys : list string) :
  forall (value : yaml) (e : exn),
    Config.descend value keys = Raise e ->
    isinstance e ["KeyError"; "TypeError"] = true.
Proof.
  induction keys as [|k rest IH]; intros value e; cbn; [discriminate|].
  destruct (Config.getitem value k) as [v|e'] eqn:E.
  - apply IH.
  - intros [= <-]. eapply getitem_raises; eassumption.
Qed.

Lemma get_without_default (config_data : yaml) (key : string) :
  (exists value, Config.get config_data key YNull = Ok value)
  \/ Config.get config_data key YNull
     = Raise (KeyError ("Configuration key not found: " +:+ key)).
Proof.
  unfold Config.get. cbv zeta.
  destruct (Config.descend config_data (Py.split "." key)) as [v|e] eqn:E.
  - left. now exists v.
  - right. now rewrite (descend_raises _ _ _ E).
Qed.

Lemma get_found (config_data : yaml) (key : string) (value : yaml) :
  Config.get config_data key YNull = Ok value <->
  Config.descend config_data (Py.split "."%char key) = Ok value.
Proof.
  unfold Config.get. cbv zeta.
  destruct (Config.descend _ _) as [v|e] eqn:E; [reflexivity|].
  rewrite (descend_raises _ _ _ E). split; discriminate.
Qed.

(** [Config.get]: a value found under the key is returned whatever the
    default is, also when the value found is [None]; when nothing is found
    (a segment of the key is missing, or a value on the way is not a
    dictionary), the call without a default raises a [KeyError] naming the
    whole key, and a default other than [None] is returned instead: no other
    exception leaves the call, and with such a default none at all. *)
Theorem config_get_default (config_data : yaml) (key : string) (default : yaml) :
  (exists value,
     Config.get config_data key YNull = Ok value
     /\ Config.get config_data key default = Ok value)
  \/ (Config.get config_data key YNull
      = Raise (KeyError ("Configuration key not found: " +:+ key))
      /\ (default <> YNull -> Config.get config_data key default = Ok default)).
Proof.
  unfold Config.get. cbv zeta.
  destruct (Config.descend config_data (Py.split "." key)) as [v|e] eqn:E.
  - left. now exists v.
  - right. rewrite (descend_raises _ _ _ E).
    split; [reflexivity|]. intros Hd. destruct default; congruence.
Qed.

Lemma split_app_sep (sep : ascii) (a b : string) :
  Py.split sep (a +:+ String sep b) = Py.split sep a ++ Py.split sep b.
Proof.
  induction a as [|c a IH].
  - rewrite append_nil_l. cbn [Py.split app]. now rewrite Ascii.eqb_refl.
  - rewrite append_cons. cbn [Py.split]. destruct (Ascii.eqb c sep).
    + now rewrite IH.
    + rewrite IH. destruct (Py.split sep a) as [|l ls] eqn:E; [now apply split_nonnil in E|].
      reflexivity.
Qed.

Lemma descend_app (keys1 keys2 : list string) :
  forall value,
    Config.descend value (keys1 ++ keys2)
    = match Config.descend value keys1 with
      | Ok sub => Config.descend sub keys2
      | Raise e => Raise e
      end.
Proof.
  induction keys1 as [|k rest IH]; intros value; cbn; [reflexivity|].
  destruct (Config.getitem value k); [apply IH|reflexivity].
Qed.

(** Dotted keys compose: the value under [outer.inner] is the value under
    [inner] of the value under [outer], and is found exactly when both
    are. *)
Theorem config_get_composes (config_data : yaml) (outer inner : string) (value : yaml) :
  Config.get config_data (outer +:+ "." +:+ inner) YNull = Ok value
  <-> exists section,
        Config.get config_data outer YNull = Ok section
        /\ Config.get section inner YNull = Ok value.
Proof.
  rewrite get_found.
  change ("." +:+ inner) with (String "."%char inner).
  rewrite split_app_sep, descend_app. split.
  - destruct (Config.descend config_data (Py.split "." outer)) as [section|e] eqn:E;
      [|discriminate].
    intros H. exists section. split; now apply get_found.
  - intros (section & H1 & H2).
    apply get_found in H1. apply get_found in H2. now rewrite H1.
Qed.

Lemma collect_missing_spec (config_data : yaml) (required_keys : list string) :
  forall missing_keys,
    Config.collect_missing config_data required_keys missing_keys
    = Ok (missing_keys
          ++ List.filter (fun key => negb (is_set config_data key)) required_keys).
Proof.
  induction required_keys as [|key rest IH]; intros missing;
    cbn [Config.collect_missing List.filter].
  - now rewrite app_nil_r.
  - unfold is_set at 1.
    destruct (get_without_default config_data key) as [(v & ->)| ->]; cbn.
    + apply IH.
    + rewrite IH, <- app_assoc. reflexivity.
Qed.

(** [validate_required_keys] returns when every required key leads to a
    value ([None] counts as a value), and otherwise raises one [KeyError]
    whose message lists the keys that do not, in the order and as many times
    as they were required; no other exception leaves the call. *)
Theorem validate_required_keys_reports_missing
    (config_data : yaml) (required_keys : list string) :
  Config.validate_required_keys config_data required_keys
  = match List.filter (fun key => negb (is_set config_data key)) required_keys with
    | [] => Ok tt
    | missing_keys =>
        Raise (KeyError ("Missing required configuration keys: "
                         +:+ Py.join ", " missing_keys))
    end.
Proof.
  unfold Config.validate_required_keys. rewrite collect_missing_spec. cbn [app].
  destruct (List.filter _ _); reflexivity.
Qed.

Example config_lookups :
  Config.validate_required_keys sample_config
    ["app.debug"; "paths.fiji"; "app.name"; "auth.username"; "app"]
  = Raise (KeyError "Missing required configuration keys: paths.fiji, auth.username")
  /\ Config.get sample_config "app.name" (YStr "Atlas") = Ok YNull
  /\ Config.get sample_config "app.debug" (YBool true) = Ok (YBool false)
  /\ Config.get sample_config "paths.fiji" (YStr "/opt/fiji") = Ok (YStr "/opt/fiji")
  /\ Config.get sample_config "app.debug.level" (YInt 1) = Ok (YInt 1)
  /\ Config.get sample_config "" YNull = Raise (KeyError "Configuration key not found: ").
Proof. repeat split. Qed.

(** ** The log of the preview macro (image_service.py) *)

Lemma startswith_app (p s : string) :
  Py.startswith p s = true -> s = p +:+ Py.drop (String.length p) s.
Proof.
  revert s. induction p as [|a p IH]; intros s H; [reflexivity|].
  destruct s as [|b s]; [discriminate|]. cbn in H.
  apply andb_true_iff in H as [Hab H]. apply Ascii.eqb_eq in Hab as ->.
  rewrite append_cons. cbn [String.length Py.drop]. now rewrite <- IH.
Qed.

(** The first colon of a tagged line is the one that ends the tag. *)
Lemma after_colon_metadata (line : string) :
  Py.startswith "METADATA_PATH:" line = true ->
  after_colon line = Ok (Py.strip (Py.drop (String.length "METADATA_PATH:") line)).
Proof.
  intros H. rewrite (startswith_app _ _ H) at 1.
  generalize (Py.drop (String.length "METADATA_PATH:") line). intros rest.
  unfold after_colon. cbn. destruct rest; reflexivity.
Qed.

Lemma after_colon_preview (line : string) :
  Py.startswith "PREVIEW_PATH:" line = true ->
  after_colon line = Ok (Py.strip (Py.drop (String.length "PREVIEW_PATH:") line)).
Proof.
  intros H. rewrite (startswith_app _ _ H) at 1.
  generalize (Py.drop (String.length "PREVIEW_PATH:") line). intros rest.
  unfold after_colon. cbn. destruct rest; reflexivity.
Qed.

Lemma metadata_is_not_preview (line : string) :
  Py.startswith "METADATA_PATH:" line = true -> Py.startswith "PREVIEW_PATH:" line = false.
Proof.
  destruct line as [|c line]; [discriminate|]. cbn.
  destruct (Ascii.eqb_spec "M" c) as [<-|]; [reflexivity|discriminate].
Qed.

Lemma scan_log_spec (lines : list string) :
  forall metadata_path preview_path,
    scan_log lines metadata_path preview_path
    = Ok (or_else (last (tag_values "METADATA_PATH:" lines)) metadata_path,
          or_else (last (tag_values "PREVIEW_PATH:" lines)) preview_path).
Proof.
  induction lines as [|line rest IH]; intros m p; [reflexivity|].
  cbn [scan_log]. cbv zeta. unfold tag_values in *. cbn [List.filter].
  destruct (Py.startswith "METADATA_PATH:" (Py.strip line)) eqn:Hm.
  - rewrite (metadata_is_not_preview _ Hm), after_colon_metadata by assumption.
    rewrite IH. cbn [map]. rewrite last_cons.
    destruct (last (map _ (List.filter _ rest))); reflexivity.
  - destruct (Py.startswith "PREVIEW_PATH:" (Py.strip line)) eqn:Hp.
    + rewrite after_colon_preview by assumption.
      rewrite IH. cbn [map]. rewrite (last_cons (Py.strip _)).
      destruct (last (map _ (List.filter (fun l => Py.startswith "PREVIEW_PATH:" _) rest)));
        reflexivity.
    + apply IH.
Qed.

(** [_extract_paths_from_log]: of each tag the last declaration counts; a
    declaration is a line that, stripped, begins with the tag, and its value
    is the text after the tag up to surrounding white space, colons
    included.  The preview path is [None] when no line declares one.  The
    metadata is read only when the declared file exists; then a file that
    cannot be read as text makes the call raise, and in every other case the
    call returns, with empty metadata when nothing was read. *)
Theorem extract_paths_last_declaration_wins (log_content : string) (fs : FileSystem) :
  let preview_path := last_declared "PREVIEW_PATH:" log_content in
  match last_declared "METADATA_PATH:" log_content with
  | Some metadata_path =>
      if Py.truthy metadata_path && path_exists fs metadata_path then
        match read_text fs metadata_path with
        | Ok raw =>
            _extract_paths_from_log log_content fs = Ok ([("raw", raw)], preview_path)
        | Raise e => _extract_paths_from_log log_content fs = Raise e
        end
      else _extract_paths_from_log log_content fs = Ok ([], preview_path)
  | None => _extract_paths_from_log log_content fs = Ok ([], preview_path)
  end.
Proof.
  unfold _extract_paths_from_log, last_declared.
  rewrite scan_log_spec. unfold tag_values, or_else. cbv zeta.
  destruct (last (map _ (List.filter (fun l => Py.startswith "METADATA_PATH:" _) _)))
    as [metadata_path|]; [|destruct (last _); reflexivity].
  destruct (Py.truthy metadata_path && path_exists fs metadata_path);
    [|destruct (last _); reflexivity].
  destruct (read_text fs metadata_path); [destruct (last _)|]; reflexivity.
Qed.

Example extract_paths_of_a_log :
  let fs := plain_disk [("/tmp", Dir 4096); ("/tmp/meta.txt", File "Width: 512")] in
  _extract_paths_from_log
    ("PREVIEW_PATH: /tmp/old.png" +:+ NL +:+ "  METADATA_PATH:/tmp/meta.txt  " +:+ NL
     +:+ "note PREVIEW_PATH: ignored" +:+ NL +:+ "PREVIEW_PATH: C:/out/cells.png") fs
  = Ok ([("raw", "Width: 512")], Some "C:/out/cells.png")
  /\ match _extract_paths_from_log "METADATA_PATH: /tmp" fs with
     | Raise e => exn_class e = "IsADirectoryError"
     | Ok _ => False
     end
  /\ _extract_paths_from_log "METADATA_PATH: /tmp/gone.txt" fs = Ok ([], None).
Proof. vm_compute. repeat split. Qed.

(** ** Polling the disk (file_service.py, image_service.py) *)

Lemma poll_until_spec (disk_at : Timeline) (path : string) (end_time check_interval : Z) :
  (0 < check_interval)%Z ->
  forall (fuel : nat) (now : Z),
    0 < fuel ->
    (end_time - now <= (Z.of_nat fuel - 1) * check_interval)%Z ->
    exists (r : result bool) (k : nat),
      poll_until fuel disk_at path end_time check_interval now
      = Some (r, (now + Z.of_nat k * check_interval)%Z)
      /\ (forall j, j < k ->
            nonempty_at (disk_at (now + Z.of_nat j * check_interval)%Z) path = false
            /\ unexaminable (disk_at (now + Z.of_nat j * check_interval)%Z) path = None
            /\ (now + Z.of_nat j * check_interval < end_time)%Z)
      /\ poll_outcome (disk_at (now + Z.of_nat k * check_interval)%Z) path
           (now + Z.of_nat k * check_interval < end_time)%Z r.
Proof.
  intros Hpos. induction fuel as [|fuel IH]; intros now Hfuel Hend; [lia|].
  cbn [poll_until].
  assert (H0 : (now + Z.of_nat 0 * check_interval)%Z = now) by lia.
  destruct (Z.ltb_spec now end_time) as [Hlt|Hge].
  2:{ exists (Ok false), 0. rewrite H0.
      split; [reflexivity|]. split; [intros j Hj; lia|]. cbn. lia. }
  assert (Hstep :
    nonempty_at (disk_at now) path = false ->
    unexaminable (disk_at now) path = None ->
    exists (r : result bool) (k : nat),
      poll_until fuel disk_at path end_time check_interval (now + check_interval)%Z
      = Some (r, (now + Z.of_nat k * check_interval)%Z)
      /\ (forall j, j < k ->
            nonempty_at (disk_at (now + Z.of_nat j * check_interval)%Z) path = false
            /\ unexaminable (disk_at (now + Z.of_nat j * check_interval)%Z) path = None
            /\ (now + Z.of_nat j * check_interval < end_time)%Z)
      /\ poll_outcome (disk_at (now + Z.of_nat k * check_interval)%Z) path
           (now + Z.of_nat k * check_interval < end_time)%Z r).
  { intros Hne Hex.
    destruct (IH (now + check_interval)%Z) as (r & k & -> & Hbefore & Hat); [nia|nia|].
    assert (Hshift : forall j, (now + check_interval + Z.of_nat j * check_interval
                                = now + Z.of_nat (S j) * check_interval)%Z) by (intros; lia).
    exists r, (S k). rewrite <- Hshift. split; [reflexivity|]. split; [|exact Hat].
    intros [|j] Hj; [rewrite H0; now repeat split|].
    rewrite <- Hshift. apply Hbefore. lia. }
  unfold pathlib_exists, st_size, nonempty_at, unexaminable in *.
  destruct (fs_lookup (disk_at now) path) as [n|] eqn:Hn.
  - destruct (Nat.ltb 0 (node_size n)) eqn:Hsize.
    + exists (Ok true), 0. rewrite H0.
      split; [reflexivity|]. split; [intros j Hj; lia|].
      unfold poll_outcome, nonempty_at. rewrite Hn. now split.
    + now apply Hstep.
  - destruct (stat_error (disk_at now) path) as [e|] eqn:Herr.
    + exists (Raise e), 0. rewrite H0.
      split; [reflexivity|]. split; [intros j Hj; lia|].
      unfold poll_outcome, unexaminable. rewrite Hn. now split.
    + now apply Hstep.
Qed.

Lemma enough_polls (timeout check_interval : Z) (fuel : nat) :
  (0 < check_interval)%Z -> (0 <= timeout)%Z ->
  Z.to_nat (timeout * 1000 / check_interval) + 1 < fuel ->
  (timeout * 1000 < (Z.of_nat fuel - 1) * check_interval)%Z.
Proof.
  intros Hpos Htimeout Hfuel.
  pose proof (Z.div_mod (timeout * 1000) check_interval ltac:(lia)) as Hdm.
  pose proof (Z.mod_pos_bound (timeout * 1000) check_interval Hpos) as Hmod.
  pose proof (Z.div_pos (timeout * 1000) check_interval ltac:(lia) Hpos) as Hq.
  assert (timeout * 1000 / check_interval + 1 < Z.of_nat fuel - 1 + 1)%Z by lia.
  nia.
Qed.

(** [FileService.wait_for_file] polls every [check_interval] while the
    clock is before the deadline.  It returns [True] at the first poll that
    finds the file present with a size other than zero, and [False] at the
    first poll that falls on or after the deadline, so with a timeout of
    zero without looking at the disk, and a file completed between the last
    poll and the deadline is missed.  It raises at the first poll, made
    before the deadline, at which the path cannot be examined, and what it
    raises is the error of that poll; it raises nothing else.  At every
    poll before the one that ends the call, the file was absent or empty
    and the path could be examined. *)
Theorem file_service_wait_for_file_outcomes (disk_at : Timeline) (file_path : string)
    (timeout check_interval now : Z) (fuel : nat) :
  (0 < check_interval)%Z ->
  (0 <= timeout)%Z ->
  Z.to_nat (timeout * 1000 / check_interval) + 1 < fuel ->
  exists (r : result bool) (k : nat),
    wait_for_file fuel disk_at file_path timeout check_interval now
    = Some (r, (now + Z.of_nat k * check_interval)%Z)
    /\ (forall j, j < k ->
          nonempty_at (disk_at (now + Z.of_nat j * check_interval)%Z) (Path.make file_path)
          = false
          /\ unexaminable (disk_at (now + Z.of_nat j * check_interval)%Z)
               (Path.make file_path) = None
          /\ (Z.of_nat j * check_interval < timeout * 1000)%Z)
    /\ poll_outcome (disk_at (now + Z.of_nat k * check_interval)%Z) (Path.make file_path)
         (Z.of_nat k * check_interval < timeout * 1000)%Z r.
Proof.
  intros Hpos Htimeout Hfuel.
  pose proof (enough_polls timeout check_interval fuel Hpos Htimeout Hfuel) as Henough.
  unfold wait_for_file. cbv zeta.
  destruct (poll_until_spec disk_at (Path.make file_path) (now + timeout * 1000)%Z
              check_interval Hpos fuel now) as (r & k & -> & Hbefore & Hat); [lia|lia|].
  exists r, k. split; [reflexivity|]. split.
  - intros j Hj. destruct (Hbefore j Hj) as (Ha & Hb & Hc). repeat split; [exact Ha|exact Hb|lia].
  - unfold poll_outcome in *. destruct r as [[|]|e].
    + destruct Hat as [Ha Hb]. split; [exact Ha|lia].
    + lia.
    + destruct Hat as [Ha Hb]. split; [exact Ha|lia].
Qed.

Lemma file_service_wait_for_file_outcomes_witness :
  exists k,
    wait_for_file 200 (preview_timeline 1200 (fun _ => 7)) "/tmp//preview.png" 60 500 0
    = Some (Ok true, (0 + Z.of_nat k * 500)%Z).
Proof.
  destruct (file_service_wait_for_file_outcomes
              (preview_timeline 1200 (fun _ => 7)) "/tmp//preview.png" 60 500 0 200
              ltac:(lia) ltac:(lia) ltac:(vm_compute; lia))
    as (r & k & H & Hbefore & Hat).
  exists k.
  assert (Hk : k <= 3).
  { destruct (Nat.lt_ge_cases 3 k) as [Hk|Hk]; [|exact Hk].
    destruct (Hbefore 3 Hk) as [Hne _]. vm_compute in Hne. discriminate. }
  destruct r as [[|]|e]; [exact H| |]; exfalso; unfold poll_outcome in Hat.
  - lia.
  - destruct Hat as [Hat _].
    destruct k as [|[|[|[|k]]]]; [vm_compute in Hat; discriminate..|lia].
Defined.

Lemma await_content_spec (disk_at : Timeline) (file_path : string)
    (timeout check_interval start_time : Z) :
  (0 < check_interval)%Z ->
  forall (fuel : nat) (now : Z),
    0 < fuel ->
    (timeout * 1000 - (now - start_time) < (Z.of_nat fuel - 1) * check_interval)%Z ->
    exists (r : result string) (k : nat),
      await_content fuel disk_at file_path timeout check_interval start_time now
      = Some (r, (now + Z.of_nat k * check_interval)%Z)
      /\ (forall j, j < k ->
            wait_state disk_at file_path check_interval now j = NotYet
            /\ (now + Z.of_nat j * check_interval - start_time <= timeout * 1000)%Z)
      /\ match r with
         | Ok content =>
             wait_state disk_at file_path check_interval now k = Content content
             /\ (now + Z.of_nat k * check_interval - start_time <= timeout * 1000)%Z
         | Raise e =>
             (e = ContentTimeoutError timeout file_path
              /\ (timeout * 1000 < now + Z.of_nat k * check_interval - start_time)%Z)
             \/ (wait_state disk_at file_path check_interval now k = Broken e
                 /\ (now + Z.of_nat k * check_interval - start_time <= timeout * 1000)%Z)
         end.
Proof.
  intros Hpos. induction fuel as [|fuel IH]; intros now Hfuel Hend; [lia|].
  cbn [await_content].
  assert (H0 : (now + Z.of_nat 0 * check_interval)%Z = now) by lia.
  destruct (Z.ltb_spec (timeout * 1000) (now - start_time)) as [Hout|Hin].
  { exists (Raise (ContentTimeoutError timeout file_path)), 0. rewrite H0.
    split; [reflexivity|]. split; [intros j Hj; lia|]. left. now split. }
  assert (Hstep :
    wait_state disk_at file_path check_interval now 0 = NotYet ->
    exists (r : result string) (k : nat),
      await_content fuel disk_at file_path timeout check_interval start_time
        (now + check_interval)%Z
      = Some (r, (now + Z.of_nat k * check_interval)%Z)
      /\ (forall j, j < k ->
            wait_state disk_at file_path check_interval now j = NotYet
            /\ (now + Z.of_nat j * check_interval - start_time <= timeout * 1000)%Z)
      /\ match r with
         | Ok content =>
             wait_state disk_at file_path check_interval now k = Content content
             /\ (now + Z.of_nat k * check_interval - start_time <= timeout * 1000)%Z
         | Raise e =>
             (e = ContentTimeoutError timeout file_path
              /\ (timeout * 1000 < now + Z.of_nat k * check_interval - start_time)%Z)
             \/ (wait_state disk_at file_path check_interval now k = Broken e
                 /\ (now + Z.of_nat k * check_interval - start_time <= timeout * 1000)%Z)
         end).
  { intros Hnot.
    destruct (IH (now + check_interval)%Z) as (r & k & -> & Hbefore & Hat); [nia|nia|].
    assert (Hshift : forall j, (now + check_interval + Z.of_nat j * check_interval
                                = now + Z.of_nat (S j) * check_interval)%Z) by (intros; lia).
    unfold wait_state in *.
    exists r, (S k). rewrite <- Hshift. split; [reflexivity|]. split.
    - intros [|j] Hj; [rewrite H0 in *; split; [exact Hnot|lia]|].
      rewrite <- Hshift. apply Hbefore. lia.
    - exact Hat. }
  unfold wait_state, poll_content in Hstep |- *. rewrite H0 in Hstep.
  destruct (read_text (disk_at now) file_path) as [text|e] eqn:Hread; cbv zeta.
  - destruct (Py.truthy (Py.strip text)) eqn:Htext.
    + exists (Ok (Py.strip text)), 0. rewrite H0, Hread, Htext.
      split; [reflexivity|]. split; [intros j Hj; lia|]. now split.
    + now apply Hstep.
  - destruct (isinstance e ["FileNotFoundError"; "PermissionError"]) eqn:Hcls.
    + now apply Hstep.
    + exists (Raise e), 0. rewrite H0, Hread, Hcls.
      split; [reflexivity|]. split; [intros j Hj; lia|]. right. now split.
Qed.

(** [_wait_for_file_content] polls every [check_interval], up to and
    including the instant the timeout is reached.  It returns at the first
    poll that finds text other than white space in the file, and returns
    that text stripped, so never an empty text; a file that is missing or may
    not be read, and a file holding only white space, make it poll again;
    any other failure to read the file (a directory in its place, bytes that
    are no text) leaves the call at once; and it raises the timeout failure
    at the first poll later than the timeout. *)
Theorem wait_for_file_content_outcomes (disk_at : Timeline) (file_path : string)
    (timeout check_interval now : Z) (fuel : nat) :
  (0 < check_interval)%Z ->
  (0 <= timeout)%Z ->
  Z.to_nat (timeout * 1000 / check_interval) + 1 < fuel ->
  exists (r : result string) (k : nat),
    _wait_for_file_content fuel disk_at file_path timeout check_interval now
    = Some (r, (now + Z.of_nat k * check_interval)%Z)
    /\ (forall j, j < k ->
          wait_state disk_at file_path check_interval now j = NotYet
          /\ (Z.of_nat j * check_interval <= timeout * 1000)%Z)
    /\ match r with
       | Ok content =>
           wait_state disk_at file_path check_interval now k = Content content
           /\ content <> EmptyString
           /\ (Z.of_nat k * check_interval <= timeout * 1000)%Z
       | Raise e =>
           (e = ContentTimeoutError timeout file_path
            /\ (timeout * 1000 < Z.of_nat k * check_interval)%Z)
           \/ (wait_state disk_at file_path check_interval now k = Broken e
               /\ (Z.of_nat k * check_interval <= timeout * 1000)%Z)
       end.
Proof.
  intros Hpos Htimeout Hfuel.
  pose proof (enough_polls timeout check_interval fuel Hpos Htimeout Hfuel) as Henough.
  unfold _wait_for_file_content. cbv zeta.
  destruct (await_content_spec disk_at file_path timeout check_interval now Hpos fuel now)
    as (r & k & -> & Hbefore & Hat); [lia|lia|].
  exists r, k. split; [reflexivity|]. split.
  - intros j Hj. destruct (Hbefore j Hj) as [Ha Hb]. split; [exact Ha|lia].
  - destruct r as [content|e].
    + destruct Hat as [Ha Hb]. split; [exact Ha|]. split; [|lia].
      unfold wait_state, poll_content in Ha.
      destruct (read_text _ _) as [text|e]; [|destruct (isinstance _ _); discriminate].
      destruct (Py.truthy (Py.strip text)) eqn:Ht; [|discriminate].
      injection Ha as <-. intros Hempty. rewrite Hempty in Ht. discriminate.
    + destruct Hat as [[He Hb]|[Ha Hb]]; [left|right]; (split; [assumption|lia]).
Qed.

Lemma wait_for_file_content_outcomes_witness :
  exists r k,
    _wait_for_file_content 200
      (log_timeline 1000 3000 ("PREVIEW_PATH: /tmp/tmp0/cells.png" +:+ NL))
      "/tmp/tmp0/output_log.txt" 60 1000 0
    = Some (r, (0 + Z.of_nat k * 1000)%Z).
Proof.
  destruct (wait_for_file_content_outcomes
              (log_timeline 1000 3000 ("PREVIEW_PATH: /tmp/tmp0/cells.png" +:+ NL))
              "/tmp/tmp0/output_log.txt" 60 1000 0 200
              ltac:(lia) ltac:(lia) ltac:(vm_compute; lia))
    as (r & k & H & _).
  now exists r, k.
Defined.

Example wait_for_file_content_runs :
  _wait_for_file_content 200
    (log_timeline 1000 3000 ("PREVIEW_PATH: /tmp/tmp0/cells.png" +:+ NL))
    "/tmp/tmp0/output_log.txt" 60 1000 0
  = Some (Ok "PREVIEW_PATH: /tmp/tmp0/cells.png", 3000%Z)
  /\ _wait_for_file_content 200 (log_timeline 0 100000 "late") "/tmp/tmp0/output_log.txt" 60 1000 0
     = Some (Raise (ContentTimeoutError 60 "/tmp/tmp0/output_log.txt"), 61000%Z)
  /\ match _wait_for_file_content 200 (log_timeline 0 0 "x") "/tmp/tmp0" 60 1000 0 with
     | Some (Raise e, t) => exn_class e = "IsADirectoryError" /\ t = 0%Z
     | _ => False
     end.
Proof. vm_compute. repeat split. Qed.

Example wait_for_file_deadline :
  wait_for_file 200 (preview_timeline 0 (fun _ => 7)) "/tmp/preview.png" 0 500 0
  = Some (Ok false, 0%Z)
  /\ match wait_for_file 200 (refusing_until 100000 7) "/tmp/preview.png" 60 500 0 with
     | Some (Raise e, t) => exn_class e = "OSError" /\ t = 0%Z
     | _ => False
     end
  /\ wait_for_file 200 (refusing_until 0 7) "/tmp/preview.png" 60 500 0 = Some (Ok true, 0%Z)
  /\ wait_for_file 200 (preview_timeline 1200 (fun _ => 7)) "/tmp/preview.png" 60 500 0
     = Some (Ok true, 1500%Z)
  /\ wait_for_file 200 (preview_timeline 59900 (fun _ => 7)) "/tmp/preview.png" 60 500 0
     = Some (Ok false, 60000%Z).
Proof. vm_compute. repeat split. Qed.

(** ** Starting and stopping the engine (imagej_service.py) *)

Lemma attempt_body_outcome (platform : Startup.Platform) (config_data : yaml)
    (attempt : nat) (s : Startup.State) :
  let '(r, s') := Startup.attempt_body platform config_data attempt s in
  (match r with Raise _ => true | Ok _ => false end
   = attempt_fails platform config_data attempt)
  /\ Startup.slept s' = Startup.slept s
  /\ Startup.disposed s' = Startup.disposed s
  /\ length (Startup.options s') = length (Startup.options s) + 2
  /\ (r = Ok tt ->
      Startup.ij s' = Some attempt
      /\ Startup.IJ s' = Some "ij.IJ" /\ Startup.BF s' = Some "loci.plugins.BF").
Proof.
  unfold attempt_fails, Startup.attempt_body, Startup._configure_java_options,
    Startup._import_imagej_classes, Startup._log_version_info.
  cbv zeta.
  destruct (Config.get config_data "paths.bioformats_dir" YNull) as [bf_jar|e];
    [destruct (yaml_truthy bf_jar)|];
    (destruct (Config.get config_data "paths.imagej_dir" YNull) as [imagej_dir|e'];
     [destruct (Startup.imagej_init platform attempt imagej_dir);
      [destruct (Startup.setHeadless platform attempt);
       [destruct (Startup.jimport platform attempt "ij.IJ");
        [destruct (Startup.jimport platform attempt "loci.plugins.BF");
         [destruct (Startup.getVersion platform attempt);
          [destruct (Startup.jimport platform attempt "loci.formats.FormatTools")|]|]|]|]|]|]);
    cbn; rewrite ?length_app; cbn;
    repeat split; try lia; try discriminate; try (destruct a; reflexivity); auto.
Qed.

Lemma attempts_step (platform : Startup.Platform) (config_data : yaml)
    (retries delay : Z) (remaining attempt : nat) (s : Startup.State) :
  Startup.attempts platform config_data retries delay (S remaining) attempt s
  = match Startup.attempt_body platform config_data attempt s with
    | (Ok _, s) => (Ok tt, s)
    | (Raise _, s) =>
        if (Z.of_nat attempt <? retries)%Z then
          match Startup.sleep delay s with
          | (Raise e, s) => (Raise e, s)
          | (Ok _, s) =>
              Startup.attempts platform config_data retries delay remaining (S attempt) s
          end
        else (Raise (InitializationFailed retries), s)
    end.
Proof. reflexivity. Qed.

(** A delay the clock can hold is slept. *)
Lemma sleep_returns (delay : Z) (s : Startup.State) :
  (0 <= delay <= Startup.MAX_SLEEP)%Z ->
  exists s',
    Startup.sleep delay s = (Ok tt, s')
    /\ Startup.slept s' = (Startup.slept s + delay)%Z
    /\ Startup.disposed s' = Startup.disposed s
    /\ Startup.options s' = Startup.options s
    /\ Startup.ij s' = Startup.ij s
    /\ Startup.IJ s' = Startup.IJ s /\ Startup.BF s' = Startup.BF s.
Proof.
  intros Hdelay. unfold Startup.sleep, Startup.sleep_error.
  destruct (Z.ltb_spec Startup.MAX_SLEEP (Z.abs delay)); [lia|].
  destruct (Z.ltb_spec delay 0); [lia|].
  eexists. split; [reflexivity|]. now repeat split.
Qed.

Lemma sleep_raises (delay : Z) (s : Startup.State) (e : exn) :
  Startup.sleep_error delay = Some e -> Startup.sleep delay s = (Raise e, s).
Proof. unfold Startup.sleep. now intros ->. Qed.

Lemma attempts_all_fail (platform : Startup.Platform) (config_data : yaml)
    (retries delay : Z) :
  forall (remaining attempt : nat) (s : Startup.State),
    (0 < remaining -> (0 <= delay <= Startup.MAX_SLEEP)%Z) ->
    (Z.of_nat attempt + Z.of_nat remaining = retries)%Z ->
    (forall a, attempt <= a <= attempt + remaining ->
               attempt_fails platform config_data a = true) ->
    exists s',
      Startup.attempts platform config_data retries delay (S remaining) attempt s
      = (Raise (InitializationFailed retries), s')
      /\ Startup.slept s' = (Startup.slept s + Z.of_nat remaining * delay)%Z
      /\ Startup.disposed s' = Startup.disposed s
      /\ length (Startup.options s') = length (Startup.options s) + 2 * S remaining.
Proof.
  induction remaining as [|remaining IH]; intros attempt s Hdelay Hlast Hfail;
    rewrite attempts_step;
    pose proof (attempt_body_outcome platform config_data attempt s) as Hbody;
    destruct (Startup.attempt_body platform config_data attempt s) as [r s1];
    destruct Hbody as (Hr & Hslept & Hdisp & Hopts & _);
    rewrite (Hfail attempt ltac:(lia)) in Hr; destruct r as [|e]; try discriminate.
  - destruct (Z.ltb_spec (Z.of_nat attempt) retries); [lia|].
    exists s1. split; [reflexivity|]. repeat split; lia || congruence.
  - destruct (Z.ltb_spec (Z.of_nat attempt) retries); [|lia].
    destruct (sleep_returns delay s1 (Hdelay ltac:(lia)))
      as (s2 & -> & Hs2 & Hd2 & Ho2 & _).
    destruct (IH (S attempt) s2) as (s' & -> & Hs & Hd & Ho).
    + intros _. apply Hdelay. lia.
    + lia.
    + intros a Ha. apply Hfail. lia.
    + exists s'. split; [reflexivity|]. rewrite Ho2 in Ho.
      repeat split; lia || congruence.
Qed.

Lemma attempts_first_success (platform : Startup.Platform) (config_data : yaml)
    (retries delay : Z) :
  forall (failures remaining attempt : nat) (s : Startup.State),
    (0 < failures -> (0 <= delay <= Startup.MAX_SLEEP)%Z) ->
    failures < remaining ->
    (Z.of_nat attempt + Z.of_nat remaining <= retries + 1)%Z ->
    (forall a, attempt <= a < attempt + failures ->
               attempt_fails platform config_data a = true) ->
    attempt_fails platform config_data (attempt + failures) = false ->
    exists s',
      Startup.attempts platform config_data retries delay remaining attempt s = (Ok tt, s')
      /\ Startup.slept s' = (Startup.slept s + Z.of_nat failures * delay)%Z
      /\ Startup.ij s' = Some (attempt + failures)
      /\ Startup.IJ s' = Some "ij.IJ" /\ Startup.BF s' = Some "loci.plugins.BF".
Proof.
  induction failures as [|failures IH]; intros remaining attempt s Hdelay Hrem Hlast Hfail Hok;
    (destruct remaining as [|remaining]; [lia|]);
    rewrite attempts_step;
    pose proof (attempt_body_outcome platform config_data attempt s) as Hbody;
    destruct (Startup.attempt_body platform config_data attempt s) as [r s1];
    destruct Hbody as (Hr & Hslept & Hdisp & Hopts & Hset).
  - rewrite Nat.add_0_r in *. rewrite Hok in Hr. destruct r as [[]|e]; [|discriminate].
    destruct (Hset eq_refl) as (H1 & H2 & H3).
    exists s1. split; [reflexivity|]. repeat split; lia || assumption.
  - rewrite (Hfail attempt ltac:(lia)) in Hr. destruct r as [|e]; [discriminate|].
    destruct (Z.ltb_spec (Z.of_nat attempt) retries); [|lia].
    destruct (sleep_returns delay s1 (Hdelay ltac:(lia))) as (s2 & -> & Hs2 & _).
    destruct (IH remaining (S attempt) s2)
      as (s' & -> & Hs & H1 & H2 & H3).
    + intros _. apply Hdelay. lia.
    + lia.
    + lia.
    + intros a Ha. apply Hfail. lia.
    + replace (S attempt + failures) with (attempt + S failures) by lia. exact Hok.
    + exists s'. split; [reflexivity|].
      replace (attempt + S failures) with (S attempt + failures) by lia.
      repeat split; lia || assumption.
Qed.

(** [initialize], for a delay that [time.sleep] takes: the first attempt
    that does not raise ends the loop, after one sleep of [delay] seconds
    for each attempt that failed before it, and leaves the service ready;
    when each of the [retries] attempts raises, the call raises a
    [RuntimeError] after [retries - 1] sleeps (none after the last attempt),
    the Java options having been added once per attempt; with no attempt to
    make ([retries] zero or negative) the call returns without an error and
    leaves the service as it was.  For a delay that [time.sleep] refuses, a
    negative one or one too large for the clock, a first attempt that fails
    with another attempt to come ends the call with the exception of
    [time.sleep]: no second attempt is made and no [RuntimeError] raised. *)
Theorem initialize_retries (platform : Startup.Platform) (config_data : yaml)
    (retries delay : Z) (s : Startup.State) :
  (forall k,
     (0 < k -> (0 <= delay <= Startup.MAX_SLEEP)%Z) ->
     (Z.of_nat k < retries)%Z ->
     (forall a, 1 <= a <= k -> attempt_fails platform config_data a = true) ->
     attempt_fails platform config_data (S k) = false ->
     exists s',
       Startup.initialize platform config_data retries delay s = (Ok tt, s')
       /\ Startup.slept s' = (Startup.slept s + Z.of_nat k * delay)%Z
       /\ Startup.ij s' = Some (S k)
       /\ Startup.get_imagej_objects s' = Ok ("ij.IJ", "loci.plugins.BF"))
  /\ ((1 <= retries)%Z ->
      ((1 < retries)%Z -> (0 <= delay <= Startup.MAX_SLEEP)%Z) ->
      (forall a, (1 <= Z.of_nat a <= retries)%Z ->
                 attempt_fails platform config_data a = true) ->
      exists s',
        Startup.initialize platform config_data retries delay s
        = (Raise (InitializationFailed retries), s')
        /\ Startup.slept s' = (Startup.slept s + (retries - 1) * delay)%Z
        /\ length (Startup.options s')
           = length (Startup.options s) + 2 * Z.to_nat retries)
  /\ ((retries <= 0)%Z ->
      Startup.initialize platform config_data retries delay s = (Ok tt, s))
  /\ (forall e,
        Startup.sleep_error delay = Some e ->
        (1 < retries)%Z ->
        attempt_fails platform config_data 1 = true ->
        exists s',
          Startup.initialize platform config_data retries delay s = (Raise e, s')
          /\ Startup.slept s' = Startup.slept s
          /\ length (Startup.options s') = length (Startup.options s) + 2)
  /\ ((delay < 0)%Z -> exists e, Startup.sleep_error delay = Some e).
Proof.
  unfold Startup.initialize. split; [|split; [|split; [|split]]].
  - intros k Hdelay Hk Hfail Hok.
    destruct (attempts_first_success platform config_data retries delay
                k (Z.to_nat retries) 1 s) as (s' & -> & Hs & H1 & H2 & H3).
    + exact Hdelay.
    + lia.
    + lia.
    + intros a Ha. apply Hfail. lia.
    + exact Hok.
    + exists s'. split; [reflexivity|]. split; [exact Hs|]. split; [exact H1|].
      unfold Startup.get_imagej_objects. now rewrite H2, H3.
  - intros Hretries Hdelay Hfail.
    destruct (attempts_all_fail platform config_data retries delay
                (Z.to_nat retries - 1) 1 s) as (s' & Hrun & Hs & _ & Ho).
    + intros Hrem. apply Hdelay. lia.
    + lia.
    + intros a Ha. apply Hfail. lia.
    + replace (S (Z.to_nat retries - 1)) with (Z.to_nat retries) in * by lia.
      exists s'. split; [exact Hrun|]. split; [|exact Ho].
      rewrite Hs. now replace (Z.of_nat (Z.to_nat retries - 1)) with (retries - 1)%Z by lia.
  - intros Hretries. replace (Z.to_nat retries) with 0 by lia. reflexivity.
  - intros e He Hretries Hfail.
    destruct (Z.to_nat retries) as [|remaining] eqn:Hrem; [lia|].
    rewrite attempts_step.
    pose proof (attempt_body_outcome platform config_data 1 s) as Hbody.
    destruct (Startup.attempt_body platform config_data 1 s) as [r s1].
    destruct Hbody as (Hr & Hslept & _ & Hopts & _).
    rewrite Hfail in Hr. destruct r as [|e1]; [discriminate|].
    destruct (Z.ltb_spec (Z.of_nat 1) retries); [|lia].
    rewrite (sleep_raises _ _ _ He). exists s1. now repeat split.
  - intros Hneg. unfold Startup.sleep_error.
    destruct (Startup.MAX_SLEEP <? Z.abs delay)%Z; [now eexists|].
    destruct (Z.ltb_spec delay 0); [now eexists|lia].
Qed.

(** A configuration without [paths.imagej_dir] makes every attempt fail,
    whatever the platform does. *)
Lemma attempt_fails_without_imagej_dir (platform : Startup.Platform) (config_data : yaml)
    (attempt : nat) :
  is_set config_data "paths.imagej_dir" = false ->
  attempt_fails platform config_data attempt = true.
Proof.
  unfold is_set, attempt_fails, Startup.attempt_body, Startup._configure_java_options.
  cbv zeta.
  destruct (Config.get config_data "paths.imagej_dir" YNull); [discriminate|]. intros _.
  destruct (Config.get config_data "paths.bioformats_dir" YNull) as [bf_jar|e'];
    [destruct (yaml_truthy bf_jar)|]; reflexivity.
Qed.

Lemma attempts_invariant (platform : Startup.Platform) (config_data : yaml)
    (retries delay : Z) (P : Startup.State -> Prop) :
  (forall attempt s, P s -> P (snd (Startup.attempt_body platform config_data attempt s))) ->
  (forall s, P s -> P (snd (Startup.sleep delay s))) ->
  forall (remaining attempt : nat) (s : Startup.State),
    P s -> P (snd (Startup.attempts platform config_data retries delay remaining attempt s)).
Proof.
  intros Hbody Hsleep. induction remaining as [|remaining IH]; intros attempt s Hs.
  - exact Hs.
  - rewrite attempts_step. specialize (Hbody attempt s Hs).
    destruct (Startup.attempt_body platform config_data attempt s) as [[[]|e] s1];
      cbn [snd] in *; [exact Hbody|].
    destruct (Z.of_nat attempt <? retries)%Z; [|exact Hbody].
    specialize (Hsleep s1 Hbody).
    destruct (Startup.sleep delay s1) as [[[]|e'] s2]; cbn [snd] in *; [|exact Hsleep].
    now apply IH.
Qed.

(** [initialize] on a configuration without [paths.imagej_dir], for a delay
    that [time.sleep] takes: the lookup raises inside every attempt,
    whatever the platform does, so the call sleeps between the attempts all
    the same, raises its [RuntimeError] only after the last one, and leaves
    the two classes of the service as they were. *)
Theorem initialize_without_imagej_dir (platform : Startup.Platform) (config_data : yaml)
    (retries delay : Z) (s : Startup.State) :
  is_set config_data "paths.imagej_dir" = false ->
  (1 <= retries)%Z ->
  (0 <= delay <= Startup.MAX_SLEEP)%Z ->
  exists s',
    Startup.initialize platform config_data retries delay s
    = (Raise (InitializationFailed retries), s')
    /\ Startup.slept s' = (Startup.slept s + (retries - 1) * delay)%Z
    /\ Startup.get_imagej_objects s' = Startup.get_imagej_objects s.
Proof.
  intros Hunset Hretries Hdelay.
  pose proof (attempts_invariant platform config_data retries delay
                (fun s' => Startup.IJ s' = Startup.IJ s /\ Startup.BF s' = Startup.BF s))
    as Hinv.
  unfold Startup.initialize.
  destruct (attempts_all_fail platform config_data retries delay
              (Z.to_nat retries - 1) 1 s) as (s' & Hrun & Hs & _).
  - intros _. exact Hdelay.
  - lia.
  - intros a _. now apply attempt_fails_without_imagej_dir.
  - replace (S (Z.to_nat retries - 1)) with (Z.to_nat retries) in * by lia.
    exists s'. split; [exact Hrun|]. split.
    + rewrite Hs. now replace (Z.of_nat (Z.to_nat retries - 1)) with (retries - 1)%Z by lia.
    + specialize (Hinv ltac:(
        intros attempt s0 H0;
        unfold Startup.attempt_body, Startup._configure_java_options; cbv zeta;
        unfold is_set in Hunset;
        destruct (Config.get config_data "paths.imagej_dir" YNull); [discriminate|];
        destruct (Config.get config_data "paths.bioformats_dir" YNull) as [bf_jar|e'];
          [destruct (yaml_truthy bf_jar)|]; exact H0)
        ltac:(intros s0 H0; unfold Startup.sleep;
              destruct (Startup.sleep_error delay); exact H0)
        (Z.to_nat retries) 1 s (conj eq_refl eq_refl)).
      rewrite Hrun in Hinv. cbn [snd] in Hinv. destruct Hinv as [HIJ HBF].
      unfold Startup.get_imagej_objects. now rewrite HIJ, HBF.
Qed.

Lemma initialize_without_imagej_dir_witness :
  exists s',
    Startup.initialize (ready_from 1) (YDict [(YStr "paths", YDict [])]) 3 5 Startup.fresh
    = (Raise (InitializationFailed 3), s')
    /\ Startup.slept s' = 10%Z.
Proof.
  destruct (initialize_without_imagej_dir (ready_from 1) (YDict [(YStr "paths", YDict [])])
              3 5 Startup.fresh eq_refl ltac:(lia) ltac:(unfold Startup.MAX_SLEEP; lia))
    as (s' & H & Hs & _).
  exists s'. split; [exact H|exact Hs].
Defined.

(** [shutdown] disposes of the gateway when there is one, and only then;
    after it the service is not ready ([get_imagej_objects] raises), and a
    second [shutdown] changes nothing and disposes of nothing. *)
Theorem shutdown_idempotent (s : Startup.State) :
  Startup.shutdown (Startup.shutdown s) = Startup.shutdown s
  /\ Startup.disposed (Startup.shutdown s)
     = Startup.disposed s ++ match Startup.ij s with Some gateway => [gateway] | None => [] end
  /\ exists e, Startup.get_imagej_objects (Startup.shutdown s) = Raise e.
Proof.
  unfold Startup.shutdown. destruct s as [[g|] cIJ cBF o c d sl]; cbn.
  - repeat split. eexists; reflexivity.
  - rewrite app_nil_r. repeat split. eexists; reflexivity.
Qed.

Example engine_ready_at_the_third_attempt :
  let '(r, s) := Startup.initialize (ready_from 3) sample_config 3 5 Startup.fresh in
  r = Ok tt
  /\ Startup.slept s = 10%Z
  /\ Startup.ij s = Some 3
  /\ Startup.options s
     = ["-Xmx16g"; "-Djava.awt.headless=true"; "-Xmx16g"; "-Djava.awt.headless=true";
        "-Xmx16g"; "-Djava.awt.headless=true"]
  /\ Startup.get_imagej_objects s = Ok ("ij.IJ", "loci.plugins.BF")
  /\ Startup.disposed (Startup.shutdown s) = [3].
Proof. vm_compute. repeat split. Qed.

Example engine_never_ready :
  fst (Startup.initialize (ready_from 4) sample_config 3 5 Startup.fresh)
  = Raise (InitializationFailed 3)
  /\ fst (Startup.initialize (ready_from 4) sample_config 3 (-5) Startup.fresh)
     = Raise (PyError "ValueError" "sleep length must be non-negative")
  /\ fst (Startup.initialize (ready_from 4) sample_config 1 (-5) Startup.fresh)
     = Raise (InitializationFailed 1)
  /\ fst (Startup.initialize (ready_from 1) sample_config 3 (-5) Startup.fresh) = Ok tt
  /\ Startup.initialize (ready_from 1) sample_config 0 5 Startup.fresh
     = (Ok tt, Startup.fresh)
  /\ exists e, Startup.get_imagej_objects Startup.fresh = Raise e.
Proof. vm_compute. repeat split. eexists; reflexivity. Qed.

(** ** Normal forms of paths *)

Lemma free_of_cons (sep c : ascii) (l : string) :
  c <> sep -> free_of sep l -> free_of sep (String c l).
Proof.
  unfold free_of. intros Hc Hl. cbn [Py.split].
  destruct (Ascii.eqb_spec c sep); [contradiction|]. now rewrite Hl.
Qed.

Lemma free_of_inv (sep c : ascii) (l : string) :
  free_of sep (String c l) -> c <> sep /\ free_of sep l.
Proof.
  unfold free_of. cbn [Py.split]. destruct (Ascii.eqb_spec c sep) as [->|Hc].
  - intros H. injection H as _ H. now apply split_nonnil in H.
  - destruct (Py.split sep l) as [|x xs] eqn:E; [now apply split_nonnil in E|].
    intros H. injection H as -> ->. split; [assumption|reflexivity].
Qed.

Lemma split_pieces_free (sep : ascii) (s : string) : Forall (free_of sep) (Py.split sep s).
Proof.
  induction s as [|c s IH]; cbn [Py.split].
  - constructor; [reflexivity|constructor].
  - destruct (Ascii.eqb_spec c sep) as [->|Hc].
    + constructor; [reflexivity|assumption].
    + destruct (Py.split sep s) as [|l ls]; [constructor; [|constructor]|].
      * apply free_of_cons; [assumption|reflexivity].
      * inversion IH; subst. constructor; [|assumption]. now apply free_of_cons.
Qed.

Lemma split_app_free (sep : ascii) (a b : string) :
  free_of sep a -> Py.split sep (a +:+ String sep b) = a :: Py.split sep b.
Proof.
  induction a as [|c a IH]; intros Ha.
  - rewrite append_nil_l. cbn [Py.split]. now rewrite Ascii.eqb_refl.
  - apply free_of_inv in Ha as [Hc Ha]. rewrite append_cons. cbn [Py.split].
    destruct (Ascii.eqb_spec c sep); [contradiction|]. now rewrite (IH Ha).
Qed.

Lemma split_join_sep (sep : ascii) (ls : list string) :
  ls <> [] -> Forall (free_of sep) ls ->
  Py.split sep (Py.join (String sep EmptyString) ls) = ls.
Proof.
  induction ls as [|p [|q rest] IH]; intros Hne Hall.
  - contradiction.
  - inversion Hall; subst. assumption.
  - inversion Hall as [|? ? Hp Hrest]; subst.
    rewrite join_cons_cons, append_cons, append_nil_l.
    rewrite split_app_free by assumption.
    rewrite IH; [reflexivity|discriminate|assumption].
Qed.

Lemma parts_components (s : string) : Forall component (Path.parts s).
Proof.
  unfold Path.parts. apply Forall_forall. intros p Hp.
  apply list_elem_of_In, List.filter_In in Hp as [Hin Hp].
  apply andb_true_iff in Hp as [H1 H2].
  apply negb_true_iff, String.eqb_neq in H1. apply negb_true_iff, String.eqb_neq in H2.
  repeat split; try assumption.
  pose proof (split_pieces_free Py.SLASH s) as Hall.
  rewrite Forall_forall in Hall. apply Hall. now apply list_elem_of_In.
Qed.

Lemma filter_components (ps : list string) :
  Forall component ps ->
  List.filter (fun p => negb (String.eqb p EmptyString) && negb (String.eqb p ".")) ps = ps.
Proof.
  induction 1 as [|p ps (H1 & H2 & _) _ IH]; [reflexivity|]. cbn [List.filter].
  apply String.eqb_neq in H1. apply String.eqb_neq in H2. rewrite H1, H2. cbn.
  now rewrite IH.
Qed.

Lemma parts_join (ps : list string) :
  Forall component ps -> Path.parts (Py.join Path.SEP ps) = ps.
Proof.
  intros Hall. destruct ps as [|p ps]; [reflexivity|].
  unfold Path.parts, Path.SEP. change "/" with (String Py.SLASH EmptyString).
  rewrite split_join_sep; [now apply filter_components|discriminate|].
  eapply Forall_impl; [exact Hall|]. now intros q (_ & _ & Hq).
Qed.

Lemma parts_slash (s : string) : Path.parts (String Py.SLASH s) = Path.parts s.
Proof.
  unfold Path.parts. cbn [Py.split]. rewrite Ascii.eqb_refl. reflexivity.
Qed.

Lemma join_head_not_slash (ps : list string) :
  Forall component ps -> Py.startswith "/" (Py.join Path.SEP ps) = false.
Proof.
  destruct 1 as [|p ps (H1 & _ & H3) _]; [reflexivity|].
  destruct p as [|c p]; [contradiction|].
  apply free_of_inv in H3 as [Hc _].
  rewrite join_cons_char. cbn. destruct (Ascii.eqb_spec "/" c); [|reflexivity].
  subst c. now destruct Hc.
Qed.

Lemma root_cases (s : string) :
  Path.root s = EmptyString \/ Path.root s = "/" \/ Path.root s = "//".
Proof.
  unfold Path.root. destruct (_ && _); [auto|]. destruct (Py.startswith "/" s); auto.
Qed.

Lemma of_parts_normal (r : string) (ps : list string) :
  r = EmptyString \/ r = "/" \/ r = "//" ->
  Forall component ps ->
  Path.root (Path.of_parts r ps) = r /\ Path.parts (Path.of_parts r ps) = ps.
Proof.
  intros Hr Hps. pose proof (join_head_not_slash ps Hps) as Hhead.
  pose proof (parts_join ps Hps) as Hparts.
  destruct Hr as [->|[->| ->]].
  - destruct ps as [|p ps]; [split; reflexivity|].
    unfold Path.of_parts. rewrite append_nil_l. split; [|exact Hparts].
    unfold Path.root. destruct (Py.join Path.SEP (p :: ps)) as [|c rest]; [reflexivity|].
    cbn in Hhead |- *. destruct (Ascii.eqb "/" c); [discriminate|reflexivity].
  - assert (Path.of_parts "/" ps = String Py.SLASH (Py.join Path.SEP ps)) as ->
      by (destruct ps; reflexivity).
    split; [|now rewrite parts_slash].
    unfold Path.root. destruct (Py.join Path.SEP ps) as [|c rest]; [reflexivity|].
    cbn in Hhead |- *. destruct (Ascii.eqb "/" c); [discriminate|reflexivity].
  - assert (Path.of_parts "//" ps
            = String Py.SLASH (String Py.SLASH (Py.join Path.SEP ps))) as ->
      by (destruct ps; reflexivity).
    split; [|now rewrite !parts_slash].
    unfold Path.root. destruct (Py.join Path.SEP ps) as [|c rest]; [reflexivity|].
    cbn in Hhead |- *. destruct (Ascii.eqb "/" c); [discriminate|reflexivity].
Qed.

Lemma make_normal (s : string) :
  Path.root (Path.make s) = Path.root s /\ Path.parts (Path.make s) = Path.parts s.
Proof. apply of_parts_normal; [apply root_cases|apply parts_components]. Qed.

Lemma strip_prefix_app (pre rest : list string) :
  Path.strip_prefix pre (pre ++ rest) = Some rest.
Proof.
  induction pre as [|p pre IH]; [reflexivity|]. cbn. now rewrite String.eqb_refl.
Qed.

Lemma below_self (s : string) : Path.below (Path.make s) s = Some [].
Proof.
  unfold Path.below. destruct (make_normal s) as [-> ->]. rewrite String.eqb_refl.
  rewrite <- (app_nil_r (Path.parts s)) at 2. apply strip_prefix_app.
Qed.

Lemma rev_app_ends (c : ascii) (d : string) :
  forall acc,
    Py.startswith (String c EmptyString) (String.rev_app d acc) = true ->
    (d = EmptyString /\ Py.startswith (String c EmptyString) acc = true)
    \/ exists d', d = d' +:+ String c EmptyString.
Proof.
  induction d as [|a d IH]; intros acc H; [now left|]. right.
  cbn [String.rev_app] in H. destruct (IH _ H) as [[-> Ha]|[d' ->]].
  - cbn in Ha. apply andb_true_iff in Ha as [Ha _]. apply Ascii.eqb_eq in Ha as <-.
    now exists EmptyString.
  - now exists (String a d').
Qed.

Lemma endswith_slash (d : string) :
  Py.endswith "/" d = true -> exists d', d = d' +:+ "/".
Proof.
  unfold Py.endswith, String.rev. cbn [String.rev_app]. intros H.
  destruct (rev_app_ends "/" d EmptyString H) as [[_ Hf]|Hd]; [discriminate|exact Hd].
Qed.

Lemma parts_app_slash (a b : string) :
  Path.parts (a +:+ String Py.SLASH b) = Path.parts a ++ Path.parts b.
Proof. unfold Path.parts. now rewrite split_app_sep, List.filter_app. Qed.

Lemma parts_os_path_join (d b : string) :
  Py.startswith "/" b = false ->
  Path.parts (os_path_join d b) = Path.parts d ++ Path.parts b.
Proof.
  intros Hb. unfold os_path_join. rewrite Hb.
  destruct d as [|c d]; [reflexivity|]. cbn [Py.truthy negb orb].
  destruct (Py.endswith "/" (String c d)) eqn:He.
  - destruct (endswith_slash _ He) as [d' ->].
    rewrite append_assoc. change ("/" +:+ b) with (String Py.SLASH b).
    rewrite parts_app_slash. change "/" with (String Py.SLASH EmptyString).
    rewrite parts_app_slash. cbn [Path.parts Py.split List.filter]. cbn.
    now rewrite app_nil_r.
  - change ("/" +:+ b) with (String Py.SLASH b). apply parts_app_slash.
Qed.

Lemma startswith_slashes (b : string) :
  Py.startswith "/" b = false -> Py.startswith "//" b = false.
Proof.
  destruct b as [|c b]; [reflexivity|]. cbn.
  destruct (Ascii.eqb "/" c); [discriminate|reflexivity].
Qed.

Lemma root_of_relative (b : string) :
  Py.startswith "/" b = false -> Path.root b = EmptyString.
Proof.
  intros Hb. unfold Path.root. now rewrite (startswith_slashes _ Hb), Hb.
Qed.

Lemma root_slash_relative (b : string) :
  Py.startswith "/" b = false -> Path.root (String "/"%char b) = "/".
Proof.
  intros Hb. unfold Path.root.
  change (Py.startswith "//" (String "/"%char b)) with (Ascii.eqb "/" "/" && Py.startswith "/" b).
  change (Py.startswith "/" (String "/"%char b)) with (Ascii.eqb "/" "/" && true).
  now rewrite Hb, Ascii.eqb_refl.
Qed.

Lemma root_slash_slash_relative (b : string) :
  Py.startswith "/" b = false -> Path.root (String "/"%char (String "/"%char b)) = "//".
Proof.
  intros Hb. unfold Path.root.
  change (Py.startswith "//" (String "/"%char (String "/"%char b)))
    with (Ascii.eqb "/" "/" && (Ascii.eqb "/" "/" && true)).
  change (Py.startswith "///" (String "/"%char (String "/"%char b)))
    with (Ascii.eqb "/" "/" && (Ascii.eqb "/" "/" && Py.startswith "/" b)).
  now rewrite Hb, Ascii.eqb_refl.
Qed.

Lemma root_not_slash (c : ascii) (s : string) :
  c <> "/"%char -> Path.root (String c s) = EmptyString.
Proof.
  intros Hc. unfold Path.root.
  change (Py.startswith "//" (String c s)) with (Ascii.eqb "/" c && Py.startswith "/" s).
  change (Py.startswith "/" (String c s)) with (Ascii.eqb "/" c && true).
  destruct (Ascii.eqb_spec "/" c) as [<-|_]; [now destruct Hc|reflexivity].
Qed.

Lemma root_slash_not_slash (c : ascii) (s : string) :
  c <> "/"%char -> Path.root (String "/"%char (String c s)) = "/".
Proof.
  intros Hc. apply root_slash_relative.
  change (Py.startswith "/" (String c s)) with (Ascii.eqb "/" c && true).
  destruct (Ascii.eqb_spec "/" c) as [<-|_]; [now destruct Hc|reflexivity].
Qed.

Lemma endswith_one (c : ascii) : Py.endswith "/" (String c EmptyString) = Ascii.eqb "/" c && true.
Proof. reflexivity. Qed.

Lemma endswith_two (c1 c2 : ascii) :
  Py.endswith "/" (String c1 (String c2 EmptyString)) = Ascii.eqb "/" c2 && true.
Proof. reflexivity. Qed.

Lemma root_os_path_join (d b : string) :
  Py.startswith "/" b = false ->
  Path.root (os_path_join d b) = Path.root d.
Proof.
  intros Hb. unfold os_path_join. rewrite Hb.
  destruct d as [|c1 [|c2 [|c3 d]]].
  - cbn [Py.truthy negb orb]. rewrite append_nil_l. now apply root_of_relative.
  - cbn [Py.truthy negb orb]. rewrite endswith_one.
    destruct (Ascii.eqb_spec "/" c1) as [<-|Hc]; cbn [andb orb].
    + rewrite append_cons, append_nil_l.
      rewrite (root_slash_relative b Hb). reflexivity.
    + rewrite append_cons, append_nil_l.
      rewrite !root_not_slash by congruence. reflexivity.
  - cbn [Py.truthy negb orb]. rewrite endswith_two.
    destruct (Ascii.eqb_spec "/" c2) as [<-|Hc2]; cbn [andb orb].
    + rewrite !append_cons, append_nil_l.
      destruct (Ascii.eqb_spec "/" c1) as [<-|Hc1].
      * rewrite (root_slash_slash_relative b Hb). reflexivity.
      * rewrite !root_not_slash by congruence. reflexivity.
    + rewrite !append_cons, append_nil_l.
      destruct (Ascii.eqb_spec "/" c1) as [<-|Hc1].
      * rewrite !root_slash_not_slash by congruence. reflexivity.
      * rewrite !root_not_slash by congruence. reflexivity.
  - cbn [Py.truthy negb orb].
    destruct (Py.endswith "/" (String c1 (String c2 (String c3 d))));
      rewrite !append_cons; reflexivity.
Qed.

Lemma below_os_path_join (d b : string) :
  Py.startswith "/" b = false ->
  Path.below d (os_path_join d b) = Some (Path.parts b).
Proof.
  intros Hb. unfold Path.below.
  rewrite (root_os_path_join _ _ Hb), String.eqb_refl, (parts_os_path_join _ _ Hb).
  apply strip_prefix_app.
Qed.

(** ** The cleanup (file_service.py) *)

Lemma os_remove_gone (path : string) (fs fs' : FileSystem) :
  os_remove path fs = Ok fs' ->
  path_exists fs' path = false
  /\ realpath fs' = realpath fs
  /\ forall q, path_exists fs q = false -> path_exists fs' q = false.
Proof.
  unfold os_remove. destruct (fs_lookup fs path) as [[| |]|] eqn:Hn; try discriminate;
    intros [= <-]; unfold path_exists, fs_lookup; cbn [nodes realpath];
    (split; [now rewrite lookup_delete_eq|]); (split; [reflexivity|]);
    intros q; unfold fs_lookup;
    (destruct (decide (realpath fs path = realpath fs q)) as [->|Hne];
     [now rewrite lookup_delete_eq|now rewrite lookup_delete_ne]).
Qed.

Lemma rmtree_effect (path : string) (fs fs' : FileSystem) :
  rmtree path fs = Ok fs' ->
  realpath fs' = realpath fs
  /\ (forall q, in_tree fs path q = true -> path_exists fs' q = false)
  /\ (forall q, in_tree fs path q = false -> fs_lookup fs' q = fs_lookup fs q).
Proof.
  unfold rmtree. destruct (fs_lookup fs path) as [[| |]|]; try discriminate.
  intros [= <-]. split; [reflexivity|]. unfold in_tree, path_exists, fs_lookup.
  cbn [nodes realpath]. split; intros q Hq.
  - destruct (filter _ (nodes fs) !! realpath fs q) as [n|] eqn:E; [|reflexivity].
    apply map_lookup_filter_Some in E as [_ E]. cbn in E. now rewrite E in Hq.
  - destruct (nodes fs !! realpath fs q) as [n|] eqn:E.
    + apply map_lookup_filter_Some. split; [exact E|]. cbn.
      now destruct (Path.below (resolve fs path) (realpath fs q)).
    + apply map_lookup_filter_None. now left.
Qed.

Lemma in_tree_self (fs : FileSystem) (path : string) : in_tree fs path path = true.
Proof. unfold in_tree, resolve. now rewrite below_self. Qed.

Lemma not_exists_not_dir_nor_file (fs : FileSystem) (p : string) :
  path_exists fs p = false -> is_dir fs p = false /\ is_file fs p = false.
Proof.
  unfold path_exists, is_dir, is_file. destruct (fs_lookup fs p); [discriminate|auto].
Qed.

Lemma os_remove_elsewhere (path : string) (fs fs' : FileSystem) :
  os_remove path fs = Ok fs' ->
  forall q, realpath fs q <> realpath fs path -> fs_lookup fs' q = fs_lookup fs q.
Proof.
  unfold os_remove. destruct (fs_lookup fs path) as [[| |]|]; try discriminate;
    intros [= <-] q Hq; unfold fs_lookup; cbn [nodes realpath];
    now rewrite lookup_delete_ne.
Qed.

Lemma cleanup_temp_files_cases (path : string) (fs : FileSystem) :
  let p := Path.make path in
  let fs' := cleanup_temp_files path fs in
  path_exists fs' p = false
  /\ (is_dir fs p = true ->
      (forall q, in_tree fs p q = true -> path_exists fs' q = false)
      /\ (forall q, in_tree fs p q = false -> fs_lookup fs' q = fs_lookup fs q))
  /\ (is_file fs p = true ->
      forall q, realpath fs q <> realpath fs p -> fs_lookup fs' q = fs_lookup fs q)
  /\ (path_exists fs p = false -> fs' = fs).
Proof.
  intros p fs'. subst fs'. unfold cleanup_temp_files. cbv zeta. fold p.
  destruct (is_dir fs p) eqn:Hdir.
  - assert (exists fs1, rmtree p fs = Ok fs1) as [fs1 Hrm].
    { unfold rmtree, is_dir in *. destruct (fs_lookup fs p) as [[| |]|]; try discriminate.
      eexists; reflexivity. }
    rewrite Hrm. destruct (rmtree_effect _ _ _ Hrm) as (_ & Hin & Hout).
    split; [apply Hin, in_tree_self|].
    split; [now intros _|].
    split.
    + unfold is_dir, is_file in *. destruct (fs_lookup fs p) as [[| |]|]; discriminate.
    + unfold is_dir, path_exists in *. destruct (fs_lookup fs p); discriminate.
  - destruct (is_file fs p) eqn:Hfile.
    + assert (exists fs1, os_remove p fs = Ok fs1) as [fs1 Hrm].
      { unfold os_remove, is_file in *. destruct (fs_lookup fs p) as [[| |]|];
          try discriminate; eexists; reflexivity. }
      rewrite Hrm. destruct (os_remove_gone _ _ _ Hrm) as (Hgone & _ & _).
      split; [exact Hgone|]. split; [discriminate|].
      split; [intros _; now apply os_remove_elsewhere|].
      unfold is_file, path_exists in *. destruct (fs_lookup fs p); discriminate.
    + split.
      { unfold is_dir, is_file, path_exists in *.
        destruct (fs_lookup fs p) as [[| |]|]; try discriminate; reflexivity. }
      split; [discriminate|]. split; [discriminate|]. reflexivity.
Qed.

Lemma in_tree_without_links (fs : FileSystem) (p q : string) :
  without_links fs -> normal_path p -> normal_path q ->
  in_tree fs p q = match Path.below p q with Some _ => true | None => false end.
Proof.
  intros Hlinks Hp Hq. unfold in_tree, resolve. rewrite (Hlinks p Hp), (Hlinks q Hq).
  unfold Path.below. now destruct (make_normal p) as [-> ->].
Qed.

(** [cleanup_temp_files] never raises.  On a disk without symbolic links,
    for a path in normal form: afterwards the path does not exist.  For a
    directory, no path that is the directory or lies under it exists
    afterwards, and every other path in normal form holds what it held; for
    a file, every other path in normal form holds what it held; a path that
    does not exist leaves the disk unchanged; and running the cleanup again
    changes nothing. *)
Theorem cleanup_temp_files_effect (path : string) (fs : FileSystem) :
  without_links fs ->
  let p := Path.make path in
  normal_path p ->
  let fs' := cleanup_temp_files path fs in
  path_exists fs' p = false
  /\ (is_dir fs p = true ->
      forall q, normal_path q ->
        match Path.below p q with
        | Some _ => path_exists fs' q = false
        | None => fs_lookup fs' q = fs_lookup fs q
        end)
  /\ (is_file fs p = true ->
      forall q, normal_path q -> q <> p -> fs_lookup fs' q = fs_lookup fs q)
  /\ (path_exists fs p = false -> fs' = fs)
  /\ cleanup_temp_files path fs' = fs'.
Proof.
  intros Hlinks p Hp fs'.
  destruct (cleanup_temp_files_cases path fs) as (Hgone & Hdir & Hfile & Habsent).
  fold p fs' in Hgone, Hdir, Hfile, Habsent.
  split; [exact Hgone|]. split; [|split; [|split; [exact Habsent|]]].
  - intros Hd q Hq. destruct (Hdir Hd) as [Hin Hout].
    pose proof (in_tree_without_links fs p q Hlinks Hp Hq) as Htree.
    destruct (Path.below p q); [now apply Hin|now apply Hout].
  - intros Hf q Hq Hne. apply (Hfile Hf). now rewrite (Hlinks q Hq), (Hlinks p Hp).
  - unfold cleanup_temp_files at 1. cbv zeta. fold p.
    destruct (not_exists_not_dir_nor_file _ _ Hgone) as [-> ->]. reflexivity.
Qed.

Lemma cleanup_temp_files_effect_witness :
  let fs := lexical_disk [("/tmp", Dir 4096); ("/tmp/job", Dir 4096);
                          ("/tmp/job/a.csv", File "1,2"); ("/tmp/keep.txt", File "kept")] in
  let fs' := cleanup_temp_files "/tmp/job" fs in
  path_exists fs' "/tmp/job" = false
  /\ path_exists fs' "/tmp/job/a.csv" = false
  /\ fs_lookup fs' "/tmp/keep.txt" = Some (File "kept").
Proof.
  intros fs fs'.
  assert (Hlinks : without_links fs) by (intros q (_ & _ & Hq); exact Hq).
  assert (Hp : normal_path (Path.make "/tmp/job")) by (repeat split; reflexivity).
  destruct (cleanup_temp_files_effect "/tmp/job" fs Hlinks Hp) as (Hgone & Hdir & _).
  split; [exact Hgone|].
  assert (Hd : is_dir fs (Path.make "/tmp/job") = true) by reflexivity.
  split.
  - exact (Hdir Hd "/tmp/job/a.csv" ltac:(repeat split; reflexivity)).
  - exact (eq_trans (Hdir Hd "/tmp/keep.txt" ltac:(repeat split; reflexivity)) eq_refl).
Defined.

(** A batch that returns names an archive that is on the disk. *)
Lemma execute_image_macro_returns_archive
    (self : ImageJService) (files : list UploadFile) (macro_script : string)
    (macro_params : gmap string string) (w w' : World) (zip_path : string)
    (error_logs : list string) :
  execute_image_macro self files macro_script macro_params w = (Ok (zip_path, error_logs), w') ->
  Py.truthy zip_path = true
  /\ path_exists (disk w') zip_path = true
  /\ zip_path
     = Path.make (os_path_join ("/tmp/tmp" +:+ pretty (temp_dirs_made w)) "results.zip").
Proof.
  unfold execute_image_macro, bind, mkdtemp, ret, try_finally, add_cleanup_task.
  set (temp_dir := "/tmp/tmp" +:+ pretty (temp_dirs_made w)).
  destruct (for_each _ _ _) as [[[]|e] w1]; [|discriminate].
  rewrite process_files_run_jobs.
  destruct (run_jobs self temp_dir macro_script macro_params files w1) as [[records|e] w2];
    [|discriminate].
  cbn [app]. rewrite build_archive_spec.
  destruct (discovered records) as [|o outs]; [discriminate|].
  destruct (create_zip_file _ (o :: outs) _ (disk w2)) as [[p|] fs] eqn:Hzip; [|discriminate].
  intros [= <- <- <-]. cbn [disk with_disk].
  destruct (create_zip_file_success _ _ _ _ _ _ Hzip) as (-> & Hex).
  split; [apply path_make_truthy|]. split; [exact Hex|reflexivity].
Qed.

Lemma cleanup_of_directory (path : string) (fs : FileSystem) :
  is_dir fs (Path.make path) = true ->
  rmtree (Path.make path) fs = Ok (cleanup_temp_files path fs).
Proof.
  intros Hdir. unfold cleanup_temp_files. cbv zeta. rewrite Hdir.
  unfold rmtree, is_dir in *.
  destruct (fs_lookup fs (Path.make path)) as [[| |]|]; try discriminate. reflexivity.
Qed.

(** The last task a batch schedules is the cleanup of its working
    directory. *)
Lemma execute_image_macro_last_task
    (self : ImageJService) (files : list UploadFile) (macro_script : string)
    (macro_params : gmap string string) (w w' : World) (r : result (string * list string)) :
  execute_image_macro self files macro_script macro_params w = (r, w') ->
  last (background_tasks w') = Some ("/tmp/tmp" +:+ pretty (temp_dirs_made w)).
Proof.
  unfold execute_image_macro. unfold bind at 1. unfold mkdtemp at 1.
  set (temp_dir := "/tmp/tmp" +:+ pretty (temp_dirs_made w)).
  set (w0 := {| disk := _ |}).
  unfold try_finally, add_cleanup_task.
  match goal with |- context [?body w0] => destruct (body w0) as [r1 w1] end.
  intros [= _ <-]. cbn [background_tasks]. apply last_snoc.
Qed.

(** The archive a batch returns lies in the working directory whose cleanup
    the batch schedules as its last task: on a disk without symbolic links
    on which that directory still stands, the archive is there when the
    batch returns and no longer exists once that cleanup has run. *)
Theorem cleanup_removes_the_results_archive
    (self : ImageJService) (files : list UploadFile) (macro_script : string)
    (macro_params : gmap string string) (w w' : World) (zip_path : string)
    (error_logs : list string) :
  execute_image_macro self files macro_script macro_params w = (Ok (zip_path, error_logs), w') ->
  realpath (disk w') = Path.make ->
  let temp_dir := "/tmp/tmp" +:+ pretty (temp_dirs_made w) in
  is_dir (disk w') (Path.make temp_dir) = true ->
  last (background_tasks w') = Some temp_dir
  /\ path_exists (disk w') zip_path = true
  /\ path_exists (cleanup_temp_files temp_dir (disk w')) zip_path = false.
Proof.
  intros Hrun Hplain temp_dir Hdir.
  split; [exact (execute_image_macro_last_task _ _ _ _ _ _ _ Hrun)|].
  destruct (execute_image_macro_returns_archive _ _ _ _ _ _ _ _ Hrun) as (_ & Hex & ->).
  fold temp_dir in Hex |- *. split; [exact Hex|].
  destruct (rmtree_effect _ _ _ (cleanup_of_directory temp_dir (disk w') Hdir))
    as (_ & Hin & _).
  apply Hin. unfold in_tree, resolve. rewrite Hplain.
  unfold Path.below.
  destruct (make_normal (Path.make (os_path_join temp_dir "results.zip"))) as [-> ->].
  destruct (make_normal (os_path_join temp_dir "results.zip")) as [-> ->].
  destruct (make_normal (Path.make (Path.make temp_dir))) as [-> ->].
  destruct (make_normal (Path.make temp_dir)) as [-> ->].
  destruct (make_normal temp_dir) as [-> ->].
  rewrite root_os_path_join, parts_os_path_join by reflexivity.
  now rewrite String.eqb_refl, strip_prefix_app.
Qed.

Lemma cleanup_removes_the_results_archive_witness :
  let '(r, w') :=
    execute_image_macro sample_service [upload "a.tif" "IMG-A"] "run(Blur);" ∅ sample_world in
  r = Ok ("/tmp/tmp0/results.zip", [])
  /\ path_exists (cleanup_temp_files "/tmp/tmp0" (disk w')) "/tmp/tmp0/results.zip" = false.
Proof.
  destruct (execute_image_macro sample_service [upload "a.tif" "IMG-A"] "run(Blur);" ∅
              sample_world) as [r w'] eqn:Hrun.
  assert (Hr : r = Ok ("/tmp/tmp0/results.zip", [])).
  { apply (f_equal fst) in Hrun. cbn [fst] in Hrun. rewrite <- Hrun. vm_compute. reflexivity. }
  split; [exact Hr|]. subst r.
  refine (proj2 (proj2 (cleanup_removes_the_results_archive sample_service
                   [upload "a.tif" "IMG-A"] "run(Blur);" ∅ sample_world w'
                   "/tmp/tmp0/results.zip" [] Hrun _ _))).
  - apply (f_equal snd) in Hrun. cbn [snd] in Hrun. rewrite <- Hrun. vm_compute. reflexivity.
  - apply (f_equal snd) in Hrun. cbn [snd] in Hrun. rewrite <- Hrun. vm_compute. reflexivity.
Defined.

(** ** The request handlers (image_routes.py) *)

(** The handler answers as the batch does: the test that follows the batch
    always passes. *)
Lemma handle_execute_macro_run
    (self : ImageRouteHandler) (files : list UploadFile) (macro_script : string)
    (s : Server) :
  handle_execute_macro self files macro_script s
  = match execute_image_macro (imagej_service self) files macro_script ∅ (world s) with
    | (Ok (zip_path, _), w) => (Ok (ResultsArchive zip_path), on_world s w)
    | (Raise e, w) => (Raise e, on_world s w)
    end.
Proof.
  unfold handle_execute_macro, and_then, in_world.
  destruct (execute_image_macro _ _ _ _ (world s)) as [[[zip_path error_logs]|e] w] eqn:H;
    [|reflexivity].
  destruct (execute_image_macro_returns_archive _ _ _ _ _ _ _ _ H) as (Ht & Hex & _).
  unfold on_disk. cbn [world disk]. rewrite Ht, Hex. reflexivity.
Qed.

(** [handle_execute_macro] answers as [execute_image_macro] does, called
    with no parameters: an exception of the batch leaves the handler as it
    is, and a batch that returns is answered with the archive it names,
    which is on the disk, under the name [results.zip] and whatever the
    error logs hold.  The [else] branch of the handler is never taken: its
    own [HTTPException] is not raised. *)
Theorem handle_execute_macro_outcome
    (self : ImageRouteHandler) (files : list UploadFile) (macro_script : string)
    (s : Server) :
  match execute_image_macro (imagej_service self) files macro_script ∅ (world s) with
  | (Ok (zip_path, error_logs), w) =>
      handle_execute_macro self files macro_script s
      = (Ok (StreamingResponse zip_path "application/zip"
               [("Content-Disposition", "attachment; filename=results.zip")]),
         on_world s w)
      /\ path_exists (disk w) zip_path = true
  | (Raise e, w) =>
      handle_execute_macro self files macro_script s = (Raise e, on_world s w)
  end.
Proof.
  rewrite handle_execute_macro_run.
  destruct (execute_image_macro _ _ _ _ (world s)) as [[[zip_path error_logs]|e] w] eqn:H;
    [|reflexivity].
  split; [reflexivity|].
  now destruct (execute_image_macro_returns_archive _ _ _ _ _ _ _ _ H) as (_ & Hex & _).
Qed.

Lemma upload_each_spec (self : ImageRouteHandler) (files : list UploadFile) :
  forall (results : list UploadResult) (s : Server),
    exists more s',
      upload_each self files results s = (Ok (results ++ more), s')
      /\ map result_filename more = map filename files
      /\ length (rmtree_tasks s') = length (rmtree_tasks s) + length files
      /\ Db.rollbacks (db s')
         = Db.rollbacks (db s) + length (List.filter not_processed more).
Proof.
  induction files as [|file rest IH]; intros results s.
  - exists [], s. cbn. rewrite app_nil_r. repeat split; lia.
  - cbn [upload_each]. unfold and_then at 1. unfold in_world at 1.
    destruct (mkdtemp (world s)) as [[temp_dir|e] w0] eqn:Hmk;
      [|unfold mkdtemp in Hmk; discriminate].
    unfold and_then at 1. unfold ensure, add_rmtree_task.
    match goal with |- context [rescue ?body ?handler ?s0] =>
      assert (Hone : exists entry s1,
                rescue body handler s0 = (Ok (results ++ [entry]), s1)
                /\ result_filename entry = filename file
                /\ rmtree_tasks s1 = rmtree_tasks s
                /\ Db.rollbacks (db s1)
                   = Db.rollbacks (db s) + (if not_processed entry then 1 else 0))
    end.
    { unfold rescue, and_then, in_world, with_db, db_commit, pure. cbn [world db rmtree_tasks].
      match goal with |- context [update_disk ?f w0] =>
        destruct (update_disk f w0) as [[[]|e] w1] end.
      2:{ eexists (NotProcessed _ _), _. split; [reflexivity|]. cbn. repeat split; lia. }
      cbn [world db rmtree_tasks].
      match goal with |- context [process_image ?a ?b ?c w1] =>
        destruct (process_image a b c w1) as [[pd|e] w2] end.
      2:{ eexists (NotProcessed _ _), _. split; [reflexivity|]. cbn. repeat split; lia. }
      cbn [world db rmtree_tasks].
      match goal with |- context [generate_image_preview ?a ?b w2] =>
        destruct (generate_image_preview a b w2) as [[preview|e] w3] end.
      2:{ eexists (NotProcessed _ _), _. split; [reflexivity|]. cbn. repeat split; lia. }
      cbn [world db rmtree_tasks].
      match goal with |- context [Db.commit ?d0] =>
        destruct (Db.commit d0) as [[[]|e] d] eqn:Hcommit end.
      - eexists (Processed _ _ _ _ _), _. split; [reflexivity|]. cbn.
        unfold Db.commit in Hcommit. destruct (Db.flush _ _); [|discriminate].
        injection Hcommit as <-. cbn. repeat split; lia.
      - eexists (NotProcessed _ _), _. split; [reflexivity|]. cbn.
        unfold Db.commit in Hcommit. destruct (Db.flush _ _); [discriminate|].
        injection Hcommit as _ <-. cbn. repeat split; lia. }
    destruct Hone as (entry & s1 & -> & Hname & Htasks & Hroll).
    destruct (IH (results ++ [entry])
                 {| world := world s1; db := db s1;
                    rmtree_tasks := rmtree_tasks s1 ++ [temp_dir] |})
      as (more & s' & -> & Hnames & Hlen & Hrb).
    exists (entry :: more), s'. rewrite <- app_assoc. split; [reflexivity|].
    cbn [map length List.filter rmtree_tasks db] in *. rewrite length_app in Hlen.
    cbn [length] in Hlen. rewrite Htasks in Hlen.
    split; [now rewrite Hname, Hnames|]. split; [lia|].
    rewrite Hrb, Hroll. destruct (not_processed entry); cbn [length]; lia.
Qed.

(** [handle_initial_upload] never raises, whatever the image service and
    the database do with a file: it answers with one entry for each file
    uploaded, in the order of the upload and under the name the file was
    uploaded with, hands one temporary directory for each file to
    [shutil.rmtree] as a background task, and rolls the session back once
    for each file whose entry is an error. *)
Theorem handle_initial_upload_isolates_files
    (self : ImageRouteHandler) (files : list UploadFile) (s : Server) :
  exists results s',
    handle_initial_upload self files s = (Ok (JSONResults results), s')
    /\ map result_filename results = map filename files
    /\ length (rmtree_tasks s') = length (rmtree_tasks s) + length files
    /\ Db.rollbacks (db s')
       = Db.rollbacks (db s) + length (List.filter not_processed results).
Proof.
  destruct (upload_each_spec self files [] s) as (results & s' & H & Hrest).
  exists results, s'. unfold handle_initial_upload, and_then, pure. rewrite H.
  split; [reflexivity|exact Hrest].
Qed.

(** [upload_image]: an empty list of files is refused with status 400
    before anything is done.  A macro is run only when [execute_macro] is
    set and the script is not empty: then the answer is the archive of the
    batch, or, when the batch raises, a rollback of the session followed by
    the batch's own [HTTPException], any other exception being replaced with
    status 500.  In every other case the request is an initial upload, which
    always answers with its list of results. *)
Theorem upload_image_outcome
    (self : ImageRouteHandler) (files : list UploadFile)
    (execute_macro : bool) (macro_script : option string) (s : Server) :
  match files with
  | [] =>
      upload_image self files execute_macro macro_script s
      = (Raise (HTTPException 400 "No files uploaded"), s)
  | _ :: _ =>
      match wants_macro execute_macro macro_script with
      | Some script =>
          match execute_image_macro (imagej_service self) files script ∅ (world s) with
          | (Ok (zip_path, _), w) =>
              upload_image self files execute_macro macro_script s
              = (Ok (ResultsArchive zip_path), on_world s w)
          | (Raise e, w) =>
              upload_image self files execute_macro macro_script s
              = (Raise (if isinstance e ["HTTPException"] then e
                        else HTTPException 500 "Error processing files."),
                 rolled_back (on_world s w))
          end
      | None =>
          upload_image self files execute_macro macro_script s
          = handle_initial_upload self files s
          /\ exists results s',
               handle_initial_upload self files s = (Ok (JSONResults results), s')
      end
  end.
Proof.
  destruct files as [|file rest]; [reflexivity|].
  assert (Hinitial :
    rescue (handle_initial_upload self (file :: rest))
      (fun e => _ <~ with_db Db.rollback ;;
                if isinstance e ["HTTPException"] then fail e
                else fail (HTTPException 500 "Error processing files.")) s
    = handle_initial_upload self (file :: rest) s
    /\ exists results s',
         handle_initial_upload self (file :: rest) s = (Ok (JSONResults results), s')).
  { destruct (upload_each_spec self (file :: rest) [] s) as (results & s' & H & _).
    unfold rescue, handle_initial_upload, and_then, pure. rewrite H.
    split; [reflexivity|]. now exists results, s'. }
  unfold upload_image, wants_macro.
  destruct macro_script as [script|]; [|exact Hinitial].
  destruct (execute_macro && Py.truthy script); [|exact Hinitial].
  unfold rescue. rewrite handle_execute_macro_run.
  destruct (execute_image_macro _ _ _ _ (world s)) as [[[zip_path error_logs]|e] w];
    [reflexivity|].
  unfold and_then, with_db, fail. destruct (isinstance e ["HTTPException"]); reflexivity.
Qed.

Lemma remove_existing_gone (paths : list string) :
  forall (w w' : World),
    remove_existing paths w = (Ok tt, w') ->
    (forall p, p ∈ paths -> path_exists (disk w') p = false)
    /\ (forall q, path_exists (disk w) q = false -> path_exists (disk w') q = false).
Proof.
  induction paths as [|path rest IH]; intros w w'.
  - cbn. intros [= <-]. split; [intros p Hp; inversion Hp|auto].
  - cbn [remove_existing]. unfold bind, on_disk, update_disk, ret.
    destruct (path_exists (disk w) path) eqn:Hex.
    + destruct (os_remove path (disk w)) as [fs1|e] eqn:Hrm; [|discriminate].
      destruct (os_remove_gone _ _ _ Hrm) as (Hgone & _ & Hkeep).
      intros Hrest. destruct (IH _ _ Hrest) as [Hall Hgo]. cbn [disk with_disk] in *.
      split.
      * intros p Hp. apply elem_of_cons in Hp as [->|Hp]; [now apply Hgo|now apply Hall].
      * intros q Hq. apply Hgo, Hkeep, Hq.
    + intros Hrest. destruct (IH _ _ Hrest) as [Hall Hgo]. split.
      * intros p Hp. apply elem_of_cons in Hp as [->|Hp]; [now apply Hgo|now apply Hall].
      * exact Hgo.
Qed.

Lemma find_by_name (filename : string) (rows : list Db.ImageMetadata) (row : Db.ImageMetadata) :
  List.find (fun r => String.eqb (Db.file_name r) filename) rows = Some row ->
  Db.file_name row = filename.
Proof.
  intros H. apply List.find_some in H as [_ H]. now apply String.eqb_eq in H.
Qed.

Lemma find_after_delete (filename : string) (rows : list Db.ImageMetadata) :
  List.find (fun r => String.eqb (Db.file_name r) filename)
    (List.filter (fun r => negb (String.eqb (Db.file_name r) filename)) rows) = None.
Proof.
  induction rows as [|r rows IH]; [reflexivity|]. cbn [List.filter].
  destruct (String.eqb (Db.file_name r) filename) eqn:E; cbn [negb]; [exact IH|].
  cbn [List.find]. now rewrite E.
Qed.

(** [delete_image] raises nothing but its own [HTTPException] of status
    500.  A name the table does not hold ends in it, after a rollback: the
    status 404 raised for it does not leave the handler.  For a name the
    table holds, a failure leaves the table as it was, and the success
    message comes with both files gone from the disk and, in a session with
    nothing else pending, with no row of that name left. *)
Theorem delete_image_outcome (filename : string) (s : Server) :
  match Db.first_by_file_name filename (db s) with
  | None => delete_image filename s = (Raise DeleteFailed, rolled_back s)
  | Some row =>
      exists s',
        (delete_image filename s = (Raise DeleteFailed, s')
         /\ Db.table (db s') = Db.table (db s))
        \/ (delete_image filename s = (Ok (JSONMessage "Image deleted successfully"), s')
            /\ path_exists (disk (world s')) (Db.original_path row) = false
            /\ path_exists (disk (world s')) (Db.preview_path row) = false
            /\ (Db.pending (db s) = [] ->
                Db.first_by_file_name filename (db s') = None))
  end.
Proof.
  unfold delete_image, rescue, and_then, db_first.
  destruct (Db.first_by_file_name filename (db s)) as [row|] eqn:Hrow; [|reflexivity].
  unfold in_world.
  destruct (remove_existing _ (world s)) as [[[]|e] w1] eqn:Hrm.
  2:{ eexists. left. split; reflexivity. }
  unfold with_db, db_commit, pure, fail. cbn [world db rmtree_tasks].
  destruct (Db.commit _) as [[[]|e] d] eqn:Hcommit.
  - eexists. right. split; [reflexivity|]. cbn [world db].
    destruct (remove_existing_gone _ _ _ Hrm) as [Hall _].
    split; [apply Hall; set_solver|]. split; [apply Hall; set_solver|].
    intros Hpending. unfold Db.commit, Db.delete in Hcommit. cbn [Db.pending Db.table] in Hcommit.
    rewrite Hpending in Hcommit. cbn in Hcommit. injection Hcommit as <-.
    unfold Db.first_by_file_name. cbn [Db.table].
    rewrite (find_by_name _ _ _ Hrow). apply find_after_delete.
  - eexists. left. split; [reflexivity|]. cbn [db].
    unfold Db.commit in Hcommit. destruct (Db.flush _ _); [discriminate|].
    injection Hcommit as _ <-. reflexivity.
Qed.

(** [get_image_preview] raises nothing but its own [HTTPException] of
    status 500: a name the table does not hold, a preview file that is not
    on the disk (the status 404 raised for these does not leave the
    handler) and every exception of the image service end in it.  The
    preview is returned when the row is found, the file exists and the
    image service returns. *)
Theorem get_image_preview_outcome
    (self : ImageRouteHandler) (filename : string) (s : Server) :
  match Db.first_by_file_name filename (db s) with
  | Some row =>
      if path_exists (disk (world s)) (Db.preview_path row) then
        match generate_image_preview (image_service self) (Db.preview_path row) (world s) with
        | (Ok preview, w) =>
            get_image_preview self filename s = (Ok (JSONPreview preview), on_world s w)
        | (Raise _, w) =>
            get_image_preview self filename s = (Raise PreviewFailed, on_world s w)
        end
      else get_image_preview self filename s = (Raise PreviewFailed, s)
  | None => get_image_preview self filename s = (Raise PreviewFailed, s)
  end.
Proof.
  unfold get_image_preview, rescue, and_then, db_first, in_world, on_disk, fail, pure.
  destruct s as [w d tasks]. cbn [world db rmtree_tasks].
  destruct (Db.first_by_file_name filename d) as [row|]; [|reflexivity].
  destruct (path_exists (disk w) (Db.preview_path row)); [|reflexivity].
  cbn [world db rmtree_tasks].
  destruct (generate_image_preview _ _ w) as [[preview|e] w']; reflexivity.
Qed.

(** Three uploads of which the second is no image and the third has the
    name of the first; an upload under an absolute name; a deletion that
    stops at the second file; and names the table does not hold. *)
Example three_uploads :
  let '(r, s) := handle_initial_upload sample_handler
                   [upload "a.tif" "IMG-A"; upload "notes.txt" "text"; upload "a.tif" "IMG-B"]
                   sample_server in
  match r with
  | Ok (JSONResults [first; second; third]) =>
      first = Processed "a.tif" "0000_a.tif" "data:image/png;base64,UE5H" [] "tif"
      /\ second = NotProcessed "notes.txt" "500: Failed to process image: not an image"
      /\ result_filename third = "a.tif" /\ not_processed third = true
  | _ => False
  end
  /\ rmtree_tasks s = ["/tmp/tmp0"; "/tmp/tmp1"; "/tmp/tmp2"]
  /\ Db.rollbacks (db s) = 2
  /\ map Db.file_name (Db.table (db s)) = ["0000_cells.tif"; "0000_a.tif"]
  /\ fs_lookup (disk (world s)) "/tmp/tmp2/a.tif" = Some (File "IMG-B").
Proof. vm_compute. repeat split. Qed.

Example upload_outside_the_temporary_directory :
  let '(r, s) := handle_initial_upload sample_handler [upload "/data/cells.tif" "OTHER"]
                   sample_server in
  rmtree_tasks s = ["/tmp/tmp0"]
  /\ fs_lookup (disk (world s)) "/data/cells.tif" = Some (File "OTHER").
Proof. vm_compute. repeat split. Qed.

Example delete_half_done :
  let '(r, s) := delete_image "0000_cells.tif" sample_server in
  r = Raise DeleteFailed
  /\ path_exists (disk (world s)) "/data/cells.tif" = false
  /\ Db.first_by_file_name "0000_cells.tif" (db s) = Some sample_row
  /\ Db.rollbacks (db s) = 1.
Proof. vm_compute. repeat split. Qed.

Example unknown_names :
  fst (delete_image "missing.tif" sample_server) = Raise DeleteFailed
  /\ fst (get_image_preview sample_handler "missing.tif" sample_server) = Raise PreviewFailed
  /\ fst (get_image_preview sample_handler "0000_cells.tif" sample_server) = Raise PreviewFailed
  /\ fst (upload_image sample_handler [] true (Some "run(Blur);") sample_server)
     = Raise (HTTPException 400 "No files uploaded").
Proof. vm_compute. repeat split. Qed.

(** *** Streaming the archive *)

Lemma take_drop (n : nat) (s : string) : Py.take n s +:+ Py.drop n s = s.
Proof.
  revert s. induction n as [|n IH]; intros [|c s]; try reflexivity.
  cbn [Py.take Py.drop]. now rewrite append_cons, IH.
Qed.

Lemma length_take (n : nat) (s : string) :
  String.length (Py.take n s) = Nat.min n (String.length s).
Proof.
  revert s. induction n as [|n IH]; intros [|c s]; cbn; try reflexivity.
  now rewrite IH.
Qed.

Lemma length_drop (n : nat) (s : string) :
  String.length (Py.drop n s) = String.length s - n.
Proof.
  revert s. induction n as [|n IH]; intros [|c s]; cbn; try reflexivity.
  apply IH.
Qed.

Lemma truthy_length (s : string) : Py.truthy s = negb (Nat.eqb (String.length s) 0).
Proof. now destruct s. Qed.

Lemma read_chunks_spec (size : nat) :
  0 < size ->
  forall (fuel : nat) (rest : string),
    String.length rest < fuel ->
    raised (read_chunks fuel size rest) = None
    /\ joined (yielded (read_chunks fuel size rest)) = rest
    /\ Forall (fun chunk => 0 < String.length chunk <= size)
              (yielded (read_chunks fuel size rest))
    /\ length (yielded (read_chunks fuel size rest))
       = (String.length rest + size - 1) / size
    /\ forall i chunk,
         yielded (read_chunks fuel size rest) !! i = Some chunk ->
         S i < length (yielded (read_chunks fuel size rest)) ->
         String.length chunk = size.
Proof.
  intros Hsize. induction fuel as [|fuel IH]; intros rest Hfuel; [lia|].
  cbn [read_chunks]. cbv zeta. rewrite truthy_length, length_take.
  destruct (Nat.eqb_spec (Nat.min size (String.length rest)) 0) as [Hz|Hnz]; cbn [negb].
  - assert (Hrest : String.length rest = 0) by lia.
    destruct rest; [|discriminate]. cbn.
    repeat split; auto.
    + symmetry. apply Nat.div_small. lia.
    + intros i chunk H. inversion H.
  - destruct (IH (Py.drop size rest)) as (Hr & Hj & Hall & Hlen & Hfull).
    { rewrite length_drop. lia. }
    cbn [raised yielded joined fold_right]. fold (joined (yielded (read_chunks fuel size (Py.drop size rest)))).
    rewrite Hj, take_drop. split; [exact Hr|]. split; [reflexivity|]. split.
    { constructor; [rewrite length_take; lia|exact Hall]. }
    split.
    { cbn [length]. rewrite Hlen, length_drop.
      destruct (Nat.le_gt_cases size (String.length rest)) as [Hle|Hgt].
      - replace (String.length rest + size - 1) with
          ((String.length rest - size + size - 1) + 1 * size) by lia.
        rewrite Nat.div_add by lia. lia.
      - replace (String.length rest - size) with 0 by lia.
        rewrite (Nat.div_small (0 + size - 1)) by lia.
        assert ((String.length rest + size - 1) / size = 1); [|lia].
        replace (String.length rest + size - 1) with
          ((String.length rest - 1) + 1 * size) by lia.
        rewrite Nat.div_add by lia. rewrite Nat.div_small by lia. reflexivity. }
    intros [|i] chunk Hi Hlast; cbn in Hi.
    + injection Hi as <-. rewrite length_take.
      cbn [length] in Hlast. rewrite Hlen, length_drop in Hlast.
      destruct (Nat.le_gt_cases size (String.length rest)); [lia|].
      replace (String.length rest - size) with 0 in Hlast by lia.
      rewrite (Nat.div_small (0 + size - 1)) in Hlast by lia. lia.
    + apply (Hfull i chunk Hi). cbn [length] in Hlast. lia.
Qed.

(** [iterfile] ends without raising; its chunks, one after the other, are
    the bytes of the archive; no chunk is empty, none is longer than
    [CHUNK_SIZE], every chunk but the last has exactly that length, and
    their number is the length of the archive divided by [CHUNK_SIZE],
    rounded up: an empty archive gives no chunk. *)
Theorem iterfile_chunks (data : string) :
  let chunks := yielded (iterfile data) in
  raised (iterfile data) = None
  /\ joined chunks = data
  /\ Forall (fun chunk => 0 < String.length chunk <= CHUNK_SIZE) chunks
  /\ length chunks = (String.length data + CHUNK_SIZE - 1) / CHUNK_SIZE
  /\ forall i chunk,
       chunks !! i = Some chunk -> S i < length chunks ->
       String.length chunk = CHUNK_SIZE.
Proof.
  apply read_chunks_spec; [|unfold lt; reflexivity].
  unfold CHUNK_SIZE. apply Nat.mul_pos_pos; lia.
Qed.

Example read_chunks_of_ten_bytes :
  yielded (read_chunks 11 4 "0123456789") = ["0123"; "4567"; "89"]
  /\ yielded (read_chunks 9 4 "01234567") = ["0123"; "4567"]
  /\ yielded (read_chunks 1 4 EmptyString) = [].
Proof. repeat split. Qed.

(** ** The preview of an upload (image_service.py) *)

(** The rules of [runs]: how the steps of the task compose. *)
Section Runs.
Import Preview.

Lemma runs_pure {A : Type} (a : A) (Q : result A -> State -> Prop) :
  (forall s, Q (Ok a) s) -> runs (pure a) Q.
Proof. intros H s. exists (Ok a), s. now repeat split. Qed.

Lemma runs_fail {A : Type} (e : exn) (Q : result A -> State -> Prop) :
  (forall s, Q (Raise e) s) -> runs (@fail A e) Q.
Proof. intros H s. exists (Raise e), s. now repeat split. Qed.

Lemma runs_and_then {A B : Type} (m : T A) (k : A -> T B)
    (P : result A -> State -> Prop) (Q : result B -> State -> Prop) :
  runs m P ->
  (forall a, (exists s, P (Ok a) s) -> runs (k a) Q) ->
  (forall e s, P (Raise e) s -> Q (Raise e) s) ->
  runs (and_then m k) Q.
Proof.
  intros Hm Hk He s. unfold and_then.
  destruct (Hm s) as ([a|e] & s1 & -> & Hd & Hb & HP).
  - destruct (Hk a (ex_intro _ s1 HP) s1) as (r & s2 & -> & Hd2 & Hb2 & HQ).
    exists r, s2. repeat split; [congruence|congruence|exact HQ].
  - exists (Raise e), s1. repeat split; [exact Hd|exact Hb|now apply He].
Qed.

Lemma runs_rescue {A : Type} (body : T A) (handler : exn -> T A)
    (P Q : result A -> State -> Prop) :
  runs body P ->
  (forall e, runs (handler e) Q) ->
  (forall a s, P (Ok a) s -> Q (Ok a) s) ->
  runs (rescue body handler) Q.
Proof.
  intros Hb Hh Hok s. unfold rescue.
  destruct (Hb s) as ([a|e] & s1 & -> & Hd & Ht & HP).
  - exists (Ok a), s1. repeat split; [exact Hd|exact Ht|now apply Hok].
  - destruct (Hh e s1) as (r & s2 & -> & Hd2 & Ht2 & HQ).
    exists r, s2. repeat split; [congruence|congruence|exact HQ].
Qed.

Lemma runs_lift {A : Type} (r : result A) (Q : result A -> State -> Prop) :
  (forall s, Q r s) -> runs (lift r) Q.
Proof. intros H s. exists r, s. now repeat split. Qed.

Lemma runs_on_disk {A : Type} (env : Env) (f : FileSystem -> result A)
    (Q : result A -> State -> Prop) :
  (forall s, Q (f (disk_at env (now s))) s) -> runs (on_disk env f) Q.
Proof. intros H s. eexists _, s. split; [reflexivity|]. now repeat split. Qed.

Lemma runs_weaken {A : Type} (m : T A) (P Q : result A -> State -> Prop) :
  runs m P -> (forall r s, P r s -> Q r s) -> runs m Q.
Proof.
  intros Hm H s. destruct (Hm s) as (r & s' & E & Hd & Ht & HP).
  exists r, s'. repeat split; auto.
Qed.

End Runs.

(** With polls enough for the timeout, the waits end. *)
Lemma await_exists_returns (disk_at : Timeline) (file_path : string)
    (timeout check_interval start_time : Z) :
  (0 < check_interval)%Z ->
  forall (fuel : nat) (now : Z),
    0 < fuel ->
    (timeout * 1000 - (now - start_time) < (Z.of_nat fuel - 1) * check_interval)%Z ->
    exists r t,
      await_exists fuel disk_at file_path timeout check_interval start_time now = Some (r, t).
Proof.
  intros Hpos. induction fuel as [|fuel IH]; intros now Hfuel Hend; [lia|].
  cbn [await_exists].
  destruct (path_exists (disk_at now) file_path); cbn [negb]; [now eexists _, _|].
  destruct (Z.ltb_spec (timeout * 1000) (now - start_time)); [now eexists _, _|].
  apply IH; nia.
Qed.

Lemma wait_for_file_returns (disk_at : Timeline) (file_path : string)
    (timeout check_interval now : Z) (fuel : nat) :
  (0 < check_interval)%Z -> (0 <= timeout)%Z ->
  Z.to_nat (timeout * 1000 / check_interval) + 1 < fuel ->
  exists r t, _wait_for_file fuel disk_at file_path timeout check_interval now = Some (r, t).
Proof.
  intros Hpos Htimeout Hfuel.
  pose proof (enough_polls timeout check_interval fuel Hpos Htimeout Hfuel) as Henough.
  unfold _wait_for_file. cbv zeta.
  destruct (await_exists_returns disk_at file_path timeout check_interval now Hpos fuel now)
    as ([[]|e] & t & ->); [lia|lia| |now eexists _, _].
  destruct (check_size_stability 10 disk_at file_path 0 t) as [r t']. now exists r, t'.
Qed.

Lemma wait_for_file_content_returns (disk_at : Timeline) (file_path : string)
    (timeout check_interval now : Z) (fuel : nat) :
  (0 < check_interval)%Z -> (0 <= timeout)%Z ->
  Z.to_nat (timeout * 1000 / check_interval) + 1 < fuel ->
  exists r t,
    _wait_for_file_content fuel disk_at file_path timeout check_interval now = Some (r, t)
    /\ match r with
       | Ok content =>
           exists text, read_text (disk_at t) file_path = Ok text /\ content = Py.strip text
       | Raise _ => True
       end.
Proof.
  intros Hpos Htimeout Hfuel.
  pose proof (enough_polls timeout check_interval fuel Hpos Htimeout Hfuel) as Henough.
  unfold _wait_for_file_content. cbv zeta.
  destruct (await_content_spec disk_at file_path timeout check_interval now Hpos fuel now)
    as (r & k & -> & _ & Hat); [lia|lia|].
  eexists r, _. split; [reflexivity|]. destruct r as [content|e]; [|exact I].
  destruct Hat as [Hat _]. unfold wait_state, poll_content in Hat.
  destruct (read_text _ _) as [text|e]; [|destruct (isinstance _ _); discriminate].
  exists text. split; [reflexivity|].
  destruct (Py.truthy (Py.strip text)); [|discriminate]. now injection Hat.
Qed.

(** The preview path of the result is the last one the log declares. *)
Lemma extract_paths_preview (log_content : string) (fs : FileSystem)
    (metadata : list (string * string)) (preview_path : option string) :
  _extract_paths_from_log log_content fs = Ok (metadata, preview_path) ->
  preview_path = last_declared "PREVIEW_PATH:" log_content.
Proof.
  unfold _extract_paths_from_log, last_declared. rewrite scan_log_spec.
  unfold or_else. cbv zeta.
  destruct (last (tag_values "METADATA_PATH:" _)) as [metadata_path|].
  - destruct (Py.truthy metadata_path && path_exists fs metadata_path).
    + destruct (read_text fs metadata_path); [|discriminate].
      intros [= _ <-]. now destruct (last _).
    + intros [= _ <-]. now destruct (last _).
  - intros [= _ <-]. now destruct (last _).
Qed.

(** The run of the preview macro, with more polls than either wait can
    make: 60 and 120 seconds, a second apart. *)
Section Run.
Import Preview.
Context (env : Env) (fuel : nat) (Hfuel : 121 < fuel).

Lemma runs_timed_wait_for_file (file_path : string) :
  runs (timed (_wait_for_file fuel (disk_at env) file_path 120 1000)) (fun _ _ => True).
Proof.
  intros s. unfold timed.
  destruct (wait_for_file_returns (disk_at env) file_path 120 1000 (now s) fuel)
    as (r & t & ->); [lia|lia|vm_compute; lia|].
  eexists r, _. now repeat split.
Qed.

Lemma runs_timed_wait_for_file_content (file_path : string) :
  runs (timed (_wait_for_file_content fuel (disk_at env) file_path 60 1000))
    (fun r _ => match r with
                | Ok content =>
                    exists t text, read_text (disk_at env t) file_path = Ok text
                                   /\ content = Py.strip text
                | Raise _ => True
                end).
Proof.
  intros s. unfold timed.
  destruct (wait_for_file_content_returns (disk_at env) file_path 60 1000 (now s) fuel)
    as (r & t & -> & Hr); [lia|lia|vm_compute; lia|].
  eexists r, _. split; [reflexivity|]. repeat split.
  destruct r as [content|e]; [|exact I]. now exists t.
Qed.

Lemma runs_timed_total {A : Type} (f : Z -> result A * Z) :
  runs (timed (fun t => Some (f t))) (fun _ _ => True).
Proof.
  intros s. unfold timed. destruct (f (now s)) as [r t]. eexists r, _. now repeat split.
Qed.

Lemma runs_preview_test (metadata : list (string * string)) (preview_path : string) :
  runs
    (let* found := on_disk env (fun fs => Ok (path_exists fs preview_path)) in
     if (found : bool) then pure (metadata, preview_path)
     else fail (PreviewNotFound preview_path))
    (fun r s => match r with
                | Ok found =>
                    found = (metadata, preview_path)
                    /\ path_exists (disk_at env (now s)) preview_path = true
                | Raise _ => True
                end).
Proof.
  intros s. unfold and_then, on_disk.
  destruct (path_exists (disk_at env (now s)) preview_path) eqn:Hex;
    eexists _, s; (split; [reflexivity|]); now repeat split.
Qed.

(** What is in the [try] of [run_preview_macro] ends, and when it returns
    the preview is on the disk. *)
Lemma preview_body_runs (input_path output_dir filename output_log_path : string) :
  runs
    (let* objects := lift (Startup.get_imagej_objects (engine env)) in
     let '(cIJ, cBF) := objects in
     let* user_macro :=
       on_disk env (fun fs =>
         _load_macro_template env fs input_path output_dir filename output_log_path) in
     let* output := timed (fun t => Some (runMacro env user_macro t)) in
     let* output :=
       match output with
       | Some output => lift (to_python env output)
       | None => pure EmptyString
       end in
     let* log_content :=
       timed (_wait_for_file_content fuel (disk_at env) output_log_path 60 1000) in
     let* paths := on_disk env (_extract_paths_from_log log_content) in
     let '(metadata, preview_path) := paths in
     match preview_path with
     | None => fail NoneTypePath
     | Some preview_path =>
         let* _ := timed (_wait_for_file fuel (disk_at env) preview_path 120 1000) in
         let* found := on_disk env (fun fs => Ok (path_exists fs preview_path)) in
         if (found : bool) then pure (metadata, preview_path)
         else fail (PreviewNotFound preview_path)
     end)
    (preview_found env output_log_path).
Proof.
  apply runs_and_then with
    (P := fun r _ => match r with
                     | Ok _ => exists classes,
                         Startup.get_imagej_objects (engine env) = Ok classes
                     | Raise _ => True
                     end); [|intros [cIJ cBF] [_ Hengine]|intros; exact I].
  { apply runs_lift. intros s.
    destruct (Startup.get_imagej_objects (engine env)) as [classes|e];
      [now exists classes|exact I]. }
  apply runs_and_then with (P := fun _ _ => True);
    [now apply runs_on_disk|intros user_macro _|intros; exact I].
  apply runs_and_then with (P := fun _ _ => True);
    [apply runs_timed_total|intros output _|intros; exact I].
  apply runs_and_then with (P := fun _ _ => True);
    [destruct output; [now apply runs_lift|now apply runs_pure]
    |intros output' _|intros; exact I].
  eapply runs_and_then;
    [apply runs_timed_wait_for_file_content
    |intros log_content (_ & t & text & Hread & ->)|intros; exact I].
  apply runs_and_then with
    (P := fun r _ => match r with
                     | Ok (_, preview_path) =>
                         preview_path = last_declared "PREVIEW_PATH:" (Py.strip text)
                     | Raise _ => True
                     end); [|intros [metadata preview_path] [_ ->]|intros; exact I].
  { apply runs_on_disk. intros s.
    destruct (_extract_paths_from_log _ _) as [[metadata preview_path]|e] eqn:E; [|exact I].
    now apply extract_paths_preview in E. }
  destruct (last_declared "PREVIEW_PATH:" (Py.strip text)) as [preview_path|] eqn:Hdecl;
    [|now apply runs_fail].
  apply runs_and_then with (P := fun _ _ => True);
    [apply runs_timed_wait_for_file|intros _ _|intros; exact I].
  eapply runs_weaken; [apply (runs_preview_test metadata preview_path)|].
  intros [[metadata' preview_path']|e] s; [|intros; exact I].
  intros [[= <- <-] Hex]. split; [exact Hex|]. split; [|exact Hengine].
  now exists t, text.
Qed.

Lemma preview_handler_runs (output_log_path : string) (cause : exn) :
  runs
    (let* present := on_disk env (fun fs => Ok (path_exists fs output_log_path)) in
     let* _ :=
       if (present : bool)
       then on_disk env (fun fs => match read_text fs output_log_path with
                                   | Ok _ => Ok tt
                                   | Raise e => Raise e
                                   end)
       else pure tt in
     @fail (list (string * string) * string)
       (HTTPException 500 ("Failed to generate preview: " +:+ str_exn cause)))
    (fun r s => match r with
                | Ok _ => False
                | Raise e => preview_failure env output_log_path cause e s
                end).
Proof.
  intros s. unfold and_then, on_disk, pure, fail, preview_failure.
  destruct (path_exists (disk_at env (now s)) output_log_path).
  - destruct (read_text (disk_at env (now s)) output_log_path) as [text|e] eqn:Hread;
      eexists _, s; (split; [reflexivity|]); repeat split; [now left|now right].
  - eexists _, s. split; [reflexivity|]. repeat split. now left.
Qed.

Lemma run_preview_macro_spec (input_path output_dir filename : string) (s : State) :
  let temp_dir := "/tmp/tmp" +:+ pretty (temp_dirs_made s) in
  let output_log_path := os_path_join temp_dir "output_log.txt" in
  exists r s',
    run_preview_macro env fuel input_path output_dir filename s = Some (r, s')
    /\ temp_dirs_made s' = S (temp_dirs_made s)
    /\ background_tasks s' = background_tasks s ++ [temp_dir]
    /\ match r with
       | Ok _ => preview_found env output_log_path r s'
       | Raise e => exists cause, preview_failure env output_log_path cause e s'
       end.
Proof.
  intros temp_dir output_log_path.
  unfold run_preview_macro. unfold and_then at 1. unfold mkdtemp at 1.
  fold temp_dir. cbv zeta. fold output_log_path.
  unfold ensure, add_cleanup_task.
  match goal with |- context [rescue ?body ?handler] =>
    assert (Hrun : runs (rescue body handler)
              (fun r s' => match r with
                           | Ok _ => preview_found env output_log_path r s'
                           | Raise e => exists cause,
                               preview_failure env output_log_path cause e s'
                           end))
  end.
  { eapply runs_rescue.
    - apply preview_body_runs.
    - intros cause. eapply runs_weaken; [apply preview_handler_runs|].
      intros [a|e] s0; [intros []|]. intros H. now exists cause.
    - intros a s0 H. exact H. }
  match goal with |- context [rescue ?body ?handler ?s0] =>
    destruct (Hrun s0) as (r & s1 & -> & Hd & Ht & HQ)
  end.
  cbn [temp_dirs_made background_tasks] in Hd, Ht.
  eexists r, _. split; [reflexivity|]. cbn [temp_dirs_made background_tasks now].
  split; [exact Hd|]. split; [now rewrite Ht|].
  destruct r as [[metadata preview_path]|e]; exact HQ.
Qed.

End Run.

(** *** The file type *)

Lemma rfind_from_none (c : ascii) (s : string) :
  forall i j, Py.rfind_from i c s = None -> Py.rfind_from j c s = None.
Proof.
  induction s as [|d s IH]; intros i j; [reflexivity|]. cbn [Py.rfind_from].
  destruct (Py.rfind_from (S i) c s) eqn:E; [discriminate|].
  rewrite (IH _ (S j) E). now destruct (Ascii.eqb d c).
Qed.

Lemma rfind_from_spec (c : ascii) (s : string) :
  forall i j,
    Py.rfind_from i c s = Some j ->
    i <= j
    /\ Py.drop (j - i) s = String c (Py.drop (S (j - i)) s)
    /\ Py.rfind c (Py.drop (S (j - i)) s) = None.
Proof.
  induction s as [|d s IH]; intros i j; [discriminate|]. cbn [Py.rfind_from].
  destruct (Py.rfind_from (S i) c s) as [j'|] eqn:E.
  - intros [= ->]. destruct (IH _ _ E) as (Hle & Hdrop & Hnone).
    split; [lia|]. replace (j - i) with (S (j - S i)) by lia.
    cbn [Py.drop]. now split.
  - destruct (Ascii.eqb_spec d c) as [->|]; [|discriminate]. intros [= <-].
    split; [lia|]. rewrite Nat.sub_diag. cbn [Py.drop]. split; [reflexivity|].
    exact (rfind_from_none _ _ _ 0 E).
Qed.

Lemma rfind_none_drop (c : ascii) (n : nat) :
  forall s, Py.rfind c s = None -> Py.rfind c (Py.drop n s) = None.
Proof.
  unfold Py.rfind. induction n as [|n IH]; intros [|d s] H; try exact H.
  cbn [Py.drop]. apply IH. cbn [Py.rfind_from] in H.
  destruct (Py.rfind_from 1 c s) eqn:E; [discriminate|].
  exact (rfind_from_none _ _ _ 0 E).
Qed.

Lemma drop_drop (n m : nat) : forall s, Py.drop n (Py.drop m s) = Py.drop (m + n) s.
Proof.
  induction m as [|m IH]; intros s; [reflexivity|].
  destruct s as [|d s]; [now destruct n|]. cbn [Py.drop Nat.add]. apply IH.
Qed.

Lemma rfind_none_contains (c : ascii) (s : string) :
  Py.rfind c s = None -> Py.contains (String c EmptyString) s = false.
Proof.
  unfold Py.rfind. induction s as [|d s IH]; [reflexivity|]. cbn [Py.rfind_from].
  destruct (Py.rfind_from 1 c s) eqn:E; [discriminate|].
  destruct (Ascii.eqb_spec d c) as [->|Hne]; [discriminate|]. intros _.
  cbn [Py.contains Py.startswith].
  destruct (Ascii.eqb_spec c d) as [->|_]; [contradiction|]. cbn [andb orb].
  apply IH. exact (rfind_from_none _ _ _ 0 E).
Qed.

(** The extension [os.path.splitext] gives is empty, or a dot followed by
    a text without dot or slash; with the root it makes up the path. *)
Lemma splitext_spec (p : string) :
  let ext := os_path_splitext_1 p in
  os_path_splitext_0 p +:+ ext = p
  /\ (ext = EmptyString
      \/ ext = String "."%char (Py.drop 1 ext)
         /\ Py.rfind "."%char (Py.drop 1 ext) = None
         /\ Py.rfind Py.SLASH (Py.drop 1 ext) = None).
Proof.
  unfold os_path_splitext_0, os_path_splitext_1.
  destruct (Py.rfind "." p) as [dotIndex|] eqn:Hdot.
  2:{ split; [|now left]. cbv zeta. apply append_nil_r. }
  cbv zeta.
  match goal with |- context [if ?b then _ else _] => destruct b eqn:Hcond end.
  2:{ split; [|now left]. apply append_nil_r. }
  split; [apply take_drop|]. right.
  apply andb_true_iff in Hcond as [Hle _]. apply Nat.leb_le in Hle.
  destruct (rfind_from_spec _ _ _ _ Hdot) as (_ & Hdrop & Hnone).
  rewrite Nat.sub_0_r in Hdrop, Hnone. rewrite Hdrop.
  change (Py.drop 1 (String "."%char (Py.drop (S dotIndex) p)))
    with (Py.drop (S dotIndex) p).
  split; [reflexivity|]. split; [exact Hnone|].
  destruct (Py.rfind Py.SLASH p) as [sepIndex|] eqn:Hsep.
  - destruct (rfind_from_spec _ _ _ _ Hsep) as (_ & _ & Hfree).
    rewrite Nat.sub_0_r in Hfree.
    replace (S dotIndex) with (S sepIndex + (S dotIndex - S sepIndex)) by lia.
    rewrite <- drop_drop. now apply rfind_none_drop.
  - now apply rfind_none_drop.
Qed.

(** *** The outcomes *)

(** [run_preview_macro] always ends, the engine call returning, and
    whatever its outcome it hands exactly one task to the background tasks:
    the cleanup of the temporary directory it made for the log.  When it
    returns, the engine was initialized, the preview path is on the disk at
    that instant, and it is the path the log declared last.  When it raises,
    the exception is its [HTTPException] of status 500, whose detail ends
    with the text of the exception caught, unless reading the log for the
    error message raised: then that exception leaves instead. *)
Theorem run_preview_macro_outcome (env : Preview.Env) (fuel : nat)
    (input_path output_dir filename : string) (s : Preview.State) :
  121 < fuel ->
  let temp_dir := "/tmp/tmp" +:+ pretty (Preview.temp_dirs_made s) in
  let output_log_path := os_path_join temp_dir "output_log.txt" in
  exists r s',
    Preview.run_preview_macro env fuel input_path output_dir filename s = Some (r, s')
    /\ Preview.background_tasks s' = Preview.background_tasks s ++ [temp_dir]
    /\ match r with
       | Ok (metadata, preview_path) =>
           path_exists (Preview.disk_at env (Preview.now s')) preview_path = true
           /\ declared_preview env output_log_path preview_path
           /\ exists classes, Startup.get_imagej_objects (Preview.engine env) = Ok classes
       | Raise e =>
           (exists cause,
              e = HTTPException 500 ("Failed to generate preview: " +:+ str_exn cause))
           \/ read_text (Preview.disk_at env (Preview.now s')) output_log_path = Raise e
       end.
Proof.
  intros Hfuel temp_dir output_log_path.
  destruct (run_preview_macro_spec env fuel Hfuel input_path output_dir filename s)
    as (r & s' & Hrun & _ & Htasks & Hr).
  exists r, s'. split; [exact Hrun|]. split; [exact Htasks|].
  destruct r as [[metadata preview_path]|e]; [exact Hr|].
  destruct Hr as (cause & [->|Hread]); [left; now exists cause|now right].
Qed.

Lemma run_preview_macro_outcome_witness :
  exists r s',
    Preview.run_preview_macro (sample_env started_engine writing_engine) 200
      "/data/cells.tif" "/data" "6f1c_cells.tif" at_start = Some (r, s')
    /\ Preview.background_tasks s' = ["/tmp/tmp0"].
Proof.
  destruct (run_preview_macro_outcome (sample_env started_engine writing_engine) 200
              "/data/cells.tif" "/data" "6f1c_cells.tif" at_start ltac:(lia))
    as (r & s' & Hrun & Htasks & _).
  now exists r, s'.
Defined.

(** [process_image] always ends, the engine call returning, and raises
    nothing but an [HTTPException] of status 500 whose detail begins with
    [Failed to process image: ]: what follows is the text of the
    [HTTPException] of [run_preview_macro], status included, or the text of
    what reading the log raised in its handler.  Exactly one cleanup is
    scheduled in either case.  The data returned name the original path as
    given and the file name with the identifier and an underscore before
    it, and a preview path that is on the disk at the instant of the return
    and is the one the log declared last. *)
Theorem process_image_outcome (env : Preview.Env) (fuel : nat)
    (original_path filename : string) (s : Preview.State) :
  121 < fuel ->
  let temp_dir := "/tmp/tmp" +:+ pretty (Preview.temp_dirs_made s) in
  let output_log_path := os_path_join temp_dir "output_log.txt" in
  exists r s',
    Preview.process_image env fuel original_path filename s = Some (r, s')
    /\ Preview.background_tasks s' = Preview.background_tasks s ++ [temp_dir]
    /\ match r with
       | Ok data =>
           pd_original_path data = original_path
           /\ pd_unique_filename data = Preview.uuid4 env +:+ "_" +:+ filename
           /\ path_exists (Preview.disk_at env (Preview.now s')) (pd_preview_path data) = true
           /\ declared_preview env output_log_path (pd_preview_path data)
       | Raise e =>
           exists cause,
             (e = HTTPException 500
                    ("Failed to process image: 500: Failed to generate preview: "
                     +:+ str_exn cause)
              \/ (e = HTTPException 500 ("Failed to process image: " +:+ str_exn cause)
                  /\ read_text (Preview.disk_at env (Preview.now s')) output_log_path
                     = Raise cause))
       end.
Proof.
  intros Hfuel temp_dir output_log_path.
  unfold Preview.process_image, Preview.rescue, Preview.and_then. cbv zeta.
  destruct (run_preview_macro_spec env fuel Hfuel original_path
              (os_path_dirname original_path) (Preview.uuid4 env +:+ "_" +:+ filename) s)
    as (r & s' & -> & _ & Htasks & Hr).
  destruct r as [[metadata preview_path]|e].
  - eexists _, s'. split; [reflexivity|]. split; [exact Htasks|].
    cbn [pd_original_path pd_unique_filename pd_preview_path fst snd].
    destruct Hr as (Hex & Hdecl & _). now repeat split.
  - eexists _, s'. split; [reflexivity|]. split; [exact Htasks|].
    destruct Hr as (cause & [->|Hread]).
    + exists cause. left. reflexivity.
    + exists e. right. now split.
Qed.

Lemma process_image_outcome_witness :
  exists r s',
    Preview.process_image (sample_env started_engine writing_engine) 200
      "/data/cells.tif" "cells.tif" at_start = Some (r, s')
    /\ Preview.background_tasks s' = ["/tmp/tmp0"].
Proof.
  destruct (process_image_outcome (sample_env started_engine writing_engine) 200
              "/data/cells.tif" "cells.tif" at_start ltac:(lia))
    as (r & s' & Hrun & Htasks & _).
  now exists r, s'.
Defined.

Example process_image_runs :
  Preview.process_image (sample_env started_engine writing_engine) 200
    "/data/cells.tif" "cells.tif" at_start
  = Some (Ok {| pd_metadata := []; pd_preview_path := "/data/6f1c_cells.png";
                pd_original_path := "/data/cells.tif"; pd_file_type := "tif";
                pd_unique_filename := "6f1c_cells.tif" |},
          {| Preview.now := 5500; Preview.temp_dirs_made := 1;
             Preview.background_tasks := ["/tmp/tmp0"] |}).
Proof. vm_compute. reflexivity. Qed.

(** Before the engine is initialized, and after its shutdown, every call
    of [process_image] fails at once: no time passes, the directory for the
    log is made and its cleanup scheduled, and the detail of the exception
    carries the text of [get_imagej_objects] behind the two prefixes. *)
Theorem process_image_without_engine (env : Preview.Env) (fuel : nat)
    (original_path filename : string) (s : Preview.State) :
  Startup.IJ (Preview.engine env) = None \/ Startup.BF (Preview.engine env) = None ->
  let temp_dir := "/tmp/tmp" +:+ pretty (Preview.temp_dirs_made s) in
  path_exists (Preview.disk_at env (Preview.now s)) (os_path_join temp_dir "output_log.txt")
  = false ->
  Preview.process_image env fuel original_path filename s
  = Some (Raise (HTTPException 500
                   ("Failed to process image: 500: Failed to generate preview: "
                    +:+ str_exn NotInitialized)),
          {| Preview.now := Preview.now s;
             Preview.temp_dirs_made := S (Preview.temp_dirs_made s);
             Preview.background_tasks := Preview.background_tasks s ++ [temp_dir] |}).
Proof.
  intros Hengine temp_dir Hlog.
  assert (Hobjects : Startup.get_imagej_objects (Preview.engine env) = Raise NotInitialized).
  { unfold Startup.get_imagej_objects.
    destruct Hengine as [-> | ->]; [reflexivity|].
    now destruct (Startup.IJ (Preview.engine env)). }
  unfold Preview.process_image, Preview.run_preview_macro, Preview.rescue, Preview.ensure,
    Preview.and_then, Preview.mkdtemp, Preview.lift, Preview.on_disk,
    Preview.add_cleanup_task, Preview.fail.
  cbv zeta. fold temp_dir. rewrite Hobjects. cbn [Preview.now]. rewrite Hlog. reflexivity.
Qed.

Lemma process_image_without_engine_witness :
  Preview.process_image (sample_env (Startup.shutdown started_engine) writing_engine) 0
    "/data/cells.tif" "cells.tif" at_start
  = Some (Raise (HTTPException 500
                   ("Failed to process image: 500: Failed to generate preview: "
                    +:+ "ImageJ has not been initialized. Call initialize() first.")),
          {| Preview.now := 0; Preview.temp_dirs_made := 1;
             Preview.background_tasks := ["/tmp/tmp0"] |}).
Proof.
  exact (process_image_without_engine
           (sample_env (Startup.shutdown started_engine) writing_engine) 0
           "/data/cells.tif" "cells.tif" at_start (or_introl eq_refl) eq_refl).
Defined.

(** The file type [process_image] returns is the extension of the file
    name without its dot: it holds neither dot nor slash; when it is not
    empty the file name is its root, a dot and the file type; and it is
    empty for a file name without a dot. *)
Theorem process_image_file_type (env : Preview.Env) (fuel : nat)
    (original_path filename : string) (s s' : Preview.State) (data : ProcessedData) :
  Preview.process_image env fuel original_path filename s = Some (Ok data, s') ->
  Py.contains "." (pd_file_type data) = false
  /\ Py.contains "/" (pd_file_type data) = false
  /\ (pd_file_type data <> EmptyString ->
      filename = os_path_splitext_0 filename +:+ "." +:+ pd_file_type data)
  /\ (Py.contains "." filename = false -> pd_file_type data = EmptyString).
Proof.
  unfold Preview.process_image, Preview.rescue, Preview.and_then, Preview.pure, Preview.fail.
  cbv zeta.
  destruct (Preview.run_preview_macro _ _ _ _ _ s) as [[[result|e] s1]|]; try discriminate.
  intros [= <- _]. cbn [pd_file_type].
  destruct (splitext_spec filename) as [Hsplit [Hext|(Hext & Hdot & Hslash)]].
  - rewrite Hext. cbn. repeat split; try reflexivity. now intros [].
  - split; [now apply rfind_none_contains|]. split; [now apply (rfind_none_contains "/")|].
    split.
    + intros _. rewrite Hext in Hsplit at 1. now symmetry.
    + intros Hnodot. exfalso.
      assert (Hin : Py.contains "." filename = true); [|congruence].
      rewrite <- Hsplit, Hext. generalize (os_path_splitext_0 filename). intros root.
      induction root as [|c root IH]; [reflexivity|].
      rewrite append_cons. cbn [Py.contains]. rewrite IH. apply orb_true_r.
Qed.

Lemma process_image_file_type_witness :
  Py.contains "." "tif" = false
  /\ "cells.tif" = os_path_splitext_0 "cells.tif" +:+ "." +:+ "tif".
Proof.
  destruct (process_image_file_type (sample_env started_engine writing_engine) 200
              "/data/cells.tif" "cells.tif" at_start _ _ eq_refl) as (Hdot & _ & Hname & _).
  split; [exact Hdot|]. now apply Hname.
Defined.

Example file_types :
  map (fun filename => Py.drop 1 (os_path_splitext_1 filename))
    ["cells.tif"; "stack.ome.tiff"; "README"; ".hidden"; "..tif"; "scan."; "a.b/c"]
  = ["tif"; "tiff"; ""; ""; ""; ""; ""]
  /\ map os_path_dirname ["/tmp/tmp0/cells.tif"; "cells.tif"; "/cells.tif"; "a//b"; "//a"]
     = ["/tmp/tmp0"; ""; "/"; "a"; "//"].
Proof. vm_compute. split; reflexivity. Qed.

(** A log path that is a directory: the exception that leaves
    [run_preview_macro] is the one of the read in its handler, not an
    [HTTPException]; a log without a declaration of the preview; and a
    preview that never appears. *)
Example preview_failures :
  let run := fun disk_at =>
    Preview.run_preview_macro (sample_env started_engine disk_at) 200
      "/data/cells.tif" "/data" "6f1c_cells.tif" at_start in
  match run directory_for_log with
  | Some (Raise e, s) => exn_class e = "IsADirectoryError" /\ Preview.now s = 500%Z
  | _ => False
  end
  /\ match run silent_engine with
     | Some (Raise e, s) =>
         e = HTTPException 500 ("Failed to generate preview: " +:+ str_exn Preview.NoneTypePath)
         /\ Preview.background_tasks s = ["/tmp/tmp0"]
     | _ => False
     end
  /\ match run (fun t => writing_engine (Z.min t 3000)) with
     | Some (Raise e, s) =>
         e = HTTPException 500
               ("Failed to generate preview: "
                +:+ "File not created within 120 seconds: /data/6f1c_cells.png")
         /\ Preview.now s = 123500%Z
     | _ => False
     end.
Proof. vm_compute. repeat split. Qed.
